(** * PlutoRCON: the request/response engine and its text parsers

    A shallow embedding of package [rcon] (rcon.go, commands.go, models.go)
    and the properties of its specification that were checked against it.

    Conventions of the embedding.
    - A Go string is a byte string: [string], one [ascii] per byte.
    - Go [int], [int64] and [time.Duration] are 64-bit; they are [Z] here,
      durations in nanoseconds.  The only arithmetic the package performs on
      them is the back-off product [(i+1) * 150ms] with [i <= 3].
    - The UDP socket, the sleeps and the wall clock are effects.  They are
      threaded explicitly through a value of type [Net.net], which also
      scripts what the peer and the kernel answer to each call.
    - The mutex [rc.mu] serialises exchanges of concurrent callers; one
      caller at a time is modelled, so the lock does not appear.
    - Functions of the Go standard library are modelled next to the code
      that calls them, in modules named after their packages.
    - The limits of the machine are not modelled: a text is taken to be
      far smaller than the sizes at which the Go runtime cannot allocate
      it or package regexp refuses an expression as too large (tens of
      millions of bytes). *)

From stdpp Require Import gmap strings list.
From Stdlib Require Import ZArith Ascii String Lia.
From Stdlib Require Import DecimalString.

Open Scope string_scope.

(* ===================================================================== *)
(** ** Bytes and byte strings *)
(* ===================================================================== *)

Module Bytes.

Definition code (a : ascii) : N := N_of_ascii a.

Definition between (lo hi : N) (a : ascii) : bool :=
  ((lo <=? code a) && (code a <=? hi))%N.

Definition nl : ascii := "010"%char.
Definition cr : ascii := "013"%char.
Definition dquote : ascii := "034"%char.
Definition backslash : ascii := "092"%char.
Definition caret : ascii := "094"%char.
Definition xFF : ascii := "255"%char.

Definition isDigit (a : ascii) : bool := between 48 57 a.
Definition isUpper (a : ascii) : bool := between 65 90 a.
Definition isLower (a : ascii) : bool := between 97 122 a.
Definition isAlnum (a : ascii) : bool := isDigit a || isUpper a || isLower a.

(** ASCII lower-casing of one byte. *)
Definition lower (a : ascii) : ascii :=
  if isUpper a then ascii_of_N (code a + 32) else a.

(** s[n:] for n <= len(s); the empty string beyond. *)
Fixpoint drop (n : nat) (s : string) : string :=
  match n, s with
  | O, _ => s
  | S n', String _ s' => drop n' s'
  | S _, EmptyString => EmptyString
  end.

Fixpoint rev_onto (s acc : string) : string :=
  match s with
  | EmptyString => acc
  | String a s' => rev_onto s' (String a acc)
  end.

Definition rev (s : string) : string := rev_onto s "".

Definition isEmpty (s : string) : bool :=
  match s with EmptyString => true | _ => false end.

(** Is the byte [a] in [s]: [strings.IndexByte(s, a) >= 0]. *)
Fixpoint hasByte (s : string) (a : ascii) : bool :=
  match s with
  | EmptyString => false
  | String b s' => Ascii.eqb a b || hasByte s' a
  end.

Fixpoint allBytes (p : ascii -> bool) (s : string) : bool :=
  match s with
  | EmptyString => true
  | String b s' => p b && allBytes p s'
  end.

End Bytes.

(* ===================================================================== *)
(** ** Package strings *)
(* ===================================================================== *)

Module Strings.
Import Bytes.

Definition HasPrefix (s p : string) : bool := String.prefix p s.

(** [asciiSpace] of package strings: tab, LF, VT, FF, CR and space. *)
Definition asciiSpace (a : ascii) : bool :=
  between 9 13 a || (code a =? 32)%N.

(** The white space of [unicode.IsSpace] that is not ASCII, in UTF-8:
    U+0085 and U+00A0 (two bytes, lead C2), U+1680 (E1 9A 80),
    U+2000..U+200A, U+2028, U+2029, U+202F (E2 80 xx), U+205F (E2 81 9F)
    and U+3000 (E3 80 80).  A byte of 0x80 or more that does not begin
    one of these sequences decodes to another rune or to RuneError, which
    is not white space. *)
Definition space3 (a b c : ascii) : bool :=
  match code a, code b with
  | 225%N, 154%N => (code c =? 128)%N
  | 226%N, 128%N =>
      between 128 138 c || (code c =? 168)%N || (code c =? 169)%N
      || (code c =? 175)%N
  | 226%N, 129%N => (code c =? 159)%N
  | 227%N, 128%N => (code c =? 128)%N
  | _, _ => false
  end.

Definition space2 (a b : ascii) : bool :=
  (code a =? 194)%N && ((code b =? 133)%N || (code b =? 160)%N).

(** [TrimLeftFunc(s, unicode.IsSpace)]. *)
Fixpoint trimLeft (s : string) : string :=
  match s with
  | EmptyString => s
  | String a s1 =>
      if asciiSpace a then trimLeft s1
      else
        match s1 with
        | String b s2 =>
            if space2 a b then trimLeft s2
            else
              match s2 with
              | String c s3 => if space3 a b c then trimLeft s3 else s
              | EmptyString => s
              end
        | EmptyString => s
        end
  end.

(** [TrimRightFunc(s, unicode.IsSpace)], on the reversed string: the
    last rune is white space exactly when the string ends with one of
    the byte sequences above. *)
Fixpoint trimLeftRev (s : string) : string :=
  match s with
  | EmptyString => s
  | String a s1 =>
      if asciiSpace a then trimLeftRev s1
      else
        match s1 with
        | String b s2 =>
            if space2 b a then trimLeftRev s2
            else
              match s2 with
              | String c s3 => if space3 c b a then trimLeftRev s3 else s
              | EmptyString => s
              end
        | EmptyString => s
        end
  end.

Definition trimRight (s : string) : string := rev (trimLeftRev (rev s)).

Definition TrimSpace (s : string) : string := trimRight (trimLeft s).

(** [strings.Contains]. *)
Fixpoint Contains (s sub : string) : bool :=
  HasPrefix s sub
  || match s with
     | EmptyString => false
     | String _ s' => Contains s' sub
     end.

(** [strings.ToLower], as far as a search for ASCII text in its result
    can tell.  ASCII capitals are lowered.  Of the runes outside ASCII,
    two have an ASCII lower case: U+0130 (C4 B0, lowered to i) and the
    Kelvin sign U+212A (E2 84 AA, lowered to k).  Every other rune
    outside ASCII, and every byte that is not valid UTF-8, is lowered by
    Go to bytes of 0x80 and more; such bytes are kept here as they are. *)
Fixpoint ToLower (s : string) : string :=
  match s with
  | EmptyString => EmptyString
  | String a s1 =>
      match s1 with
      | String b s2 =>
          if (code a =? 196)%N && (code b =? 176)%N
          then String "i" (ToLower s2)
          else
            match s2 with
            | String c s3 =>
                if (code a =? 226)%N && (code b =? 132)%N && (code c =? 170)%N
                then String "k" (ToLower s3)
                else String (lower a) (ToLower s1)
            | EmptyString => String (lower a) (ToLower s1)
            end
      | EmptyString => String (lower a) EmptyString
      end
  end.

(** Simple case folding towards ASCII: capitals are lowered, and the
    two runes outside ASCII whose folding orbit meets ASCII are replaced
    by its letter, the long s U+017F (C5 BF) by s and the Kelvin sign
    U+212A (E2 84 AA) by k. *)
Fixpoint foldASCII (s : string) : string :=
  match s with
  | EmptyString => EmptyString
  | String a s1 =>
      match s1 with
      | String b s2 =>
          if (code a =? 197)%N && (code b =? 191)%N
          then String "s" (foldASCII s2)
          else
            match s2 with
            | String c s3 =>
                if (code a =? 226)%N && (code b =? 132)%N && (code c =? 170)%N
                then String "k" (foldASCII s3)
                else String (lower a) (foldASCII s1)
            | EmptyString => String (lower a) (foldASCII s1)
            end
      | EmptyString => String (lower a) EmptyString
      end
  end.

(** [strings.EqualFold(s, t)] against an ASCII [t]; the package folds
    against the constants true, inforesponse and statusresponse only. *)
Definition EqualFold (s t : string) : bool :=
  String.eqb (foldASCII s) (foldASCII t).

(** [strings.Split(s, sep)] for a separator of one byte, the only kind
    the package uses.  The result is never empty. *)
Fixpoint Split (s : string) (sep : ascii) : list string :=
  match s with
  | EmptyString => [EmptyString]
  | String a s' =>
      if Ascii.eqb a sep then EmptyString :: Split s' sep
      else
        match Split s' sep with
        | x :: xs => String a x :: xs
        | [] => [String a EmptyString]
        end
  end.

(** [strings.Cut(s, sep)] for a separator of one byte: before, after and
    whether the separator was found. *)
Fixpoint Cut (s : string) (sep : ascii) : string * string * bool :=
  match s with
  | EmptyString => (EmptyString, EmptyString, false)
  | String a s' =>
      if Ascii.eqb a sep then (EmptyString, s', true)
      else
        match Cut s' sep with
        | (before, after, true) => (String a before, after, true)
        | (_, _, false) => (s, EmptyString, false)
        end
  end.

(** [strings.SplitN(s, sep, 2)] for a separator of one byte. *)
Definition SplitN2 (s : string) (sep : ascii) : list string :=
  match Cut s sep with
  | (before, after, true) => [before; after]
  | (_, _, false) => [s]
  end.

(** [strings.ReplaceAll(s, old, new)] for a non-empty [old], as at every
    call site: the occurrences of [old] met in one scan from the left,
    each scan resuming after the occurrence just replaced.  [skip]
    counts the bytes of that occurrence still to be passed over. *)
Fixpoint replaceFrom (old new : string) (skip : nat) (s : string) : string :=
  match s with
  | EmptyString => EmptyString
  | String a s' =>
      match skip with
      | S k => replaceFrom old new k s'
      | O =>
          if HasPrefix s old
          then new ++ replaceFrom old new (String.length old - 1) s'
          else String a (replaceFrom old new 0 s')
      end
  end.

Definition ReplaceAll (s old new : string) : string := replaceFrom old new 0 s.

(** [strings.ContainsAny(s, chars)] for ASCII [chars]: is a byte of
    [chars] in [s]. *)
Fixpoint ContainsAny (s chars : string) : bool :=
  match s with
  | EmptyString => false
  | String a s' => hasByte chars a || ContainsAny s' chars
  end.

End Strings.



(* ===================================================================== *)
(** ** Package strconv *)
(* ===================================================================== *)

Module Strconv.
Import Bytes.

Definition maxInt : Z := 9223372036854775807.
Definition minInt : Z := -9223372036854775808.

Definition maxUint64 : Z := 18446744073709551615.

(** How the loop of [ParseUint] ends: with the value, or at the first
    byte it refuses. *)
Inductive scanned : Type :=
| Value (n : Z)
| SyntaxError
| RangeError.

(** The loop of [strconv.ParseUint(s, 10, 64)], from the value [n] read
    so far.  A byte that is not a decimal digit is a syntax error; a
    digit with which the value leaves the range of [uint64] is a range
    error.  The loop returns at the first of the two it meets, so digits
    that overflow hide a later byte that is not a digit.  Go tests
    [n >= cutoff], where [cutoff] is [maxUint64/10 + 1], and then the
    wrap-around of [n*10 + d]; on integers without wrap-around the
    second test is that [n*10 + d] exceeds [maxUint64]. *)
Fixpoint parseUint (s : string) (n : Z) : scanned :=
  match s with
  | EmptyString => Value n
  | String a s' =>
      if isDigit a then
        if (maxUint64 / 10 + 1 <=? n)%Z then RangeError
        else
          let n1 := (n * 10 + (Z.of_N (code a) - 48))%Z in
          if (maxUint64 <? n1)%Z then RangeError else parseUint s' n1
      else SyntaxError
  end.

(** [strconv.ParseInt(s, 10, 64)]: the value and whether the error is
    nil.  An optional sign, then [ParseUint] on the rest, which must not
    be empty.  On a syntax error the value is 0.  On a range error, of
    [ParseUint] or of the signed value, it is the nearest bound of
    [int64]; the error is not nil in both cases. *)
Definition ParseInt (s : string) : Z * bool :=
  let '(neg, body) :=
    match s with
    | String "+" r => (false, r)
    | String "-" r => (true, r)
    | _ => (false, s)
    end in
  match body with
  | EmptyString => (0%Z, false)
  | _ =>
      match parseUint body 0 with
      | SyntaxError => (0%Z, false)
      | RangeError => (if neg then minInt else maxInt, false)
      | Value un =>
          if neg
          then (if (- un <? minInt)%Z then (minInt, false) else ((- un)%Z, true))
          else (if (maxInt <? un)%Z then (maxInt, false) else (un, true))
      end
  end.

(** [strconv.Atoi(s)] is [ParseInt(s, 10, 0)] with [int] of 64 bits.
    Its fast path, for texts of fewer than 19 bytes, reads sign and
    digits in the same way; no value of so few digits leaves the
    range. *)
Definition Atoi (s : string) : Z * bool := ParseInt s.

End Strconv.

(* ===================================================================== *)
(** ** Package fmt *)
(* ===================================================================== *)

Module Fmt.

(** The verb %d on an [int]: decimal digits, a minus sign before a
    negative number. *)
Definition formatInt (n : Z) : string := NilZero.string_of_int (Z.to_int n).

End Fmt.

(* ===================================================================== *)
(** ** Package regexp *)
(* ===================================================================== *)

(** The expressions the package compiles, matched with the leftmost-first
    rule of Go (the match a backtracking search finds first).  Repetition
    is only ever applied to a class of single bytes.  The classes written
    with a backslash are ASCII classes in Go; the dot is every rune but
    the line feed.  Matching goes byte by byte: in each of the package's
    patterns a repetition of the dot or of the non-space class is followed
    by ASCII text or by the end of the input, so no match can end inside a
    rune of several bytes. *)
Module Regexp.
Import Bytes.

Inductive regex : Type :=
| Empty
| Byte (p : ascii -> bool)
| Bol
| Eol
| Seq (r1 r2 : regex)
| Alt (r1 r2 : regex)
| Rep (greedy atLeastOne : bool) (p : ascii -> bool)
| Opt (r : regex)
| Group (name : string) (r : regex).

(** Named groups that took part in the match, the latest first. *)
Definition captures : Type := list (string * string).

(** What is left to match: offset reached, rest of the input, groups. *)
Definition cont : Type := nat -> string -> captures -> option captures.

Fixpoint repGreedy (p : ascii -> bool) (n : nat) (s : string)
         (cs : captures) (k : cont) : option captures :=
  match s with
  | String a s' =>
      if p a then
        match repGreedy p (S n) s' cs k with
        | Some m => Some m
        | None => k n s cs
        end
      else k n s cs
  | EmptyString => k n s cs
  end.

Fixpoint repLazy (p : ascii -> bool) (n : nat) (s : string)
         (cs : captures) (k : cont) : option captures :=
  match k n s cs with
  | Some m => Some m
  | None =>
      match s with
      | String a s' => if p a then repLazy p (S n) s' cs k else None
      | EmptyString => None
      end
  end.

Fixpoint run (r : regex) (n : nat) (s : string) (cs : captures) (k : cont)
  : option captures :=
  match r with
  | Empty => k n s cs
  | Byte p =>
      match s with
      | String a s' => if p a then k (S n) s' cs else None
      | EmptyString => None
      end
  | Bol => if Nat.eqb n 0 then k n s cs else None
  | Eol => if isEmpty s then k n s cs else None
  | Seq r1 r2 => run r1 n s cs (fun n' s' cs' => run r2 n' s' cs' k)
  | Alt r1 r2 =>
      match run r1 n s cs k with
      | Some m => Some m
      | None => run r2 n s cs k
      end
  | Rep greedy atLeastOne p =>
      let star := if greedy then repGreedy p else repLazy p in
      if atLeastOne then
        match s with
        | String a s' => if p a then star (S n) s' cs k else None
        | EmptyString => None
        end
      else star n s cs k
  | Opt r' =>
      match run r' n s cs k with
      | Some m => Some m
      | None => k n s cs
      end
  | Group name r' =>
      run r' n s cs
          (fun n' s' cs' => k n' s' ((name, String.substring 0 (n' - n) s) :: cs'))
  end.

Fixpoint searchFrom (r : regex) (n : nat) (s : string) : option captures :=
  match run r n s [] (fun _ _ cs => Some cs) with
  | Some m => Some m
  | None =>
      match s with
      | String _ s' => searchFrom r (S n) s'
      | EmptyString => None
      end
  end.

(** [re.FindStringSubmatch(s)]: the groups of the leftmost match, [None]
    for a nil result. *)
Definition FindStringSubmatch (r : regex) (s : string) : option captures :=
  searchFrom r 0 s.

Definition MatchString (r : regex) (s : string) : bool :=
  match FindStringSubmatch r s with Some _ => true | None => false end.

(** The text of a named group; empty when the group took no part. *)
Fixpoint group (m : captures) (name : string) : string :=
  match m with
  | [] => EmptyString
  | (n, v) :: m' => if String.eqb n name then v else group m' name
  end.

(** *** Building blocks *)

Definition lit (a : ascii) : regex := Byte (Ascii.eqb a).

(** One byte of literal text under the flag i.  The letters s and k
    also match the long s (C5 BF) and the Kelvin sign (E2 84 AA). *)
Definition litFold (a : ascii) : regex :=
  let l := lower a in
  let same := Byte (fun b => Ascii.eqb (lower b) l) in
  if Ascii.eqb l "s" then
    Alt same (Seq (lit (ascii_of_N 197)) (lit (ascii_of_N 191)))
  else if Ascii.eqb l "k" then
    Alt same (Seq (lit (ascii_of_N 226))
                  (Seq (lit (ascii_of_N 132)) (lit (ascii_of_N 170))))
  else same.

(** Literal text, as [regexp.QuoteMeta] makes it. *)
Fixpoint literal (fold : bool) (s : string) : regex :=
  match s with
  | EmptyString => Empty
  | String a s' => Seq (if fold then litFold a else lit a) (literal fold s')
  end.

Fixpoint seq (rs : list regex) : regex :=
  match rs with
  | [] => Empty
  | [r] => r
  | r :: rs' => Seq r (seq rs')
  end.

(** The classes \d, \w, \s, \S, the dot and [0-9a-fA-F]. *)
Definition digit : ascii -> bool := isDigit.
Definition word (a : ascii) : bool := isAlnum a || Ascii.eqb a "_".
Definition space (a : ascii) : bool :=
  (code a =? 9)%N || (code a =? 10)%N || (code a =? 12)%N
  || (code a =? 13)%N || (code a =? 32)%N.
Definition nonSpace (a : ascii) : bool := negb (space a).
Definition dot (a : ascii) : bool := negb (Ascii.eqb a nl).
Definition hex (a : ascii) : bool :=
  isDigit a || between 97 102 a || between 65 70 a.

Definition plus (p : ascii -> bool) : regex := Rep true true p.
Definition star (p : ascii -> bool) : regex := Rep true false p.
Definition plusLazy (p : ascii -> bool) : regex := Rep false true p.
Definition starLazy (p : ascii -> bool) : regex := Rep false false p.

End Regexp.

(* ===================================================================== *)
(** ** Errors and the network *)
(* ===================================================================== *)

(** Error values.  [OpError] stands for the errors of package net, which
    implement [net.Error]; its flag is what [Timeout()] reports.
    [ErrorString msg] is [errors.New(msg)] or [fmt.Errorf(msg)], and
    [ErrorQuoted msg arg] is [fmt.Errorf(msg + " %q", arg)]. *)
Inductive error : Type :=
| OpError (timeout : bool) (msg : string)
| ErrorString (msg : string)
| ErrorQuoted (msg : string) (arg : string).

(** The test [netErr, ok := err.(net.Error); ok && netErr.Timeout()]. *)
Definition isTimeout (e : error) : bool :=
  match e with
  | OpError t _ => t
  | _ => false
  end.

Module Net.

Definition errClosed : error := OpError false "use of closed network connection".
Definition errDeadline : error := OpError true "i/o timeout".

(** What one turn of the read loop meets: a datagram, a failing
    [Read], or a failing [SetReadDeadline]. *)
Inductive readEvent : Type :=
| Datagram (payload : string)
| ReadFails (e : error)
| DeadlineFails (e : error).

(** What the client did, in order. *)
Inductive event : Type :=
| Wrote (packet : string)
| Slept (d : Z).

(** The socket behind [rc.Conn] and the rest of the environment.
    [writes] scripts the results of the coming calls of [Write] (no error
    once it is used up) and [reads] what the coming turns of the read
    loop meet.  When [reads] is used up the peer stays silent and every
    further read ends at its deadline.  When a datagram arrives relative
    to the deadline is decided by the script; this is why the durations
    handed to [readResponse] have no other effect in the model. *)
Record net : Type := mkNet {
  closed : bool;
  writes : list (option error);
  reads : list readEvent;
  trace : list event;
  clock : Z
}.

Definition log (ev : event) (w : net) : net :=
  mkNet (closed w) (writes w) (reads w) (trace w ++ [ev]) (clock w).

(** [rc.Conn.Write(packet)]. *)
Definition connWrite (packet : string) (w : net) : option error * net :=
  let w := log (Wrote packet) w in
  if closed w then (Some errClosed, w)
  else
    match writes w with
    | [] => (None, w)
    | r :: rest => (r, mkNet (closed w) rest (reads w) (trace w) (clock w))
    end.

(** [time.Sleep(d)]. *)
Definition sleep (d : Z) (w : net) : net :=
  let w := log (Slept d) w in
  mkNet (closed w) (writes w) (reads w) (trace w) (clock w + d).

(** [rc.Conn.Close()]. *)
Definition connClose (w : net) : option error * net :=
  if closed w then (Some errClosed, w)
  else (None, mkNet true (writes w) (reads w) (trace w) (clock w)).

Definition setReads (evs : list readEvent) (w : net) : net :=
  mkNet (closed w) (writes w) evs (trace w) (clock w).

Definition writeCalls (w : net) : list string :=
  omap (fun ev => match ev with Wrote p => Some p | Slept _ => None end) (trace w).

Definition sleeps (w : net) : list Z :=
  omap (fun ev => match ev with Slept d => Some d | Wrote _ => None end) (trace w).

End Net.

(* ===================================================================== *)
(** ** models.go *)
(* ===================================================================== *)

Definition Millisecond : Z := 1000000.
Definition Second : Z := 1000000000.

(** [*net.UDPConn]: the remote address the socket is connected to.  The
    state of the socket is in [Net.net]. *)
Definition UDPConn : Type := (string * Z)%type.

Module RCONClient.
Record t : Type := mk {
  IP : string;
  Port : Z;
  Password : string;
  Timeout : Z;
  Conn : option UDPConn
}.
End RCONClient.

(** The field [Ping] has type [any]: an [int], or the string the server
    sent. *)
Inductive ping : Type :=
| PingInt (n : Z)
| PingString (s : string).

Module Player.
Record t : Type := mk {
  ClientNum : Z;
  Name : string;
  Ping : ping;
  Score : Z;
  IP : string;
  Port : Z;
  QPort : Z;
  GUID : string;
  LastMsg : Z;
  Rate : Z
}.
End Player.

Module ServerStatus.
Record t : Type := mk {
  Map : string;
  Players : list Player.t;
  Raw : list string;
  RetrievedAt : Z
}.
End ServerStatus.

Module ServerInfo.
Record t : Type := mk {
  NetFieldChk : Z;
  Protocol : Z;
  SessionMode : Z;
  Hostname : string;
  MapName : string;
  IsInGame : bool;
  MaxClients : Z;
  GameType : string;
  HW : Z;
  Mod : bool;
  Voice : bool;
  SecKey : string;
  SecID : string;
  HostAddr : string;
  RetrievedAt : Z
}.
End ServerInfo.

Module ServerStatusInfo.
Record t : Type := mk {
  ComMaxClients : Z;
  GameType : string;
  RandomSeed : Z;
  GameName : string;
  MapName : string;
  PlaylistEnabled : bool;
  PlaylistEntry : Z;
  Protocol : Z;
  ScrTeamFFType : Z;
  ShortVersion : bool;
  SvAllowAimAssist : bool;
  SvAllowAnonymous : bool;
  SvClientFpsLimit : Z;
  SvDisableClientConsole : bool;
  SvHostname : string;
  SvMaxClients : Z;
  SvMaxPing : Z;
  SvMinPing : Z;
  SvPatchDSR50 : bool;
  SvPrivateClients : Z;
  SvPrivateClientsForUsers : Z;
  SvPure : bool;
  SvVoice : bool;
  PasswordEnabled : bool;
  ModEnabled : bool;
  RetrievedAt : Z
}.
End ServerStatusInfo.

Record commandSettings : Type := mkSettings {
  retries : Z;
  readTimeout : Z;
  readExtension : Z;
  requireSuccess : bool
}.

Definition commandOption : Type := commandSettings -> commandSettings.

(* ===================================================================== *)
(** ** rcon.go *)
(* ===================================================================== *)

Import Bytes.

Definition readBufferSize : nat := 4096.
Definition defaultReadTimeout : Z := Second.
Definition defaultReadExtension : Z := 350 * Millisecond.

(** What [New] asks of the system: whether a host resolves, and whether a
    socket can be dialled. *)
Record resolver : Type := mkResolver {
  hostResolves : string -> bool;
  dialSucceeds : bool
}.

(** [net.ResolveUDPAddr] of the address [ip:portNum].  Package net rejects
    a port outside 0..65535 ([LookupPort], invalid port) whatever the
    host. *)
Definition ResolveUDPAddr (env : resolver) (ip : string) (portNum : Z)
  : option UDPConn :=
  if (portNum <? 0)%Z || (65535 <? portNum)%Z then None
  else if hostResolves env ip then Some (ip, portNum)
  else None.

Definition DialUDP (env : resolver) (addr : UDPConn) : option UDPConn :=
  if dialSucceeds env then Some addr else None.

Definition New (env : resolver) (ip port password : string)
  : option RCONClient.t * option error :=
  if isEmpty password then
    (None, Some (ErrorString "RCON password cannot be empty"))
  else
    match Strconv.Atoi port with
    | (_, false) => (None, Some (ErrorString "invalid port number"))
    | (portNum, true) =>
        match ResolveUDPAddr env ip portNum with
        | None => (None, Some (ErrorString "failed to resolve UDP address"))
        | Some addr =>
            match DialUDP env addr with
            | None =>
                (None, Some (ErrorString "failed to establish UDP connection"))
            | Some conn =>
                (Some (RCONClient.mk ip portNum password defaultReadTimeout
                                     (Some conn)),
                 None)
            end
        end
    end.

(** [Close], for a client whose [Conn] is not nil: the call is handed to
    the socket, and [rc.Conn] stays as it is. *)
Definition Close (rc : RCONClient.t) (w : Net.net) : option error * Net.net :=
  Net.connClose w.

Definition sentinel : string :=
  String xFF (String xFF (String xFF (String xFF EmptyString))).

Definition LF : string := String nl EmptyString.
Definition CRLF : string := String cr LF.
Definition printLF : string := "print" ++ LF.

(** The loop that opens [normalizeRCON].  Every turn that changes [s]
    shortens it, so [S (length s)] turns are more than the loop takes. *)
Fixpoint stripLeading (fuel : nat) (s : string) : string :=
  match fuel with
  | O => s
  | S fuel' =>
      let '(s1, changed1) :=
        if Strings.HasPrefix s sentinel then (drop 4 s, true) else (s, false) in
      let '(s2, changed2) :=
        if Strings.HasPrefix s1 printLF then (drop 6 s1, true)
        else (s1, changed1) in
      if changed2 then stripLeading fuel' s2 else s2
  end.

Definition normalizeRCON (s : string) : string :=
  if isEmpty s then s
  else
    let s := Strings.ReplaceAll s CRLF LF in
    let s := stripLeading (S (String.length s)) s in
    let s := Strings.ReplaceAll s (LF ++ sentinel) LF in
    let s := Strings.ReplaceAll s (LF ++ printLF) LF in
    Strings.TrimSpace s.

Fixpoint nonEmptyTrimmed (parts : list string) : list string :=
  match parts with
  | [] => []
  | p :: rest =>
      let p := Strings.TrimSpace p in
      if isEmpty p then nonEmptyTrimmed rest else p :: nonEmptyTrimmed rest
  end.

Definition splitNonEmptyLines (s : string) : list string :=
  if isEmpty s then [] else nonEmptyTrimmed (Strings.Split s nl).

(** The read loop of [readResponse], one event of the script per turn:
    the buffer when a deadline ends the collection, or the error that
    ends the call. *)
Fixpoint readLoop (evs : list Net.readEvent) (buf : string)
  : (string + error) * list Net.readEvent :=
  match evs with
  | [] => (if isEmpty buf then inr Net.errDeadline else inl buf, [])
  | Net.DeadlineFails e :: evs' => (inr e, evs')
  | Net.ReadFails e :: evs' =>
      if isTimeout e
      then (if isEmpty buf then inr e else inl buf, evs')
      else (inr e, evs')
  | Net.Datagram payload :: evs' =>
      let tmp := String.substring 0 readBufferSize payload in
      if (0 <? String.length tmp)%nat then readLoop evs' (buf ++ tmp)
      else readLoop evs' buf
  end.

Definition readResponse (rc : RCONClient.t) (readTimeout readExtension : Z)
           (w : Net.net) : (list string * option error) * Net.net :=
  let readTimeout :=
    if (readTimeout <=? 0)%Z then defaultReadTimeout else readTimeout in
  let readExtension := if (readExtension <? 0)%Z then 0%Z else readExtension in
  if Net.closed w then (([], Some Net.errClosed), w)
  else
    match readLoop (Net.reads w) EmptyString with
    | (inr err, evs) => (([], Some err), Net.setReads evs w)
    | (inl buf, evs) =>
        let raw := normalizeRCON buf in
        if isEmpty raw then (([], None), Net.setReads evs w)
        else ((splitNonEmptyLines raw, None), Net.setReads evs w)
    end.

Definition requireResponse : commandOption :=
  fun s =>
    mkSettings (if (retries s =? 0)%Z then 2%Z else retries s)
               (readTimeout s) (readExtension s) true.

Definition withReadExtension (d : Z) : commandOption :=
  fun s =>
    let d := if (d <? 0)%Z then 0%Z else d in
    mkSettings (retries s) (readTimeout s) d (requireSuccess s).

Definition timeoutOrDefault (rc : RCONClient.t) : Z :=
  if (RCONClient.Timeout rc <=? 0)%Z then defaultReadTimeout
  else RCONClient.Timeout rc.

Definition atoi (s : string) : Z := fst (Strconv.Atoi s).

Definition boolSafe (s : string) : bool :=
  let v := Strings.TrimSpace s in
  String.eqb v "1" || Strings.EqualFold v "true".

(** [ReplaceAllString] of the expression: a caret followed by an ASCII
    letter or digit is removed, the scan resuming after it. *)
Fixpoint stripColorCodes (s : string) : string :=
  match s with
  | EmptyString => EmptyString
  | String a s1 =>
      match s1 with
      | String b s2 =>
          if Ascii.eqb a caret && isAlnum b then stripColorCodes s2
          else String a (stripColorCodes s1)
      | EmptyString => String a EmptyString
      end
  end.

(* ===================================================================== *)
(** ** commands.go *)
(* ===================================================================== *)

Definition errNotEstablished : error :=
  ErrorString "RCON connection is not established".

(** [fmt.Errorf] of the format: no response received for command %q. *)
Definition errNoResponse (cmd : string) : error :=
  ErrorQuoted "no response received for command" cmd.

(** [time.Duration(i+1) * 150 * time.Millisecond]. *)
Definition backoff (i : Z) : Z := ((i + 1) * 150 * Millisecond)%Z.

Definition backoffUnlessLast (i : Z) (s : commandSettings) (w : Net.net) : Net.net :=
  if (i <? retries s)%Z then Net.sleep (backoff i) w else w.

(** What follows the loop of [SendCommand]. *)
Definition exhausted (s : commandSettings) (cmd : string) (lerr : option error)
           (w : Net.net) : (list string * option error) * Net.net :=
  if requireSuccess s then
    match lerr with
    | Some e => (([], Some e), w)
    | None => (([], Some (errNoResponse cmd)), w)
    end
  else (([], lerr), w).

(** The loop of [SendCommand], [n] turns from index [i] on. *)
Fixpoint sendLoop (rc : RCONClient.t) (s : commandSettings) (cmd packet : string)
         (n : nat) (i : Z) (lerr : option error) (w : Net.net)
  : (list string * option error) * Net.net :=
  match n with
  | O => exhausted s cmd lerr w
  | S n' =>
      match Net.connWrite packet w with
      | (Some err, w1) =>
          sendLoop rc s cmd packet n' (i + 1)%Z (Some err) (backoffUnlessLast i s w1)
      | (None, w1) =>
          let '((res, err), w2) :=
            readResponse rc (readTimeout s) (readExtension s) w1 in
          if (0 <? List.length res)%nat then ((res, None), w2)
          else
            match err with
            | None =>
                if negb (requireSuccess s) then ((res, None), w2)
                else sendLoop rc s cmd packet n' (i + 1)%Z lerr
                              (backoffUnlessLast i s w2)
            | Some e =>
                if isTimeout e then
                  if negb (requireSuccess s) then (([], None), w2)
                  else sendLoop rc s cmd packet n' (i + 1)%Z (Some e)
                                (backoffUnlessLast i s w2)
                else (([], Some e), w2)
            end
      end
  end.

Definition defaultSettings (rc : RCONClient.t) : commandSettings :=
  mkSettings 3 (timeoutOrDefault rc) defaultReadExtension false.

Definition applyOptions (opts : list commandOption) (s : commandSettings)
  : commandSettings :=
  fold_left (fun s opt => opt s) opts s.

Definition rconPacket (rc : RCONClient.t) (cmd : string) (args : option string)
  : string :=
  let payload :=
    match args with
    | Some a =>
        if negb (isEmpty (Strings.TrimSpace a)) then
          "rcon " ++ RCONClient.Password rc ++ " " ++ Strings.TrimSpace cmd
                  ++ " " ++ Strings.TrimSpace a
        else "rcon " ++ RCONClient.Password rc ++ " " ++ Strings.TrimSpace cmd
    | None => "rcon " ++ RCONClient.Password rc ++ " " ++ Strings.TrimSpace cmd
    end in
  sentinel ++ payload ++ LF.

Definition SendCommand (rc : RCONClient.t) (cmd : string) (args : option string)
           (opts : list commandOption) (w : Net.net)
  : (list string * option error) * Net.net :=
  match RCONClient.Conn rc with
  | None => (([], Some errNotEstablished), w)
  | Some _ =>
      let s := applyOptions opts (defaultSettings rc) in
      sendLoop rc s cmd (rconPacket rc cmd args) (Z.to_nat (retries s + 1)) 0 None w
  end.

(** *** Status *)

Import Regexp.

(** (?i)^num\s+score\s+ping *)
Definition headerRx : regex :=
  seq [Bol; literal true "num"; plus space; literal true "score"; plus space;
       literal true "ping"].

(** The row pattern of [Status]: num, score, an optional word (bot), ping
    (digits or LOAD), guid (hexadecimal), name (lazy), lastmsg, ipport,
    qport and rate, separated by white space. *)
Definition pattern : regex :=
  seq [Group "num" (plus digit); plus space;
       Group "score" (Seq (Opt (lit "-")) (plus digit)); plus space;
       Opt (Group "bot" (plus word)); star space;
       Group "ping" (Alt (plus digit) (literal false "LOAD")); plus space;
       Group "guid" (plus hex); plus space;
       Group "name" (plusLazy dot); plus space;
       Group "lastmsg" (plus digit); plus space;
       Group "ipport" (plus nonSpace); plus space;
       Group "qport" (plus digit); plus space;
       Group "rate" (plus digit)].

(** The first line that starts with map: gives the map name. *)
Fixpoint statusMap (res : list string) : string :=
  match res with
  | [] => EmptyString
  | line :: rest =>
      let line := Strings.TrimSpace line in
      if Strings.HasPrefix (Strings.ToLower line) "map:" then
        match Strings.SplitN2 line ":" with
        | [_; after] => Strings.TrimSpace after
        | _ => EmptyString
        end
      else statusMap rest
  end.

(** The index after the header line; 0 when there is none. *)
Fixpoint statusStart (res : list string) (i : nat) : nat :=
  match res with
  | [] => 0
  | line :: rest =>
      if MatchString headerRx (Strings.TrimSpace line) then S i
      else statusStart rest (S i)
  end.

Definition firstByteIsDigit (line : string) : bool :=
  match line with
  | String c _ => isDigit c
  | EmptyString => false
  end.

Definition playerOfMatch (m : captures) : Player.t :=
  let ipport := group m "ipport" in
  let '(ip, portStr, _) := Strings.Cut ipport ":" in
  let port := fst (Strconv.Atoi portStr) in
  let pingStr := group m "ping" in
  let ping :=
    if negb (String.eqb pingStr "LOAD") then
      match Strconv.Atoi pingStr with
      | (val, true) => PingInt val
      | (_, false) => PingString pingStr
      end
    else PingString pingStr in
  Player.mk (atoi (group m "num")) (group m "name") ping
            (atoi (group m "score")) ip port (atoi (group m "qport"))
            (group m "guid") (atoi (group m "lastmsg")) (atoi (group m "rate")).

Fixpoint statusPlayers (lines : list string) : list Player.t :=
  match lines with
  | [] => []
  | line :: rest =>
      let line := Strings.TrimSpace line in
      if isEmpty line then statusPlayers rest
      else if negb (firstByteIsDigit line) then statusPlayers rest
      else
        match FindStringSubmatch pattern line with
        | None => statusPlayers rest
        | Some m => playerOfMatch m :: statusPlayers rest
        end
  end.

Definition Status (rc : RCONClient.t) (w : Net.net)
  : (option ServerStatus.t * option error) * Net.net :=
  let '((res, err), w1) :=
    SendCommand rc "status" None [requireResponse; withReadExtension Second] w in
  match err with
  | Some e => ((None, Some e), w1)
  | None =>
      let players := statusPlayers (List.skipn (statusStart res 0) res) in
      ((Some (ServerStatus.mk (statusMap res) players res (Net.clock w1)), None), w1)
  end.

(** *** Say *)

Definition Say (rc : RCONClient.t) (message : string) (w : Net.net)
  : option error * Net.net :=
  if isEmpty message then (Some (ErrorString "message cannot be empty"), w)
  else
    let '((_, err), w1) := SendCommand rc "say" (Some message) [] w in
    (err, w1).

(** *** Tell, Kick and SetDvar *)

Definition Tell (rc : RCONClient.t) (clientNum : Z) (message : string)
           (w : Net.net) : option error * Net.net :=
  if isEmpty message then (Some (ErrorString "message cannot be empty"), w)
  else
    let arg := Fmt.formatInt clientNum ++ " [^5Gambling^7] " ++ message in
    let '((_, err), w1) := SendCommand rc "tell" (Some arg) [] w in
    (err, w1).

Definition Kick (rc : RCONClient.t) (player reason : string) (w : Net.net)
  : option error * Net.net :=
  if isEmpty player || isEmpty reason then
    (Some (ErrorString "player and reason cannot be empty"), w)
  else
    let cmd := player ++ " '" ++ reason ++ "'" in
    let '((_, err), w1) := SendCommand rc "clientkick_for_reason" (Some cmd) [] w in
    (err, w1).

(** The characters that make [SetDvar] quote a value: space, tab and the
    double quote. *)
Definition quoteTriggers : string :=
  String " " (String "009" (String dquote EmptyString)).

(** The value as [SetDvar] sends it: between double quotes, with a
    backslash before every double quote of its own, when it holds a
    space, a tab or a double quote; as it is otherwise. *)
Definition dvarValue (value : string) : string :=
  if Strings.ContainsAny value quoteTriggers then
    String dquote
           (Strings.ReplaceAll value (String dquote EmptyString)
                               (String backslash (String dquote EmptyString))
            ++ String dquote EmptyString)
  else value.

Definition SetDvar (rc : RCONClient.t) (dvar value : string) (w : Net.net)
  : option error * Net.net :=
  if isEmpty dvar || isEmpty value then
    (Some (ErrorString "dvar and value cannot be empty"), w)
  else
    let cmd := dvar ++ " " ++ dvarValue value in
    let '((_, err), w1) := SendCommand rc "set" (Some cmd) [] w in
    (err, w1).

(** *** GetDvar *)

(** (?i)^NAME\s+is:\s+ then an optional quote, the group val (lazy), an
    optional quote, and a white space or the end of the text.  NAME is the
    trimmed dvar taken literally ([regexp.QuoteMeta]).  The model is that
    of a name of ASCII bytes: letters outside ASCII are folded by Go
    through the Unicode tables, and a name that is not valid UTF-8 makes
    [regexp.MustCompile] panic. *)
Definition dvarRx1 (name : string) : regex :=
  seq [Bol; literal true name; plus space; literal true "is:"; plus space;
       Opt (lit dquote); Group "val" (starLazy dot); Opt (lit dquote);
       Alt (Byte space) Eol].

(** (?i)^NAME\s*[:=]\s* then an optional quote, the group val (lazy), an
    optional quote, and the end of the text. *)
Definition dvarRx2 (name : string) : regex :=
  seq [Bol; literal true name; star space;
       Byte (fun a => Ascii.eqb a ":" || Ascii.eqb a "="); star space;
       Opt (lit dquote); Group "val" (starLazy dot); Opt (lit dquote); Eol].

Definition maxAttempts : Z := 3.

Definition pollution : string := "sv_iw4madmin_in".

(** The first loop over the lines of one response: the value when a
    pattern matches ([inl]), otherwise the fallback kept so far ([inr]). *)
Fixpoint scanLines (rx1 rx2 : regex) (res : list string) (lastClean : string)
  : string + string :=
  match res with
  | [] => inr lastClean
  | line :: rest =>
      let clean := Strings.TrimSpace (stripColorCodes line) in
      if isEmpty clean then scanLines rx1 rx2 rest lastClean
      else
        match FindStringSubmatch rx1 clean with
        | Some m => inl (stripColorCodes (group m "val"))
        | None =>
            match FindStringSubmatch rx2 clean with
            | Some m => inl (stripColorCodes (group m "val"))
            | None =>
                if negb (Strings.Contains (Strings.ToLower clean) pollution)
                then scanLines rx1 rx2 rest
                               (if isEmpty lastClean then clean else lastClean)
                else scanLines rx1 rx2 rest lastClean
            end
        end
  end.

(** The second loop over the lines: is the pollution token in any. *)
Definition needRetry (res : list string) : bool :=
  existsb (fun line => Strings.Contains (Strings.ToLower line) pollution) res.

(** What follows the loop of [GetDvar]. *)
Definition dvarResult (dvar lastClean : string) : string * option error :=
  if negb (isEmpty lastClean) then (lastClean, None)
  else (EmptyString, Some (ErrorQuoted "empty dvar response for" dvar)).

(** The loop of [GetDvar], [n] turns from index [attempt] on. *)
Fixpoint dvarLoop (rc : RCONClient.t) (dvar : string) (rx1 rx2 : regex)
         (n : nat) (attempt : Z) (lastClean : string) (w : Net.net)
  : (string * option error) * Net.net :=
  match n with
  | O => (dvarResult dvar lastClean, w)
  | S n' =>
      let '((res, err), w1) := SendCommand rc dvar None [requireResponse] w in
      match err with
      | Some e => ((EmptyString, Some e), w1)
      | None =>
          match scanLines rx1 rx2 res lastClean with
          | inl val => ((val, None), w1)
          | inr lastClean' =>
              if negb (needRetry res) then (dvarResult dvar lastClean', w1)
              else dvarLoop rc dvar rx1 rx2 n' (attempt + 1)%Z lastClean'
                            (Net.sleep (backoff attempt) w1)
          end
      end
  end.

(** [GetDvar], for a name from which the two expressions compile to
    [dvarRx1] and [dvarRx2]: a name of ASCII bytes.  For a name that is
    not valid UTF-8, [regexp.MustCompile] panics before the first query;
    this path has no counterpart here, and the statements about
    [GetDvar] that depend on it assume an ASCII name. *)
Definition GetDvar (rc : RCONClient.t) (dvar : string) (w : Net.net)
  : (string * option error) * Net.net :=
  if isEmpty dvar then ((EmptyString, Some (ErrorString "dvar cannot be empty")), w)
  else
    let name := Strings.TrimSpace dvar in
    dvarLoop rc dvar (dvarRx1 name) (dvarRx2 name) (Z.to_nat maxAttempts) 0
             EmptyString w.

(** *** GetInfo and GetStatus *)

Definition queryPacket (query : string) : string := sentinel ++ query ++ LF.

(** The lines that carry a backslash, joined, the banner line left out;
    the last line when there is none. *)
Definition dataLineOf (banner : string) (lines : list string) : string :=
  let dataLine :=
    fold_left
      (fun dataLine l =>
         let t := Strings.TrimSpace l in
         if Strings.EqualFold t banner then dataLine
         else if Strings.HasPrefix t "\" || Strings.Contains t "\"
              then (if isEmpty dataLine then t else dataLine ++ t)
              else dataLine)
      lines EmptyString in
  if isEmpty dataLine then Strings.TrimSpace (List.last lines EmptyString)
  else dataLine.

(** The loop [for i := 0; i < len(parts)-1; i += 2] that fills the map. *)
Fixpoint kvLoop (fuel : nat) (parts : list string) (i : nat)
         (kv : gmap string string) : gmap string string :=
  match fuel with
  | O => kv
  | S fuel' =>
      if (Z.of_nat i <? Z.of_nat (List.length parts) - 1)%Z then
        let key := Strings.TrimSpace (List.nth i parts EmptyString) in
        let val := Strings.TrimSpace (List.nth (i + 1) parts EmptyString) in
        if isEmpty key then kvLoop fuel' parts (i + 2) kv
        else kvLoop fuel' parts (i + 2) (<[key := stripColorCodes val]> kv)
      else kv
  end.

Definition dropEmptyHead (parts : list string) : list string :=
  match parts with
  | EmptyString :: rest => rest
  | _ => parts
  end.

(** From the data line to the map: lines 335-347 and 420-432. *)
Definition parseKV (dataLine : string) : gmap string string :=
  let parts := dropEmptyHead (Strings.Split dataLine backslash) in
  kvLoop (List.length parts) parts 0 ∅.

(** [kv[k]]: the empty string for a missing key. *)
Definition kvGet (kv : gmap string string) (k : string) : string :=
  default EmptyString (kv !! k).

(** Lines 349-375. *)
Definition serverInfoOf (kv : gmap string string) (now : Z) : ServerInfo.t :=
  let atoint64Safe := fun k : string =>
    match kv !! k with
    | None => 0%Z
    | Some v => fst (Strconv.ParseInt v)
    end in
  ServerInfo.mk
    (atoint64Safe "netfieldchk")
    (atoi "protocol")
    (atoi "sessionmode")
    (kvGet kv "hostname")
    (kvGet kv "mapname")
    (boolSafe "isInGame")
    (atoi "com_maxclients")
    (kvGet kv "gametype")
    (atoi "hw")
    (boolSafe "mod")
    (boolSafe "voice")
    (kvGet kv "seckey")
    (kvGet kv "secid")
    (kvGet kv "hostaddr")
    now.

(** The exchange shared by [GetInfo] and [GetStatus]: lines 296-315 and
    380-400, with the query and the text of the error for no line. *)
Definition queryLines (rc : RCONClient.t) (query emptyMsg : string) (w : Net.net)
  : (list string * option error) * Net.net :=
  match RCONClient.Conn rc with
  | None => (([], Some errNotEstablished), w)
  | Some _ =>
      match Net.connWrite (queryPacket query) w with
      | (Some err, w1) => (([], Some err), w1)
      | (None, w1) =>
          let '((lines, err), w2) :=
            readResponse rc (timeoutOrDefault rc) defaultReadExtension w1 in
          match err with
          | Some e => (([], Some e), w2)
          | None =>
              if Nat.eqb (List.length lines) 0
              then (([], Some (ErrorString emptyMsg)), w2)
              else ((lines, None), w2)
          end
      end
  end.

Definition GetInfo (rc : RCONClient.t) (w : Net.net)
  : (option ServerInfo.t * option error) * Net.net :=
  let '((lines, err), w1) := queryLines rc "getinfo" "empty infoResponse" w in
  match err with
  | Some e => ((None, Some e), w1)
  | None =>
      let kv := parseKV (dataLineOf "inforesponse" lines) in
      ((Some (serverInfoOf kv (Net.clock w1)), None), w1)
  end.

(** Lines 434-465. *)
Definition serverStatusInfoOf (kv : gmap string string) (now : Z)
  : ServerStatusInfo.t :=
  ServerStatusInfo.mk
    (atoi "com_maxclients")
    (kvGet kv "g_gametype")
    (atoi "g_randomSeed")
    (kvGet kv "gamename")
    (kvGet kv "mapname")
    (boolSafe "playlist_enabled")
    (atoi "playlist_entry")
    (atoi "protocol")
    (atoi "scr_team_fftype")
    (boolSafe "shortversion")
    (boolSafe "sv_allowAimAssist")
    (boolSafe "sv_allowAnonymous")
    (atoi "sv_clientFpsLimit")
    (boolSafe "sv_disableClientConsole")
    (kvGet kv "sv_hostname")
    (atoi "sv_maxclients")
    (atoi "sv_maxPing")
    (atoi "sv_minPing")
    (boolSafe "sv_patch_dsr50")
    (atoi "sv_privateClients")
    (match kv !! "sv_privateClientsForClients" with
     | Some v => fst (Strconv.Atoi v)
     | None => atoi "sv_privateClientsForUsers"
     end)
    (boolSafe "sv_pure")
    (boolSafe "sv_voice")
    (boolSafe "pswrd")
    (boolSafe "mod")
    now.

Definition GetStatus (rc : RCONClient.t) (w : Net.net)
  : (option ServerStatusInfo.t * option error) * Net.net :=
  let '((lines, err), w1) := queryLines rc "getstatus" "empty statusResponse" w in
  match err with
  | Some e => ((None, Some e), w1)
  | None =>
      let kv := parseKV (dataLineOf "statusresponse" lines) in
      ((Some (serverStatusInfoOf kv (Net.clock w1)), None), w1)
  end.

(* ===================================================================== *)
(** ** Vocabulary of the statements *)
(* ===================================================================== *)

(** The options the package defines.  The type [commandOption] and the
    fields of [commandSettings] are not exported, so no other option can
    reach [SendCommand]. *)
Definition packageOption (opt : commandOption) : Prop :=
  opt = requireResponse \/ exists d, opt = withReadExtension d.

(** How one turn of the loop of [SendCommand] ends. *)
Inductive outcome : Type :=
| WriteFailed (e : error)
| TimedOut (e : error)
| Broken (e : error)
| NoLines
| Lines (res : list string).

(** One turn observed: the write, and the accumulation when the write
    went through. *)
Definition attempt (rc : RCONClient.t) (s : commandSettings) (packet : string)
           (w : Net.net) : outcome * Net.net :=
  match Net.connWrite packet w with
  | (Some e, w1) => (WriteFailed e, w1)
  | (None, w1) =>
      let '((res, err), w2) :=
        readResponse rc (readTimeout s) (readExtension s) w1 in
      (if (0 <? List.length res)%nat then Lines res
       else match err with
            | None => NoLines
            | Some e => if isTimeout e then TimedOut e else Broken e
            end,
       w2)
  end.

(** [n] turns from index [i] on, each followed by the pause the loop
    makes before the next one. *)
Fixpoint attempts (rc : RCONClient.t) (s : commandSettings) (packet : string)
         (n : nat) (i : Z) (w : Net.net) : list outcome * Net.net :=
  match n with
  | O => ([], w)
  | S n' =>
      let '(o, w1) := attempt rc s packet w in
      let '(os, w2) :=
        attempts rc s packet n' (i + 1)%Z (backoffUnlessLast i s w1) in
      (o :: os, w2)
  end.

(** A turn that neither yields lines nor breaks the call off. *)
Definition fruitless (o : outcome) : bool :=
  match o with
  | WriteFailed _ | TimedOut _ | NoLines => true
  | Broken _ | Lines _ => false
  end.

Definition yieldsLines (o : outcome) : bool :=
  match o with
  | Lines _ => true
  | _ => false
  end.

(** The error the loop remembers: that of the last failed write or
    timed-out accumulation. *)
Fixpoint remembered (lerr : option error) (os : list outcome) : option error :=
  match os with
  | [] => lerr
  | WriteFailed e :: os' => remembered (Some e) os'
  | TimedOut e :: os' => remembered (Some e) os'
  | _ :: os' => remembered lerr os'
  end.

(** The queries of [GetDvar] observed: [n] calls of [SendCommand] that all
    return lines, with the pause of [GetDvar] between two calls. *)
Fixpoint dvarQueries (rc : RCONClient.t) (dvar : string) (n : nat) (attempt : Z)
         (w : Net.net) : option (list (list string) * Net.net) :=
  match n with
  | O => Some ([], w)
  | S n' =>
      match SendCommand rc dvar None [requireResponse] w with
      | ((res, None), w1) =>
          match n' with
          | O => Some ([res], w1)
          | S _ =>
              match dvarQueries rc dvar n' (attempt + 1)%Z
                                (Net.sleep (backoff attempt) w1) with
              | Some (rs, w2) => Some (res :: rs, w2)
              | None => None
              end
          end
      | ((_, Some _), _) => None
      end
  end.

(** A line as [GetDvar] looks at it. *)
Definition cleaned (line : string) : string :=
  Strings.TrimSpace (stripColorCodes line).

Definition unmatched (rx1 rx2 : regex) (line : string) : bool :=
  isEmpty (cleaned line)
  || match FindStringSubmatch rx1 (cleaned line),
           FindStringSubmatch rx2 (cleaned line) with
     | None, None => true
     | _, _ => false
     end.

(** A line fit to be the fallback: not empty once cleaned, and without
    the pollution token. *)
Definition candidate (line : string) : bool :=
  negb (isEmpty (cleaned line))
  && negb (Strings.Contains (Strings.ToLower (cleaned line)) pollution).

(** The first candidate among the lines, cleaned; empty when there is
    none. *)
Fixpoint firstCandidate (lines : list string) : string :=
  match lines with
  | [] => EmptyString
  | line :: rest => if candidate line then cleaned line else firstCandidate rest
  end.

(** The pairs of a list taken two by two; an element left alone at the
    end is dropped. *)
Fixpoint pairUp (parts : list string) : list (string * string) :=
  match parts with
  | k :: v :: rest => (k, v) :: pairUp rest
  | _ => []
  end.

(** Storing one pair: under the trimmed key, unless it is empty, the
    trimmed value without its colour codes. *)
Definition storePair (kv : gmap string string) (p : string * string)
  : gmap string string :=
  let key := Strings.TrimSpace (fst p) in
  if isEmpty key then kv
  else <[key := stripColorCodes (Strings.TrimSpace (snd p))]> kv.

(** A run of leading markers: sentinels and print lines in any order. *)
Fixpoint markers (ms : list string) : string :=
  match ms with
  | [] => EmptyString
  | m :: ms' => m ++ markers ms'
  end.

Definition isMarker (m : string) : Prop := m = sentinel \/ m = printLF.

(** *** Inputs of the examples *)

Definition allResolve : resolver := mkResolver (fun _ => true) true.

Definition client : RCONClient.t :=
  RCONClient.mk "127.0.0.1" 28960 "secret" defaultReadTimeout
                (Some ("127.0.0.1", 28960%Z)).

(** An open socket whose writes go through and whose peer sends [evs]. *)
Definition peer (evs : list Net.readEvent) : Net.net :=
  Net.mkNet false [] evs [] 0.

Definition reply (lines : list string) : Net.readEvent :=
  Net.Datagram (sentinel ++ printLF ++ fold_right (fun l acc => l ++ LF ++ acc) EmptyString lines).

Definition deadline : Net.readEvent := Net.ReadFails Net.errDeadline.

Definition statusRow : string :=
  "0 0 bot LOAD abc123 PlayerOne 0 1.2.3.4:1234 5678 5000".

Definition infoLine : string := "\hostname\My Server\mapname\mp_nuketown\".

(** The same block with colour codes in the host name. *)
Definition colouredInfoLine : string :=
  "\hostname\^1My ^7Server\mapname\mp_nuketown\".

Definition nuketown : string :=
  sentinel ++ printLF ++ "map: mp_nuketown" ++ LF ++ sentinel ++ printLF
           ++ "num score ping...".

(** One step of the scan that replaces [old] by a line feed, as the
    statements describe it: at an occurrence the line feed is written and
    the scan resumes after the occurrence; elsewhere the byte is kept. *)
Definition collapseStep (old : string) (a : ascii) (s : string) : string :=
  if Strings.HasPrefix (String a s) old
  then LF ++ Strings.ReplaceAll (drop (String.length old) (String a s)) old LF
  else String a (Strings.ReplaceAll s old LF).

(** The fallback of [GetDvar] after some lines: the one kept before, or
    else their first candidate. *)
Definition keep (lastClean : string) (lines : list string) : string :=
  if isEmpty lastClean then firstCandidate lines else lastClean.

(** The errors of [New]. *)
Definition errEmptyPassword : error := ErrorString "RCON password cannot be empty".
Definition errInvalidPort : error := ErrorString "invalid port number".
Definition errResolve : error := ErrorString "failed to resolve UDP address".

(* ===================================================================== *)
(** ** Vocabulary of the further properties *)
(* ===================================================================== *)

(** What [SendCommand] returns for the turn that ends its loop early. *)
Definition verdict (o : outcome) : list string * option error :=
  match o with
  | Lines res => (res, None)
  | Broken e => ([], Some e)
  | _ => ([], None)
  end.

Definition isWriteFailed (o : outcome) : bool :=
  match o with
  | WriteFailed _ => true
  | _ => false
  end.

(** The pauses of a call of [SendCommand] that makes [k] writes. *)
Definition pauses (k : nat) : list Z :=
  firstn (k - 1) [(150 * Millisecond)%Z; (300 * Millisecond)%Z; (450 * Millisecond)%Z].

(** The pauses of [n] turns of the loop of [SendCommand] from turn [i]
    on that all go on to the next turn. *)
Fixpoint pausedTurns (s : commandSettings) (n : nat) (i : Z) : list Z :=
  match n with
  | O => []
  | S n' =>
      ((if (i <? retries s)%Z then [backoff i] else [])
         ++ pausedTurns s n' (i + 1)%Z)%list
  end.

Definition refused : error := OpError false "write: connection refused".

(** A line that carries the pollution token, in any letter case. *)
Definition carriesToken (line : string) : bool :=
  Strings.Contains (Strings.ToLower line) "sv_iw4madmin_in".

(** An answer of which a line carries the token. *)
Definition polluted (res : list string) : bool := existsb carriesToken res.

(** The socket [w] after the client did [evs] and paused for [d] in all,
    with nothing read and the state of the socket as it was. *)
Definition after (evs : list Net.event) (d : Z) (w : Net.net) : Net.net :=
  Net.mkNet (Net.closed w) (Net.writes w) (Net.reads w)
            (Net.trace w ++ evs) (Net.clock w + d).

(** Four writes of [packet] and the pauses between them: what a call of
    [SendCommand] does when every write fails. *)
Definition fourWrites (packet : string) : list Net.event :=
  [Net.Wrote packet; Net.Slept (150 * Millisecond);
   Net.Wrote packet; Net.Slept (300 * Millisecond);
   Net.Wrote packet; Net.Slept (450 * Millisecond);
   Net.Wrote packet].

(** What the read loop keeps of a datagram: the bytes that fit the
    buffer handed to [Read]. *)
Definition kept (payload : string) : string :=
  String.substring 0 readBufferSize payload.

(** The buffer after the datagrams [payloads]. *)
Fixpoint received (payloads : list string) : string :=
  match payloads with
  | [] => EmptyString
  | p :: rest => kept p ++ received rest
  end.

(** A line as [splitNonEmptyLines] hands it out: not empty, without a
    line feed, and with no white space around it. *)
Definition cleanLine (l : string) : Prop :=
  l <> EmptyString /\ hasByte l nl = false /\ Strings.TrimSpace l = l.

(** Lines written one after the other, each ended by a line feed. *)
Fixpoint joinLines (ls : list string) : string :=
  match ls with
  | [] => EmptyString
  | l :: rest => l ++ LF ++ joinLines rest
  end.

(** A text with colour codes: a caret, the byte of the code and a text
    for each segment. *)
Fixpoint coloured (segs : list (ascii * string)) : string :=
  match segs with
  | [] => EmptyString
  | (c, t) :: rest => String caret (String c (t ++ coloured rest))
  end.

(** The texts of the segments, one after the other. *)
Fixpoint texts (segs : list (ascii * string)) : string :=
  match segs with
  | [] => EmptyString
  | (_, t) :: rest => t ++ texts rest
  end.

Definition colourSegment (seg : ascii * string) : Prop :=
  isAlnum (fst seg) = true /\ hasByte (snd seg) caret = false.

(** The key/value block a server sends for the pairs: a backslash before
    every key and every value. *)
Fixpoint encodeKV (pairs : list (string * string)) : string :=
  match pairs with
  | [] => EmptyString
  | (k, v) :: rest =>
      String backslash (k ++ String backslash (v ++ encodeKV rest))
  end.

(** A pair the block carries unchanged: no backslash and no white space
    around the key and the value, a key that is not empty, and a value
    without caret. *)
Definition cleanPair (p : string * string) : Prop :=
  fst p <> EmptyString
  /\ hasByte (fst p) backslash = false /\ Strings.TrimSpace (fst p) = fst p
  /\ hasByte (snd p) backslash = false /\ Strings.TrimSpace (snd p) = snd p
  /\ hasByte (snd p) caret = false.

(** The pairs stored in order, a later pair replacing an earlier one of
    the same key. *)
Definition stored (pairs : list (string * string)) : gmap string string :=
  fold_left (fun kv p => <[fst p := snd p]> kv) pairs ∅.

(** A read that does not break the call off: a datagram, or a read that
    ends at its deadline. *)
Definition quietRead (ev : Net.readEvent) : bool :=
  match ev with
  | Net.Datagram _ => true
  | Net.ReadFails e => isTimeout e
  | Net.DeadlineFails _ => false
  end.

(** A socket in working order: open, every write goes through, and no
    read fails but at its deadline.  What the peer sends is free. *)
Definition healthy (w : Net.net) : bool :=
  negb (Net.closed w)
  && forallb (fun r : option error => match r with None => true | Some _ => false end)
             (Net.writes w)
  && forallb quietRead (Net.reads w).

(** Is there a double quote in [s] with no backslash right before it;
    [escaped] tells whether a backslash comes right before [s]. *)
Fixpoint hasBareQuote (escaped : bool) (s : string) : bool :=
  match s with
  | EmptyString => false
  | String a s' =>
      (Ascii.eqb a dquote && negb escaped)
      || hasBareQuote (Ascii.eqb a backslash) s'
  end.

Definition quote : string := String dquote EmptyString.
Definition escapedQuote : string := String backslash (String dquote EmptyString).

Definition isASCII (a : ascii) : bool := (code a <? 128)%N.

(** A byte of a value that the first pattern of [GetDvar] takes whole:
    no white space and no double quote. *)
Definition valueByte (a : ascii) : bool :=
  negb (space a) && negb (Ascii.eqb a dquote).

(** What may follow the value on its line: nothing, white space, or a
    double quote followed by nothing or by white space. *)
Definition valueEnd (tail : string) : bool :=
  match tail with
  | EmptyString => true
  | String a t =>
      space a
      || (Ascii.eqb a dquote
          && match t with
             | EmptyString => true
             | String b _ => space b
             end)
  end.

(** The pause before the query that follows [n] answers. *)
Definition beforeQuery (n : nat) (w wn : Net.net) : Net.net :=
  match n with
  | O => w
  | S _ => Net.sleep (Z.of_nat n * 150 * Millisecond) wn
  end.

(** No white space at the head of [s]: what makes [TrimSpace] leave the
    left end alone. *)
Definition headPlain (s : string) : bool :=
  match s with
  | EmptyString => true
  | String a s1 =>
      negb (Strings.asciiSpace a)
      && match s1 with
         | EmptyString => true
         | String b s2 =>
             negb (Strings.space2 a b)
             && match s2 with
                | EmptyString => true
                | String c _ => negb (Strings.space3 a b c)
                end
         end
  end.

(** The same for the right end, on the reversed text. *)
Definition headPlainRev (s : string) : bool :=
  match s with
  | EmptyString => true
  | String a s1 =>
      negb (Strings.asciiSpace a)
      && match s1 with
         | EmptyString => true
         | String b s2 =>
             negb (Strings.space2 b a)
             && match s2 with
                | EmptyString => true
                | String c _ => negb (Strings.space3 c b a)
                end
         end
  end.

(** A line a server can send in a frame and get back as it is: a clean
    line without carriage return that does not start with the sentinel
    and is not the word print. *)
Definition wireLine (l : string) : Prop :=
  cleanLine l /\ hasByte l cr = false
  /\ Strings.HasPrefix l sentinel = false /\ l <> "print".

(** One datagram of the answer to a command: the sentinel, the print
    line, and lines that each end with a line feed. *)
Definition frame (ls : list string) : string :=
  sentinel ++ printLF ++ joinLines ls.

(** The frames one after the other, each with [mark] before its lines. *)
Fixpoint tailFrames (mark : string) (fs : list (list string)) : string :=
  match fs with
  | [] => EmptyString
  | ls :: rest => mark ++ joinLines ls ++ tailFrames mark rest
  end.

(** A frame that carries a line at least, fits the read buffer, and
    whose lines are wire lines. *)
Definition goodFrame (ls : list string) : Prop :=
  ls <> [] /\ Forall wireLine ls
  /\ (String.length (frame ls) <= readBufferSize)%nat.

(** A pair the server can send in a key/value block and get decoded as
    it is: a clean pair without line feed and carriage return. *)
Definition wirePair (p : string * string) : Prop :=
  cleanPair p
  /\ hasByte (fst p) nl = false /\ hasByte (snd p) nl = false
  /\ hasByte (fst p) cr = false /\ hasByte (snd p) cr = false.

(** The next write on the socket goes through. *)
Definition writeGoesThrough (w : Net.net) : bool :=
  negb (Net.closed w)
  && match Net.writes w with
     | Some _ :: _ => false
     | _ => true
     end.

(** The datagram that answers getinfo or getstatus: the sentinel, the
    banner line and the key/value block. *)
Definition answer (banner : string) (pairs : list (string * string)) : string :=
  sentinel ++ banner ++ LF ++ encodeKV pairs.

(** A byte of a value that the second pattern of [GetDvar] takes whole:
    no line feed and no double quote. *)
Definition plainValueByte (a : ascii) : bool :=
  dot a && negb (Ascii.eqb a dquote).

(** The separator of the second pattern: a colon or an equals sign. *)
Definition isSeparator (a : ascii) : bool :=
  Ascii.eqb a ":" || Ascii.eqb a "=".

(** No line of [res] is the header of the status table. *)
Definition noHeader (res : list string) : bool :=
  forallb (fun l => negb (MatchString headerRx (Strings.TrimSpace l))) res.

(** A line that starts with map: in any case. *)
Definition isMapLine (l : string) : bool :=
  Strings.HasPrefix (Strings.ToLower l) "map:".

(** A hexadecimal digit that is a letter. *)
Definition hexLetter (a : ascii) : bool := between 97 102 a || between 65 70 a.

(** A field made of bytes of one class, one at least. *)
Definition field (p : ascii -> bool) (s : string) : bool :=
  negb (isEmpty s) && allBytes p s.

(** The groups of the row pattern after a match, the latest first. *)
Definition rowGroups (num score bot ping guid name lastmsg ipport qport rate : string)
  : captures :=
  [("rate", rate); ("qport", qport); ("ipport", ipport); ("lastmsg", lastmsg);
   ("name", name); ("guid", guid); ("ping", ping); ("bot", bot);
   ("score", score); ("num", num)].

(** The fields after the ping on a row, a space before each. *)
Definition rowTail (guid name lastmsg ipport qport rate : string) : string :=
  " " ++ guid ++ " " ++ name ++ " " ++ lastmsg ++ " " ++ ipport ++ " " ++ qport
      ++ " " ++ rate.

(** The player a row stands for, read field by field; [ping] is a
    number. *)
Definition rowPlayer (num score ping guid name lastmsg ipport qport rate : string)
  : Player.t :=
  Player.mk (atoi num) name
            (match Strconv.Atoi ping with
             | (val, true) => PingInt val
             | (_, false) => PingString ping
             end)
            (atoi score)
            (fst (fst (Strings.Cut ipport ":")))
            (fst (Strconv.Atoi (snd (fst (Strings.Cut ipport ":")))))
            (atoi qport) guid (atoi lastmsg) (atoi rate).

(* ===================================================================== *)
(** ** The library models on small inputs *)
(* ===================================================================== *)

Example TrimSpace_ascii : Strings.TrimSpace "  a b  " = "a b".
Proof. reflexivity. Qed.

Example TrimSpace_keeps_sentinel :
  Strings.TrimSpace (" " ++ sentinel ++ " ") = sentinel.
Proof. reflexivity. Qed.

Example EqualFold_true : Strings.EqualFold "TRUE" "true" = true.
Proof. reflexivity. Qed.

Example Atoi_negative : Strconv.Atoi "-1" = ((-1)%Z, true).
Proof. reflexivity. Qed.

Example Atoi_word : Strconv.Atoi "protocol" = (0%Z, false).
Proof. reflexivity. Qed.

Example Atoi_range : Strconv.Atoi "9223372036854775808" = (Strconv.maxInt, false).
Proof. reflexivity. Qed.

Example Atoi_overflow_hides_syntax :
  Strconv.Atoi "99999999999999999999:1" = (Strconv.maxInt, false)
  /\ Strconv.Atoi "-99999999999999999999x" = (Strconv.minInt, false)
  /\ Strconv.Atoi "9223372036854775808x" = (0%Z, false).
Proof. repeat split. Qed.

Example ReplaceAll_overlap : Strings.ReplaceAll "xaaax" "aa" "b" = "xbax".
Proof. reflexivity. Qed.

Example stripColorCodes_name : stripColorCodes "^1Red^7Player" = "RedPlayer".
Proof. reflexivity. Qed.

Example Say_is_fire_and_forget : fst (Say client "hello" (peer [])) = None.
Proof. reflexivity. Qed.

(** Digits that leave the range of [int] before a byte that is not a
    digit: the port of a row and the field netfieldchk get the bound. *)
Example Status_port_out_of_range :
  map Player.Port
      (statusPlayers ["0 0 bot 50 abc123 P 0 10.0.0.1:99999999999999999999:1 5678 5000"])
  = [Strconv.maxInt].
Proof. vm_compute. reflexivity. Qed.

Example NetFieldChk_out_of_range :
  ServerInfo.NetFieldChk
    (serverInfoOf (parseKV "\netfieldchk\99999999999999999999x") 0)
  = Strconv.maxInt.
Proof. vm_compute. reflexivity. Qed.
(* ===================================================================== *)
(** ** Byte strings: auxiliary facts *)
(* ===================================================================== *)

Section StringFacts.

Lemma append_cons (a : ascii) (s t : string) :
  String a s ++ t = String a (s ++ t).
Proof. reflexivity. Qed.

Lemma prefix_split (p s : string) :
  String.prefix p s = true -> s = p ++ drop (String.length p) s.
Proof.
  revert s; induction p as [|a p IH]; intros s H; [reflexivity|].
  destruct s as [|b s]; [discriminate|].
  simpl in H. destruct (ascii_dec a b) as [->|]; [|discriminate].
  rewrite append_cons. simpl. f_equal. apply IH, H.
Qed.

Lemma prefix_length (p s : string) :
  String.prefix p s = true -> (String.length p <= String.length s)%nat.
Proof.
  revert s; induction p as [|a p IH]; intros s H; simpl; [lia|].
  destruct s as [|b s]; [discriminate|].
  simpl in H. destruct (ascii_dec a b); [|discriminate].
  apply IH in H. simpl. lia.
Qed.

Lemma drop_length (n : nat) (s : string) :
  String.length (drop n s) = (String.length s - n)%nat.
Proof.
  revert s; induction n as [|n IH]; intros [|a s]; simpl; auto with arith.
Qed.

Lemma append_empty_r (s : string) : s ++ "" = s.
Proof. induction s as [|a s IH]; [reflexivity|]. rewrite append_cons; congruence. Qed.

Lemma append_assoc (s t u : string) : (s ++ t) ++ u = s ++ t ++ u.
Proof. induction s as [|a s IH]; [reflexivity|]. rewrite !append_cons; congruence. Qed.

Lemma isEmpty_true (s : string) : isEmpty s = true <-> s = "".
Proof. destruct s; simpl; split; congruence. Qed.

Lemma isEmpty_false (s : string) : isEmpty s = false <-> s <> "".
Proof. destruct s; simpl; split; congruence. Qed.

(** Inside an occurrence being passed over, the scan of [ReplaceAll]
    is the scan that starts after it. *)
Lemma replaceFrom_skip (old new : string) (k : nat) (s : string) :
  Strings.replaceFrom old new k s = Strings.replaceFrom old new 0 (drop k s).
Proof.
  revert k; induction s as [|a s IH]; intros [|k]; try reflexivity.
  simpl. apply IH.
Qed.

(** The scan of [ReplaceAll] for a non-empty [old]: at an occurrence it
    writes [new] and resumes after the occurrence; elsewhere it keeps
    the byte. *)
Lemma ReplaceAll_step (o : ascii) (old' new : string) (a : ascii) (s : string) :
  let old := String o old' in
  Strings.ReplaceAll (String a s) old new =
  if Strings.HasPrefix (String a s) old
  then new ++ Strings.ReplaceAll (drop (String.length old) (String a s)) old new
  else String a (Strings.ReplaceAll s old new).
Proof.
  intros old. unfold Strings.ReplaceAll.
  change (Strings.replaceFrom old new 0 (String a s)) with
    (if Strings.HasPrefix (String a s) old
     then new ++ Strings.replaceFrom old new (String.length old - 1) s
     else String a (Strings.replaceFrom old new 0 s)).
  destruct (Strings.HasPrefix (String a s) old); [|reflexivity].
  rewrite replaceFrom_skip. subst old. simpl. rewrite Nat.sub_0_r. reflexivity.
Qed.

End StringFacts.

(* ===================================================================== *)
(** ** Normalization *)
(* ===================================================================== *)

Section Normalization.

(** With more fuel than bytes, the opening loop of [normalizeRCON]
    stops by itself: what it returns starts with no marker, and what it
    removed is a run of markers. *)
Lemma stripLeading_spec (fuel : nat) (s : string) :
  (String.length s < fuel)%nat ->
  exists ms,
    Forall isMarker ms
    /\ s = markers ms ++ stripLeading fuel s
    /\ Strings.HasPrefix (stripLeading fuel s) sentinel = false
    /\ Strings.HasPrefix (stripLeading fuel s) printLF = false.
Proof.
  revert s; induction fuel as [|fuel IH]; intros s Hlen; [lia|].
  cbn [stripLeading].
  destruct (Strings.HasPrefix s sentinel) eqn:Hs.
  - pose proof (prefix_split _ _ Hs) as Es. change (String.length sentinel) with 4%nat in Es.
    assert (Hd : (String.length (drop 4 s) < fuel)%nat).
    { rewrite drop_length. apply prefix_length in Hs.
      change (String.length sentinel) with 4%nat in Hs. lia. }
    destruct (Strings.HasPrefix (drop 4 s) printLF) eqn:Hp.
    + pose proof (prefix_split _ _ Hp) as Ep. change (String.length printLF) with 6%nat in Ep.
      destruct (IH (drop 6 (drop 4 s))) as (ms & Hms & E & H1 & H2).
      { rewrite drop_length. lia. }
      exists (sentinel :: printLF :: ms). repeat split; auto.
      * constructor; [left; reflexivity|].
        constructor; [right; reflexivity|assumption].
      * cbn [markers]. rewrite !append_assoc, <- E, <- append_assoc.
        rewrite Es at 1. rewrite Ep at 1. rewrite !append_assoc. reflexivity.
    + destruct (IH (drop 4 s) Hd) as (ms & Hms & E & H1 & H2).
      exists (sentinel :: ms). repeat split; auto.
      * constructor; [left; reflexivity|assumption].
      * cbn [markers]. rewrite append_assoc, <- E. exact Es.
  - destruct (Strings.HasPrefix s printLF) eqn:Hp.
    + pose proof (prefix_split _ _ Hp) as Ep. change (String.length printLF) with 6%nat in Ep.
      destruct (IH (drop 6 s)) as (ms & Hms & E & H1 & H2).
      { rewrite drop_length. apply prefix_length in Hp.
        change (String.length printLF) with 6%nat in Hp. lia. }
      exists (printLF :: ms). repeat split; auto.
      * constructor; [right; reflexivity|assumption].
      * cbn [markers]. rewrite append_assoc, <- E. exact Ep.
    + exists []. repeat split; auto.
Qed.

(** C3, counterexample.  Two markers in a row inside the text: the scan
    for the print line resumes after the first one it replaced, so the
    second one stays and print comes out as a line of its own. *)
Lemma normalizeRCON_adjacent_markers_leave_print :
  let s := "a" ++ LF ++ sentinel ++ printLF ++ sentinel ++ printLF ++ "b" in
  Strings.Contains s (LF ++ sentinel ++ printLF) = true
  /\ Strings.Contains (normalizeRCON s) (LF ++ printLF) = true
  /\ splitNonEmptyLines (normalizeRCON s) = ["a"; "print"; "b"].
Proof. vm_compute. repeat split. Qed.

(** C3, amended.  For every input, normalization (after turning CR LF
    into LF) removes the whole run of leading sentinels and print lines,
    so that what is left starts with neither; it then replaces, in one
    scan from the left each, the occurrences of LF+sentinel and then of
    LF+print LF by LF, every scan resuming after the occurrence just
    replaced; and it trims the result.  The example input normalizes
    to exactly the two lines of the specification. *)
Theorem normalizeRCON_one_pass :
  (forall s, exists ms body,
      Forall isMarker ms
      /\ Strings.ReplaceAll s CRLF LF = markers ms ++ body
      /\ Strings.HasPrefix body sentinel = false
      /\ Strings.HasPrefix body printLF = false
      /\ normalizeRCON s =
         Strings.TrimSpace
           (Strings.ReplaceAll (Strings.ReplaceAll body (LF ++ sentinel) LF)
                               (LF ++ printLF) LF))
  /\ (forall a s,
        Strings.ReplaceAll (String a s) (LF ++ sentinel) LF =
        collapseStep (LF ++ sentinel) a s)
  /\ (forall a s,
        Strings.ReplaceAll (String a s) (LF ++ printLF) LF =
        collapseStep (LF ++ printLF) a s)
  /\ splitNonEmptyLines (normalizeRCON nuketown)
     = ["map: mp_nuketown"; "num score ping..."].
Proof.
  split; [|split; [|split]].
  - intros s. destruct s as [|a s].
    + exists [], "". repeat split; constructor.
    + set (t := Strings.ReplaceAll (String a s) CRLF LF).
      destruct (stripLeading_spec (S (String.length t)) t) as (ms & Hms & E & H1 & H2);
        [lia|].
      exists ms, (stripLeading (S (String.length t)) t).
      repeat split; assumption || reflexivity.
  - intros a s. apply (ReplaceAll_step nl sentinel LF a s).
  - intros a s. apply (ReplaceAll_step nl printLF LF a s).
  - vm_compute. reflexivity.
Qed.

End Normalization.

(* ===================================================================== *)
(** ** Colour codes *)
(* ===================================================================== *)

Section ColourScan.

Lemma stripColorCodes_code (c : ascii) (s : string) :
  isAlnum c = true ->
  stripColorCodes (String caret (String c s)) = stripColorCodes s.
Proof. intros H. cbn [stripColorCodes]. rewrite H. reflexivity. Qed.

Lemma stripColorCodes_keep (a : ascii) (s : string) :
  Ascii.eqb a caret = false ->
  stripColorCodes (String a s) = String a (stripColorCodes s).
Proof.
  intros H. destruct s as [|b s]; [reflexivity|].
  change (stripColorCodes (String a (String b s)))
    with (if Ascii.eqb a caret && isAlnum b then stripColorCodes s
          else String a (stripColorCodes (String b s))).
  rewrite H. reflexivity.
Qed.

(** The scan passes over a text without caret and goes on behind it. *)
Lemma stripColorCodes_plain_app (t u : string) :
  hasByte t caret = false ->
  stripColorCodes (t ++ u) = t ++ stripColorCodes u.
Proof.
  induction t as [|a t IH]; intros H; [reflexivity|].
  cbn [hasByte] in H. apply orb_false_iff in H as [Ha Ht].
  rewrite !append_cons, stripColorCodes_keep, (IH Ht);
    [reflexivity|].
  rewrite Ascii.eqb_sym. exact Ha.
Qed.

(** The scan over segments that each begin with a colour code leaves
    their texts. *)
Lemma stripColorCodes_segments (segs : list (ascii * string)) :
  Forall colourSegment segs -> stripColorCodes (coloured segs) = texts segs.
Proof.
  induction 1 as [|[c t] segs [Hc Ht] _ IH]; [reflexivity|].
  cbn [coloured texts fst snd] in *.
  rewrite (stripColorCodes_code _ _ Hc), (stripColorCodes_plain_app _ _ Ht), IH.
  reflexivity.
Qed.

End ColourScan.

(* ===================================================================== *)
(** ** The key/value block *)
(* ===================================================================== *)

Section KeyValue.

Lemma skipn_two (l : list string) (i : nat) (d : string) :
  (i + 1 < List.length l)%nat ->
  List.skipn i l = List.nth i l d :: List.nth (i + 1) l d :: List.skipn (i + 2) l.
Proof.
  revert i; induction l as [|x l IH]; intros i H; simpl in H; [lia|].
  destruct i as [|i].
  - destruct l as [|y l]; simpl in *; [lia|reflexivity].
  - simpl. apply IH. lia.
Qed.

Lemma pairUp_short (l : list string) :
  (List.length l <= 1)%nat -> pairUp l = [].
Proof. destruct l as [|x [|y l]]; simpl; intros; reflexivity || lia. Qed.

(** The index loop stores the pairs of the list in order; a fuel of
    the number of elements still ahead is enough for it to reach its
    own exit. *)
Lemma kvLoop_pairs (fuel : nat) (parts : list string) (i : nat)
      (kv : gmap string string) :
  (List.length parts <= i + fuel)%nat ->
  kvLoop fuel parts i kv = fold_left storePair (pairUp (List.skipn i parts)) kv.
Proof.
  revert i kv; induction fuel as [|fuel IH]; intros i kv Hlen.
  - rewrite List.skipn_all2 by lia. reflexivity.
  - cbn [kvLoop].
    destruct (Z.ltb_spec (Z.of_nat i) (Z.of_nat (List.length parts) - 1)) as [Hlt|Hge].
    + rewrite (skipn_two parts i EmptyString) by lia.
      cbn [pairUp fold_left]. unfold storePair at 2. cbn [fst snd].
      destruct (isEmpty (Strings.TrimSpace (List.nth i parts EmptyString)));
        apply IH; lia.
    + rewrite pairUp_short; [reflexivity|].
      rewrite List.length_skipn. lia.
Qed.

Lemma fold_storePair_lookup (l : list (string * string))
      (kv : gmap string string) (k v : string) :
  fold_left storePair l kv !! k = Some v ->
  kv !! k = Some v
  \/ exists k0 v0,
      In (k0, v0) l /\ k = Strings.TrimSpace k0
      /\ v = stripColorCodes (Strings.TrimSpace v0).
Proof.
  revert kv; induction l as [|[k0 v0] l IH]; intros kv H; [left; exact H|].
  cbn [fold_left] in H. apply IH in H as [H|(k1 & v1 & Hin & Hk & Hv)].
  - unfold storePair in H. cbn [fst snd] in H.
    destruct (isEmpty (Strings.TrimSpace k0)); [left; exact H|].
    apply lookup_insert_Some in H as [[<- <-]|[_ H]]; [|left; exact H].
    right. exists k0, v0. split; [left; reflexivity|split; reflexivity].
  - right. exists k1, v1. split; [right; exact Hin|split; assumption].
Qed.

(** C5.  The decoder splits the data line on backslashes, drops an
    empty first element, takes the elements two by two (0/1, 2/3, ...)
    leaving out an element without partner at the end, and stores each
    pair with a non-empty trimmed key, the value trimmed and stripped of
    its colour codes: when the trimmed value is a text without caret
    followed by segments that each begin with a colour code, what is
    stored is the texts without the codes.  The line of the
    specification binds hostname to My Server and mapname to
    mp_nuketown, with or without colour codes in the host name, and
    [GetInfo] builds from it, without error, a ServerInfo with these two
    fields. *)
Theorem parseKV_pairs_positionally :
  (forall dataLine,
      parseKV dataLine =
      fold_left storePair
                (pairUp (dropEmptyHead (Strings.Split dataLine backslash))) ∅)
  /\ (forall dataLine k v,
        parseKV dataLine !! k = Some v ->
        exists k0 v0,
          In (k0, v0) (pairUp (dropEmptyHead (Strings.Split dataLine backslash)))
          /\ k = Strings.TrimSpace k0
          /\ v = stripColorCodes (Strings.TrimSpace v0)
          /\ forall t0 segs,
              Strings.TrimSpace v0 = t0 ++ coloured segs ->
              hasByte t0 caret = false ->
              Forall colourSegment segs ->
              v = t0 ++ texts segs)
  /\ Strings.Split infoLine backslash
     = [""; "hostname"; "My Server"; "mapname"; "mp_nuketown"; ""]
  /\ pairUp (dropEmptyHead (Strings.Split infoLine backslash))
     = [("hostname", "My Server"); ("mapname", "mp_nuketown")]
  /\ parseKV infoLine !! "hostname" = Some "My Server"
  /\ parseKV infoLine !! "mapname" = Some "mp_nuketown"
  /\ parseKV infoLine !! "gametype" = None
  /\ pairUp (dropEmptyHead (Strings.Split colouredInfoLine backslash))
     = [("hostname", "^1My ^7Server"); ("mapname", "mp_nuketown")]
  /\ parseKV colouredInfoLine = parseKV infoLine
  /\ (forall now,
        ServerInfo.Hostname (serverInfoOf (parseKV infoLine) now) = "My Server"
        /\ ServerInfo.MapName (serverInfoOf (parseKV infoLine) now) = "mp_nuketown")
  /\ (exists info w',
        GetInfo client
                (peer [Net.Datagram (sentinel ++ "infoResponse" ++ LF ++ infoLine)])
        = ((Some info, None), w')
        /\ ServerInfo.Hostname info = "My Server"
        /\ ServerInfo.MapName info = "mp_nuketown")
  /\ exists info w',
      GetInfo client
              (peer [Net.Datagram
                       (sentinel ++ "infoResponse" ++ LF ++ colouredInfoLine)])
      = ((Some info, None), w')
      /\ ServerInfo.Hostname info = "My Server"
      /\ ServerInfo.MapName info = "mp_nuketown".
Proof.
  assert (Hgen : forall dataLine,
             parseKV dataLine =
             fold_left storePair
               (pairUp (dropEmptyHead (Strings.Split dataLine backslash))) ∅).
  { intros dataLine. unfold parseKV. rewrite kvLoop_pairs by lia. reflexivity. }
  split; [exact Hgen|]. split.
  { intros dataLine k v H. rewrite Hgen in H.
    apply fold_storePair_lookup in H as [H|(k0 & v0 & Hin & Hk & Hv)].
    - rewrite lookup_empty in H. discriminate.
    - exists k0, v0. repeat split; try assumption.
      intros t0 segs E H0 Hsegs. rewrite Hv, E.
      rewrite (stripColorCodes_plain_app _ _ H0),
        (stripColorCodes_segments _ Hsegs).
      reflexivity. }
  split; [reflexivity|]. split; [reflexivity|].
  split; [vm_compute; reflexivity|]. split; [vm_compute; reflexivity|].
  split; [vm_compute; reflexivity|]. split; [reflexivity|].
  split; [vm_compute; reflexivity|]. split.
  { intros now. split; vm_compute; reflexivity. }
  split.
  - eexists _, _. split; [vm_compute; reflexivity|]. split; reflexivity.
  - eexists _, _. split; [vm_compute; reflexivity|]. split; reflexivity.
Qed.

(** The host name of the coloured line: its value is the empty text
    followed by the segments ^1 My and ^7 Server, and what the map
    holds is My Server. *)
Lemma parseKV_pairs_positionally_witness :
  parseKV colouredInfoLine !! "hostname" = Some "My Server"
  /\ exists k0 v0,
      In (k0, v0)
         (pairUp (dropEmptyHead (Strings.Split colouredInfoLine backslash)))
      /\ "hostname" = Strings.TrimSpace k0
      /\ Strings.TrimSpace v0
         = "" ++ coloured [("1"%char, "My "); ("7"%char, "Server")]
      /\ "My Server" = "" ++ texts [("1"%char, "My "); ("7"%char, "Server")].
Proof.
  assert (H : parseKV colouredInfoLine !! "hostname" = Some "My Server")
    by (vm_compute; reflexivity).
  split; [exact H|].
  destruct (proj1 (proj2 parseKV_pairs_positionally)
                  colouredInfoLine "hostname" "My Server" H)
    as (k0 & v0 & Hin & Hk & Hv & Hplain).
  exists k0, v0. split; [exact Hin|]. split; [exact Hk|].
  assert (E : Strings.TrimSpace v0
              = "" ++ coloured [("1"%char, "My "); ("7"%char, "Server")]).
  { destruct Hin as [Hin|[Hin|[]]]; injection Hin as <- <-.
    - reflexivity.
    - vm_compute in Hk. discriminate Hk. }
  split; [exact E|].
  apply (Hplain "" [("1"%char, "My "); ("7"%char, "Server")] E eq_refl).
  repeat constructor.
Defined.

End KeyValue.

(* ===================================================================== *)
(** ** The status table *)
(* ===================================================================== *)

Section StatusTable.

(** C4.  The row of the specification decodes to exactly one player:
    slot 0, score 0, ping the string LOAD, GUID abc123, name PlayerOne,
    address 1.2.3.4 port 1234, query port 5678, rate 5000, last message
    0.  The same player comes out of [Status] when the server answers
    with a map line, a header and this row. *)
Theorem Status_decodes_bot_row :
  let player :=
    Player.mk 0 "PlayerOne" (PingString "LOAD") 0 "1.2.3.4" 1234 5678
              "abc123" 0 5000 in
  statusPlayers [statusRow] = [player]
  /\ (exists m,
        FindStringSubmatch pattern statusRow = Some m
        /\ group m "bot" = "bot" /\ group m "ping" = "LOAD"
        /\ group m "name" = "PlayerOne" /\ group m "ipport" = "1.2.3.4:1234")
  /\ exists st w',
      Status client
             (peer [reply ["map: mp_nuketown";
                           "num score ping guid name lastmsg address qport rate";
                           statusRow]])
      = ((Some st, None), w')
      /\ ServerStatus.Map st = "mp_nuketown"
      /\ ServerStatus.Players st = [player].
Proof.
  cbv zeta. split; [vm_compute; reflexivity|]. split.
  - eexists. split; [vm_compute; reflexivity|]. repeat split.
  - eexists _, _. split; [vm_compute; reflexivity|]. split; reflexivity.
Qed.

End StatusTable.

(* ===================================================================== *)
(** ** Typed fields *)
(* ===================================================================== *)

Section TypedFields.

(** C6, the code at the failing input.  [GetInfo] and [GetStatus] hand
    the name of the key, not the value bound to it, to [atoi] and
    [boolSafe]: whatever the map holds, the integer fields are 0 and
    the boolean fields false.  A reply with com_maxclients 18 and
    isInGame 1 gives MaxClients 0 and IsInGame false. *)
Theorem typed_fields_ignore_the_map :
  (forall kv now,
      let info := serverInfoOf kv now in
      ServerInfo.MaxClients info = 0%Z /\ ServerInfo.Protocol info = 0%Z
      /\ ServerInfo.SessionMode info = 0%Z /\ ServerInfo.HW info = 0%Z
      /\ ServerInfo.IsInGame info = false /\ ServerInfo.Mod info = false
      /\ ServerInfo.Voice info = false)
  /\ (forall kv now,
        let info := serverStatusInfoOf kv now in
        ServerStatusInfo.SvMaxClients info = 0%Z
        /\ ServerStatusInfo.ComMaxClients info = 0%Z
        /\ ServerStatusInfo.SvPure info = false
        /\ ServerStatusInfo.PasswordEnabled info = false)
  /\ (let line := "\com_maxclients\18\isInGame\1" in
      kvGet (parseKV line) "com_maxclients" = "18"
      /\ atoi (kvGet (parseKV line) "com_maxclients") = 18%Z
      /\ boolSafe (kvGet (parseKV line) "isInGame") = true
      /\ exists info w',
          GetInfo client (peer [Net.Datagram (sentinel ++ "infoResponse" ++ LF ++ line)])
          = ((Some info, None), w')
          /\ ServerInfo.MaxClients info = 0%Z
          /\ ServerInfo.IsInGame info = false).
Proof.
  split; [intros kv now; cbv zeta; repeat split|].
  split; [intros kv now; cbv zeta; repeat split|].
  cbv zeta. split; [vm_compute; reflexivity|]. split; [vm_compute; reflexivity|].
  split; [vm_compute; reflexivity|].
  eexists _, _. split; [vm_compute; reflexivity|]. split; reflexivity.
Qed.

End TypedFields.

(* ===================================================================== *)
(** ** Construction *)
(* ===================================================================== *)

Section Construction.

(** C9, counterexample.  The port string -1 parses, as a negative
    integer; construction then fails at address resolution, not with
    the invalid-port error. *)
Lemma New_negative_port_not_invalid_port :
  Strconv.Atoi "-1" = ((-1)%Z, true)
  /\ New allResolve "127.0.0.1" "-1" "secret" = (None, Some errResolve)
  /\ snd (New allResolve "127.0.0.1" "-1" "secret") <> Some errInvalidPort.
Proof. repeat split. vm_compute. discriminate. Qed.

(** C9, amended.  Construction fails with the empty-password error for
    the empty password, whatever the port.  With a password it fails
    with the invalid-port error exactly when [strconv.Atoi] rejects the
    port string; a port string that parses to a negative integer, or
    to one above 65535, fails with the address-resolution error
    instead.  Every client it returns is connected and has a read
    timeout of one second, and it returns one whenever the port parses
    into 0..65535, the host resolves and the socket can be dialled. *)
Theorem New_outcomes (env : resolver) (ip port password : string) :
  (password = "" -> New env ip port password = (None, Some errEmptyPassword))
  /\ (password <> "" ->
      (snd (Strconv.Atoi port) = false <->
       New env ip port password = (None, Some errInvalidPort)))
  /\ (password <> "" -> snd (Strconv.Atoi port) = true ->
      (fst (Strconv.Atoi port) < 0 \/ 65535 < fst (Strconv.Atoi port))%Z ->
      New env ip port password = (None, Some errResolve))
  /\ (forall rc,
        fst (New env ip port password) = Some rc ->
        snd (New env ip port password) = None
        /\ RCONClient.Timeout rc = Second
        /\ RCONClient.Conn rc = Some (ip, RCONClient.Port rc)
        /\ RCONClient.Port rc = fst (Strconv.Atoi port)
        /\ (0 <= RCONClient.Port rc <= 65535)%Z
        /\ RCONClient.Password rc = password /\ password <> "")
  /\ (password <> "" -> snd (Strconv.Atoi port) = true ->
      (0 <= fst (Strconv.Atoi port) <= 65535)%Z ->
      hostResolves env ip = true -> dialSucceeds env = true ->
      New env ip port password
      = (Some (RCONClient.mk ip (fst (Strconv.Atoi port)) password Second
                             (Some (ip, fst (Strconv.Atoi port)))),
         None)).
Proof.
  unfold New, ResolveUDPAddr, DialUDP.
  destruct (Strconv.Atoi port) as [n ok]. cbn [fst snd].
  split; [intros ->; reflexivity|].
  split.
  { intros Hp. apply isEmpty_false in Hp. rewrite Hp.
    destruct ok; [split; [discriminate|]|split; reflexivity].
    destruct ((n <? 0)%Z || (65535 <? n)%Z); [discriminate|].
    destruct (hostResolves env ip); [|discriminate].
    destruct (dialSucceeds env); discriminate. }
  split.
  { intros Hp -> Hn. apply isEmpty_false in Hp. rewrite Hp.
    replace ((n <? 0)%Z || (65535 <? n)%Z) with true; [reflexivity|].
    symmetry. apply orb_true_iff. rewrite !Z.ltb_lt. exact Hn. }
  split.
  { intros rc. destruct (isEmpty password) eqn:Hp; [discriminate|].
    apply isEmpty_false in Hp. destruct ok; [|discriminate].
    destruct ((n <? 0)%Z || (65535 <? n)%Z) eqn:Hn; [discriminate|].
    apply orb_false_iff in Hn as [H1 H2]. apply Z.ltb_ge in H1, H2.
    destruct (hostResolves env ip); [|discriminate].
    destruct (dialSucceeds env); [|discriminate].
    cbn [fst snd]. intros [= <-]. cbn. repeat split; auto. }
  intros Hp -> Hn Hr Hd. apply isEmpty_false in Hp. rewrite Hp, Hr, Hd.
  replace ((n <? 0)%Z || (65535 <? n)%Z) with false; [reflexivity|].
  symmetry. apply orb_false_iff. rewrite !Z.ltb_ge. lia.
Qed.

Lemma New_outcomes_witness :
  New allResolve "127.0.0.1" "28960" "secret" = (Some client, None)
  /\ New allResolve "127.0.0.1" "28960" "" = (None, Some errEmptyPassword)
  /\ New allResolve "127.0.0.1" "port" "secret" = (None, Some errInvalidPort)
  /\ New allResolve "127.0.0.1" "-1" "secret" = (None, Some errResolve).
Proof.
  split; [|split; [|split]].
  - apply (proj2 (proj2 (proj2 (proj2
             (New_outcomes allResolve "127.0.0.1" "28960" "secret"))))).
    + discriminate.
    + reflexivity.
    + vm_compute. split; discriminate.
    + reflexivity.
    + reflexivity.
  - apply (proj1 (New_outcomes allResolve "127.0.0.1" "28960" "")). reflexivity.
  - apply (proj1 (proj2 (New_outcomes allResolve "127.0.0.1" "port" "secret"))).
    + discriminate.
    + reflexivity.
  - apply (proj1 (proj2 (proj2 (New_outcomes allResolve "127.0.0.1" "-1" "secret")))).
    + discriminate.
    + reflexivity.
    + left. vm_compute. reflexivity.
Defined.

End Construction.

(* ===================================================================== *)
(** ** The command executor *)
(* ===================================================================== *)

Section Executor.

Variable rc : RCONClient.t.
Variable s : commandSettings.
Variables cmd packet : string.

(** How an observed turn ends decides what the loop does with it. *)
Lemma attempt_WriteFailed (w w1 : Net.net) (e : error) :
  attempt rc s packet w = (WriteFailed e, w1) ->
  Net.connWrite packet w = (Some e, w1).
Proof.
  unfold attempt. destruct (Net.connWrite packet w) as [[e'|] w0].
  - intros [= -> ->]. reflexivity.
  - destruct (readResponse rc _ _ w0) as [[res err] w2].
    destruct (0 <? List.length res)%nat; [discriminate|].
    destruct err as [e'|]; [destruct (isTimeout e')|]; discriminate.
Qed.

Lemma attempt_TimedOut (w w2 : Net.net) (e : error) :
  attempt rc s packet w = (TimedOut e, w2) ->
  exists w1 res,
    Net.connWrite packet w = (None, w1)
    /\ readResponse rc (readTimeout s) (readExtension s) w1 = ((res, Some e), w2)
    /\ (0 <? List.length res)%nat = false /\ isTimeout e = true.
Proof.
  unfold attempt. destruct (Net.connWrite packet w) as [[e'|] w0]; [discriminate|].
  destruct (readResponse rc _ _ w0) as [[res err] w3] eqn:Hr.
  destruct (0 <? List.length res)%nat eqn:Hl; [discriminate|].
  destruct err as [e'|]; [|discriminate].
  destruct (isTimeout e') eqn:Ht; [|discriminate].
  intros [= -> ->]. exists w0, res. auto.
Qed.

Lemma attempts_S (n : nat) (i : Z) (w : Net.net) :
  attempts rc s packet (S n) i w =
  (let '(o, w1) := attempt rc s packet w in
   let '(os, w2) :=
     attempts rc s packet n (i + 1)%Z (backoffUnlessLast i s w1) in
   (o :: os, w2)).
Proof. reflexivity. Qed.

(** A call that requires success and whose turns are all fruitless
    runs the loop to its end and fails there. *)
Lemma sendLoop_fruitless (n : nat) :
  requireSuccess s = true ->
  forall i lerr w os w',
    attempts rc s packet n i w = (os, w') ->
    forallb fruitless os = true ->
    sendLoop rc s cmd packet n i lerr w
    = (([], Some (default (errNoResponse cmd) (remembered lerr os))), w').
Proof.
  intros Hreq. induction n as [|n IH]; intros i lerr w os w' Hat Hfr.
  - cbn in Hat. injection Hat as <- <-. cbn. unfold exhausted. rewrite Hreq.
    destruct lerr; reflexivity.
  - cbn [attempts] in Hat. cbn [sendLoop]. unfold attempt in Hat.
    destruct (Net.connWrite packet w) as [[e|] w1].
    + destruct (attempts rc s packet n (i + 1) (backoffUnlessLast i s w1))
        as [os' w2] eqn:Hrest.
      injection Hat as <- <-. cbn in Hfr. cbn [remembered].
      apply IH; assumption.
    + destruct (readResponse rc (readTimeout s) (readExtension s) w1)
        as [[res err] w2].
      destruct (attempts rc s packet n (i + 1) (backoffUnlessLast i s w2))
        as [os' w3] eqn:Hrest.
      injection Hat as <- <-.
      destruct (0 <? List.length res)%nat; [discriminate|].
      destruct err as [e|].
      * destruct (isTimeout e); [|discriminate]. rewrite Hreq. cbn [negb].
        cbn [remembered]. apply IH; assumption.
      * rewrite Hreq. cbn [negb remembered]. apply IH; assumption.
Qed.

(** A call that does not require success returns the empty result at
    the first accumulation that times out, however many writes failed
    before it. *)
Lemma sendLoop_timeout_returns (es : list error) :
  requireSuccess s = false ->
  forall m i lerr w e w',
    attempts rc s packet (S (List.length es)) i w
    = ((List.map WriteFailed es ++ [TimedOut e])%list, w') ->
    fst (sendLoop rc s cmd packet (S (List.length es) + m) i lerr w) = ([], None).
Proof.
  intros Hreq. induction es as [|e0 es IH]; intros m i lerr w e w' Hat.
  - cbn [List.length List.map] in Hat. rewrite attempts_S, List.app_nil_l in Hat.
    destruct (attempt rc s packet w) as [o w1] eqn:Ho. cbn [attempts] in Hat.
    assert (o = TimedOut e) as -> by (inversion Hat; reflexivity).
    apply attempt_TimedOut in Ho
      as (w0 & res & Hw & Hr & Hl & Ht).
    cbn [sendLoop Nat.add List.length]. rewrite Hw, Hr, Hl, Ht, Hreq. reflexivity.
  - cbn [List.length List.map] in Hat.
    rewrite attempts_S, <- List.app_comm_cons in Hat.
    destruct (attempt rc s packet w) as [o w1] eqn:Ho.
    destruct (attempts rc s packet (S (List.length es)) (i + 1)
                       (backoffUnlessLast i s w1)) as [os' w2] eqn:Hrest.
    assert (o = WriteFailed e0) as -> by (inversion Hat; reflexivity).
    assert (os' = (List.map WriteFailed es ++ [TimedOut e])%list) as ->
        by (inversion Hat; reflexivity).
    apply attempt_WriteFailed in Ho.
    cbn [sendLoop Nat.add List.length]. rewrite Ho.
    apply (IH m _ _ _ _ _ Hrest).
Qed.

End Executor.

Section ExecutorClaims.

(** Every option of the package leaves the retry count at 3. *)
Lemma retries_packageOptions (opts : list commandOption) (s : commandSettings) :
  Forall packageOption opts -> retries s = 3%Z ->
  retries (applyOptions opts s) = 3%Z.
Proof.
  intros H; revert s; induction H as [|opt opts Hopt _ IH]; intros s Hs;
    [exact Hs|].
  cbn. apply IH. destruct Hopt as [->|[d ->]]; cbn; rewrite ?Hs; reflexivity.
Qed.

(** C1.  A command with requireSuccess=false on an established
    connection: when the turns of the call are write failures, at most
    [retries] of them, followed by an accumulation that ends in a
    timeout with nothing accumulated, the call returns the empty result
    and no error. *)
Theorem SendCommand_timeout_is_success
        (rc : RCONClient.t) (cmd : string) (args : option string)
        (opts : list commandOption) (w w' : Net.net)
        (es : list error) (e : error) :
  RCONClient.Conn rc <> None ->
  requireSuccess (applyOptions opts (defaultSettings rc)) = false ->
  (Z.of_nat (List.length es) <= retries (applyOptions opts (defaultSettings rc)))%Z ->
  attempts rc (applyOptions opts (defaultSettings rc)) (rconPacket rc cmd args)
           (S (List.length es)) 0 w
  = ((List.map WriteFailed es ++ [TimedOut e])%list, w') ->
  fst (SendCommand rc cmd args opts w) = ([], None).
Proof.
  intros Hconn Hreq Hlen Hat. unfold SendCommand.
  destruct (RCONClient.Conn rc); [|congruence].
  set (s := applyOptions opts (defaultSettings rc)) in *.
  replace (Z.to_nat (retries s + 1))
    with (S (List.length es) + (Z.to_nat (retries s) - List.length es))%nat by lia.
  eapply sendLoop_timeout_returns; eassumption.
Qed.

Lemma SendCommand_timeout_is_success_witness :
  fst (SendCommand client "say" (Some "hello") []
                   (Net.mkNet false [Some (OpError false "write: no buffer space")]
                              [] [] 0))
  = ([], None).
Proof.
  apply (SendCommand_timeout_is_success client "say" (Some "hello") [] _
           (snd (attempts client (defaultSettings client)
                          (rconPacket client "say" (Some "hello")) 2 0
                          (Net.mkNet false [Some (OpError false "write: no buffer space")]
                                     [] [] 0)))
           [OpError false "write: no buffer space"] Net.errDeadline).
  - discriminate.
  - reflexivity.
  - vm_compute. discriminate.
  - vm_compute. reflexivity.
Defined.

(** C2, counterexample.  The first accumulation of a command that
    requires success fails with an error that is not a timeout: the
    call returns this error at once.  No turn has produced a line, the
    write went through, and the error is neither a timeout nor the
    synthesized one. *)
Lemma SendCommand_broken_read_is_returned :
  let e := OpError false "read: connection refused" in
  let w := peer [Net.ReadFails e] in
  let s := applyOptions [requireResponse] (defaultSettings client) in
  requireSuccess s = true
  /\ forallb (fun o => negb (yieldsLines o))
             (fst (attempts client s (rconPacket client "status" None) 4 0 w)) = true
  /\ fst (attempt client s (rconPacket client "status" None) w) = Broken e
  /\ fst (SendCommand client "status" None [requireResponse] w) = ([], Some e)
  /\ isTimeout e = false
  /\ e <> errNoResponse "status".
Proof. vm_compute. repeat split. discriminate. Qed.

(** C2, amended.  A command with requireSuccess=true on an established
    connection: when each of the retries+1 turns ends in a failed
    write, in a timeout with nothing accumulated or in an empty
    response, the call fails with the last write or timeout error
    the turns have left, and with the synthesized error, no response
    received for the command, when they have left none.  (An
    accumulation that fails with another error ends the call at once
    with that error.) *)
Theorem SendCommand_exhausted
        (rc : RCONClient.t) (cmd : string) (args : option string)
        (opts : list commandOption) (w w' : Net.net) (os : list outcome) :
  RCONClient.Conn rc <> None ->
  requireSuccess (applyOptions opts (defaultSettings rc)) = true ->
  attempts rc (applyOptions opts (defaultSettings rc)) (rconPacket rc cmd args)
           (Z.to_nat (retries (applyOptions opts (defaultSettings rc)) + 1)) 0 w
  = (os, w') ->
  forallb fruitless os = true ->
  SendCommand rc cmd args opts w
  = (([], Some (default (errNoResponse cmd) (remembered None os))), w').
Proof.
  intros Hconn Hreq Hat Hfr. unfold SendCommand.
  destruct (RCONClient.Conn rc); [|congruence].
  apply sendLoop_fruitless; assumption.
Qed.

Lemma SendCommand_exhausted_witness :
  fst (SendCommand client "status" None [requireResponse] (peer []))
  = ([], Some Net.errDeadline)
  /\ fst (SendCommand client "status" None [requireResponse]
                      (peer [Net.Datagram LF; deadline; Net.Datagram LF; deadline;
                             Net.Datagram LF; deadline; Net.Datagram LF]))
     = ([], Some (errNoResponse "status")).
Proof.
  split.
  - rewrite (SendCommand_exhausted client "status" None [requireResponse] (peer [])
               (snd (attempts client (applyOptions [requireResponse] (defaultSettings client))
                              (rconPacket client "status" None) 4 0 (peer [])))
               [TimedOut Net.errDeadline; TimedOut Net.errDeadline;
                TimedOut Net.errDeadline; TimedOut Net.errDeadline]).
    + reflexivity.
    + discriminate.
    + reflexivity.
    + vm_compute. reflexivity.
    + reflexivity.
  - set (w := peer _).
    rewrite (SendCommand_exhausted client "status" None [requireResponse] w
               (snd (attempts client (applyOptions [requireResponse] (defaultSettings client))
                              (rconPacket client "status" None) 4 0 w))
               [NoLines; NoLines; NoLines; NoLines]).
    + reflexivity.
    + discriminate.
    + reflexivity.
    + vm_compute. reflexivity.
    + reflexivity.
Defined.

End ExecutorClaims.

(* ===================================================================== *)
(** ** The socket: traces and the closed state *)
(* ===================================================================== *)

Section Socket.

Lemma connWrite_closed (packet : string) (w : Net.net) :
  Net.closed w = true ->
  Net.connWrite packet w = (Some Net.errClosed, Net.log (Net.Wrote packet) w).
Proof. intros H. unfold Net.connWrite. cbn. rewrite H. reflexivity. Qed.

Lemma connWrite_trace (packet : string) (w : Net.net) :
  Net.trace (snd (Net.connWrite packet w)) = (Net.trace w ++ [Net.Wrote packet])%list.
Proof.
  unfold Net.connWrite. cbn. destruct (Net.closed w); [reflexivity|].
  destruct (Net.writes w); reflexivity.
Qed.

Lemma readResponse_trace (rc : RCONClient.t) (a b : Z) (w : Net.net) :
  Net.trace (snd (readResponse rc a b w)) = Net.trace w.
Proof.
  unfold readResponse. destruct (Net.closed w); [reflexivity|].
  destruct (readLoop (Net.reads w) EmptyString) as [[buf|e] evs]; [|reflexivity].
  destruct (isEmpty (normalizeRCON buf)); reflexivity.
Qed.

Lemma backoffUnlessLast_closed (i : Z) (s : commandSettings) (w : Net.net) :
  Net.closed (backoffUnlessLast i s w) = Net.closed w.
Proof. unfold backoffUnlessLast. destruct (i <? retries s)%Z; reflexivity. Qed.

(** On a closed socket every turn of [SendCommand] fails at its write,
    and the loop ends with the error of the closed socket. *)
Lemma sendLoop_closed (rc : RCONClient.t) (s : commandSettings)
      (cmd packet : string) (n : nat) :
  forall i lerr w,
    Net.closed w = true ->
    (lerr = Some Net.errClosed \/ n <> O) ->
    fst (sendLoop rc s cmd packet n i lerr w) = ([], Some Net.errClosed)
    /\ Net.closed (snd (sendLoop rc s cmd packet n i lerr w)) = true.
Proof.
  induction n as [|n IH]; intros i lerr w Hc Hn.
  - destruct Hn as [->|Hn]; [|congruence]. cbn. unfold exhausted.
    destruct (requireSuccess s); auto.
  - cbn [sendLoop]. rewrite connWrite_closed by exact Hc.
    apply IH; [|left; reflexivity].
    rewrite backoffUnlessLast_closed. exact Hc.
Qed.

Lemma sendLoop_closed_turn (rc : RCONClient.t) (s : commandSettings)
      (cmd packet : string) (n : nat) (i : Z) (lerr : option error)
      (w : Net.net) :
  Net.closed w = true ->
  sendLoop rc s cmd packet (S n) i lerr w
  = sendLoop rc s cmd packet n (i + 1) (Some Net.errClosed)
             (backoffUnlessLast i s (Net.log (Net.Wrote packet) w)).
Proof.
  intros Hc. cbn [sendLoop]. rewrite connWrite_closed by exact Hc. reflexivity.
Qed.

Lemma backoffUnlessLast_before (i : Z) (s : commandSettings) (w : Net.net) :
  (i < retries s)%Z -> backoffUnlessLast i s w = Net.sleep (backoff i) w.
Proof.
  intros H. unfold backoffUnlessLast.
  destruct (Z.ltb_spec i (retries s)); [reflexivity|lia].
Qed.

Lemma backoffUnlessLast_last (i : Z) (s : commandSettings) (w : Net.net) :
  (retries s <= i)%Z -> backoffUnlessLast i s w = w.
Proof.
  intros H. unfold backoffUnlessLast.
  destruct (Z.ltb_spec i (retries s)); [lia|reflexivity].
Qed.

Lemma after_nothing (w : Net.net) : after [] 0 w = w.
Proof.
  destruct w as [c ws rs tr cl]. unfold after.
  cbn [Net.closed Net.writes Net.reads Net.trace Net.clock].
  rewrite List.app_nil_r, Z.add_0_r. reflexivity.
Qed.

Lemma log_after (ev : Net.event) (evs : list Net.event) (d : Z) (w : Net.net) :
  Net.log ev (after evs d w) = after (evs ++ [ev]) d w.
Proof.
  unfold Net.log, after.
  cbn [Net.closed Net.writes Net.reads Net.trace Net.clock].
  rewrite List.app_assoc. reflexivity.
Qed.

Lemma sleep_after (p : Z) (evs : list Net.event) (d : Z) (w : Net.net) :
  Net.sleep p (after evs d w) = after (evs ++ [Net.Slept p]) (d + p) w.
Proof.
  unfold Net.sleep, Net.log, after.
  cbn [Net.closed Net.writes Net.reads Net.trace Net.clock].
  rewrite List.app_assoc, Z.add_assoc. reflexivity.
Qed.

(** The four turns that the options of the package give a call, on a
    closed socket: four refused writes and three pauses. *)
Lemma sendLoop_closed_four (rc : RCONClient.t) (s : commandSettings)
      (cmd packet : string) (w : Net.net) :
  Net.closed w = true ->
  retries s = 3%Z ->
  sendLoop rc s cmd packet 4 0 None w
  = (([], Some Net.errClosed), after (fourWrites packet) (900 * Millisecond) w).
Proof.
  intros Hc Hr.
  do 4 (rewrite sendLoop_closed_turn
         by (repeat (rewrite backoffUnlessLast_closed; cbn [Net.closed Net.log]);
             exact Hc)).
  rewrite (backoffUnlessLast_last (0 + 1 + 1 + 1)) by lia.
  rewrite !backoffUnlessLast_before by lia.
  rewrite <- (after_nothing w) at 1.
  repeat (rewrite log_after || rewrite sleep_after).
  cbn [sendLoop]. unfold exhausted.
  destruct (requireSuccess s); reflexivity.
Qed.

End Socket.

Section ClosedClient.

Variable rc : RCONClient.t.
Hypothesis established : RCONClient.Conn rc <> None.

Lemma SendCommand_closed (cmd : string) (args : option string)
      (opts : list commandOption) (w : Net.net) :
  Forall packageOption opts -> Net.closed w = true ->
  SendCommand rc cmd args opts w
  = (([], Some Net.errClosed),
     after (fourWrites (rconPacket rc cmd args)) (900 * Millisecond) w).
Proof.
  intros Hopts Hc. unfold SendCommand.
  destruct (RCONClient.Conn rc); [|congruence].
  rewrite (retries_packageOptions opts _ Hopts) by reflexivity.
  apply sendLoop_closed_four; [exact Hc|].
  apply (retries_packageOptions opts _ Hopts). reflexivity.
Qed.

Lemma queryLines_closed (query emptyMsg : string) (w : Net.net) :
  Net.closed w = true ->
  queryLines rc query emptyMsg w
  = (([], Some Net.errClosed), after [Net.Wrote (queryPacket query)] 0 w).
Proof.
  intros Hc. unfold queryLines. destruct (RCONClient.Conn rc); [|congruence].
  rewrite connWrite_closed by exact Hc.
  rewrite <- (after_nothing w) at 1. rewrite log_after. reflexivity.
Qed.

Lemma packageOptions_status :
  Forall packageOption [requireResponse; withReadExtension Second].
Proof.
  constructor; [left; reflexivity|].
  constructor; [right; eexists; reflexivity|constructor].
Qed.

Lemma packageOptions_require : Forall packageOption [requireResponse].
Proof. constructor; [left; reflexivity|constructor]. Qed.

(** C8, amended.  An explicit close of an established, open client
    succeeds and leaves [rc.Conn] in place.  Every operation after it
    fails with the error of the closed socket, returned by its write,
    and reads nothing: [GetInfo] and [GetStatus] after one write;
    [SendCommand], [Status] and [GetDvar] (for a non-empty name of
    ASCII bytes) after the retries+1 = 4 writes of one call of
    [SendCommand], with pauses of 150, 300 and 450 ms between them.
    The socket is left closed, with nothing else done.  The error of a
    connection that is not established is another one: it is returned
    only when [rc.Conn] is nil. *)
Theorem closed_client_fails_at_write
        (w : Net.net) (cmd dvar : string) (args : option string)
        (opts : list commandOption) :
  Net.closed w = false ->
  Forall packageOption opts ->
  dvar <> "" ->
  allBytes isASCII (Strings.TrimSpace dvar) = true ->
  fst (Close rc w) = None
  /\ Net.closed (snd (Close rc w)) = true
  /\ Net.errClosed <> errNotEstablished
  /\ forall w',
      Net.closed w' = true ->
      SendCommand rc cmd args opts w'
      = (([], Some Net.errClosed),
         after (fourWrites (rconPacket rc cmd args)) (900 * Millisecond) w')
      /\ GetInfo rc w'
         = ((None, Some Net.errClosed),
            after [Net.Wrote (queryPacket "getinfo")] 0 w')
      /\ GetStatus rc w'
         = ((None, Some Net.errClosed),
            after [Net.Wrote (queryPacket "getstatus")] 0 w')
      /\ Status rc w'
         = ((None, Some Net.errClosed),
            after (fourWrites (rconPacket rc "status" None)) (900 * Millisecond) w')
      /\ GetDvar rc dvar w'
         = (("", Some Net.errClosed),
            after (fourWrites (rconPacket rc dvar None)) (900 * Millisecond) w').
Proof.
  intros Hopen Hopts Hdvar _.
  assert (HC : Close rc w = (None, Net.mkNet true (Net.writes w) (Net.reads w)
                                             (Net.trace w) (Net.clock w))).
  { unfold Close, Net.connClose. rewrite Hopen. reflexivity. }
  rewrite HC. split; [reflexivity|]. split; [reflexivity|].
  split; [discriminate|]. intros w' Hc.
  split; [apply SendCommand_closed; assumption|].
  split.
  { unfold GetInfo. rewrite (queryLines_closed "getinfo" _ w' Hc). reflexivity. }
  split.
  { unfold GetStatus. rewrite (queryLines_closed "getstatus" _ w' Hc). reflexivity. }
  split.
  { unfold Status.
    rewrite (SendCommand_closed "status" None _ w' packageOptions_status Hc).
    reflexivity. }
  unfold GetDvar. apply isEmpty_false in Hdvar. rewrite Hdvar.
  change (Z.to_nat maxAttempts) with 3%nat. cbn [dvarLoop].
  rewrite (SendCommand_closed dvar None _ w' packageOptions_require Hc).
  reflexivity.
Qed.

End ClosedClient.

Section ClosedClientExamples.

(** C8, counterexample.  A client built by [New] and closed: the next
    [SendCommand] and the next [GetInfo] fail with the error of the
    closed socket, which is not the error of a connection that is not
    established. *)
Lemma operation_after_Close_not_unestablished :
  let w' := snd (Close client (peer [])) in
  New allResolve "127.0.0.1" "28960" "secret" = (Some client, None)
  /\ fst (Close client (peer [])) = None
  /\ snd (fst (SendCommand client "status" None [] w')) = Some Net.errClosed
  /\ snd (fst (SendCommand client "status" None [] w')) <> Some errNotEstablished
  /\ snd (fst (GetInfo client w')) = Some Net.errClosed
  /\ snd (fst (GetInfo client w')) <> Some errNotEstablished.
Proof. vm_compute. repeat split; discriminate. Qed.

Lemma closed_client_fails_at_write_witness :
  SendCommand client "status" None [] (snd (Close client (peer [])))
  = (([], Some Net.errClosed),
     after (fourWrites (rconPacket client "status" None)) (900 * Millisecond)
           (snd (Close client (peer [])))).
Proof.
  assert (E : RCONClient.Conn client <> None) by discriminate.
  assert (D : "sv_hostname" <> "") by discriminate.
  assert (O : Net.closed (peer []) = false) by reflexivity.
  apply (proj1 (proj2 (proj2 (proj2
           (closed_client_fails_at_write client E (peer []) "status"
                                         "sv_hostname" None [] O
                                         (List.Forall_nil packageOption) D eq_refl)))
           (snd (Close client (peer []))) eq_refl)).
Defined.

End ClosedClientExamples.

(* ===================================================================== *)
(** ** GetInfo and GetStatus: one exchange *)
(* ===================================================================== *)

Section SingleExchange.

Variable rc : RCONClient.t.
Hypothesis established : RCONClient.Conn rc <> None.

(** What [queryLines] returns, case by case, and what it leaves in the
    trace: one write of the query, no pause. *)
Lemma queryLines_cases (query emptyMsg : string) (w : Net.net) :
  let r := queryLines rc query emptyMsg w in
  (Net.writeCalls (snd r) = (Net.writeCalls w ++ [queryPacket query])%list
   /\ Net.sleeps (snd r) = Net.sleeps w)
  /\ (forall e w1,
        Net.connWrite (queryPacket query) w = (Some e, w1) ->
        r = (([], Some e), w1))
  /\ (forall w1 lines e w2,
        Net.connWrite (queryPacket query) w = (None, w1) ->
        readResponse rc (timeoutOrDefault rc) defaultReadExtension w1
        = ((lines, Some e), w2) ->
        r = (([], Some e), w2))
  /\ (forall w1 w2,
        Net.connWrite (queryPacket query) w = (None, w1) ->
        readResponse rc (timeoutOrDefault rc) defaultReadExtension w1
        = (([], None), w2) ->
        r = (([], Some (ErrorString emptyMsg)), w2))
  /\ (snd (fst r) = None ->
      exists w1 l ls,
        Net.connWrite (queryPacket query) w = (None, w1)
        /\ readResponse rc (timeoutOrDefault rc) defaultReadExtension w1
           = ((l :: ls, None), snd r)
        /\ fst (fst r) = l :: ls).
Proof.
  cbv zeta. unfold queryLines. destruct (RCONClient.Conn rc); [|congruence].
  pose proof (connWrite_trace (queryPacket query) w) as Htr.
  destruct (Net.connWrite (queryPacket query) w) as [[e|] w1]; cbn [snd] in Htr.
  - split.
    { unfold Net.writeCalls, Net.sleeps. cbn [snd]. rewrite Htr, !omap_app.
      cbn. rewrite List.app_nil_r. auto. }
    repeat split; intros; simplify_eq; reflexivity.
  - pose proof (readResponse_trace rc (timeoutOrDefault rc) defaultReadExtension w1)
      as Htr2.
    destruct (readResponse rc (timeoutOrDefault rc) defaultReadExtension w1)
      as [[lines err] w2] eqn:Hrr; cbn [snd] in Htr2.
    assert (Hobs : Net.writeCalls w2 = (Net.writeCalls w ++ [queryPacket query])%list
                   /\ Net.sleeps w2 = Net.sleeps w).
    { unfold Net.writeCalls, Net.sleeps. rewrite Htr2, Htr, !omap_app.
      cbn. rewrite List.app_nil_r. auto. }
    destruct err as [e|]; [|destruct lines as [|l ls]]; cbn.
    + split; [exact Hobs|]. repeat split; intros; simplify_eq; congruence.
    + split; [exact Hobs|]. repeat split; intros; simplify_eq; congruence.
    + split; [exact Hobs|]. repeat split; intros; simplify_eq; try congruence.
      exists w1, l, ls. auto.
Qed.

(** Both operations return what [queryLines] returns, the lines apart;
    its five facts carry over. *)
Ltac through_queryLines Hobs Hw Hr He Hs :=
  let lines := fresh "lines" in
  let err := fresh "err" in
  let w' := fresh "w'" in
  let H := fresh "H" in
  let H' := fresh "H'" in
  match goal with
  | |- context [queryLines ?c ?q ?m ?w0] =>
      destruct (queryLines c q m w0) as [[lines err] w']
  end;
  cbn [fst snd] in *;
  split; [destruct err; exact Hobs|];
  split; [intros ? ? H; specialize (Hw _ _ H); simplify_eq; reflexivity|];
  split; [intros ? ? ? ? H H'; specialize (Hr _ _ _ _ H H');
          simplify_eq; reflexivity|];
  split; [intros ? ? H H'; specialize (He _ _ H H'); simplify_eq; reflexivity|];
  destruct err; cbn [fst snd]; [discriminate|];
  intros _; destruct (Hs eq_refl) as (? & ? & ? & H & H' & _);
  eexists _, _, _; split; [exact H|exact H'].

(** C10, amended.  On an established connection [GetInfo] and
    [GetStatus] each make exactly one write, of the query without
    password, and no pause; when the write goes through they run one
    accumulation.  An error of the write, and any error of the
    accumulation (the timeout with nothing accumulated among them),
    is returned at once.  An accumulation that yields no line makes
    them fail with the error empty infoResponse, respectively empty
    statusResponse, and every success rests on one line at least.  (A
    timeout that arrives once data has been accumulated is not an error:
    it ends the accumulation.) *)
Theorem GetInfo_GetStatus_single_exchange (w : Net.net) :
  ((Net.writeCalls (snd (GetInfo rc w))
    = (Net.writeCalls w ++ [(sentinel ++ "getinfo" ++ LF)%string])%list
    /\ Net.sleeps (snd (GetInfo rc w)) = Net.sleeps w)
   /\ (forall e w1,
         Net.connWrite (queryPacket "getinfo") w = (Some e, w1) ->
         GetInfo rc w = ((None, Some e), w1))
   /\ (forall w1 lines e w2,
         Net.connWrite (queryPacket "getinfo") w = (None, w1) ->
         readResponse rc (timeoutOrDefault rc) defaultReadExtension w1
         = ((lines, Some e), w2) ->
         GetInfo rc w = ((None, Some e), w2))
   /\ (forall w1 w2,
         Net.connWrite (queryPacket "getinfo") w = (None, w1) ->
         readResponse rc (timeoutOrDefault rc) defaultReadExtension w1
         = (([], None), w2) ->
         GetInfo rc w = ((None, Some (ErrorString "empty infoResponse")), w2))
   /\ (snd (fst (GetInfo rc w)) = None ->
       exists w1 l ls,
         Net.connWrite (queryPacket "getinfo") w = (None, w1)
         /\ readResponse rc (timeoutOrDefault rc) defaultReadExtension w1
            = ((l :: ls, None), snd (GetInfo rc w))))
  /\ ((Net.writeCalls (snd (GetStatus rc w))
       = (Net.writeCalls w ++ [(sentinel ++ "getstatus" ++ LF)%string])%list
       /\ Net.sleeps (snd (GetStatus rc w)) = Net.sleeps w)
      /\ (forall e w1,
            Net.connWrite (queryPacket "getstatus") w = (Some e, w1) ->
            GetStatus rc w = ((None, Some e), w1))
      /\ (forall w1 lines e w2,
            Net.connWrite (queryPacket "getstatus") w = (None, w1) ->
            readResponse rc (timeoutOrDefault rc) defaultReadExtension w1
            = ((lines, Some e), w2) ->
            GetStatus rc w = ((None, Some e), w2))
      /\ (forall w1 w2,
            Net.connWrite (queryPacket "getstatus") w = (None, w1) ->
            readResponse rc (timeoutOrDefault rc) defaultReadExtension w1
            = (([], None), w2) ->
            GetStatus rc w
            = ((None, Some (ErrorString "empty statusResponse")), w2))
      /\ (snd (fst (GetStatus rc w)) = None ->
          exists w1 l ls,
            Net.connWrite (queryPacket "getstatus") w = (None, w1)
            /\ readResponse rc (timeoutOrDefault rc) defaultReadExtension w1
               = ((l :: ls, None), snd (GetStatus rc w)))).
Proof.
  split.
  - destruct (queryLines_cases "getinfo" "empty infoResponse" w)
      as (Hobs & Hw & Hr & He & Hs).
    unfold GetInfo. through_queryLines Hobs Hw Hr He Hs.
  - destruct (queryLines_cases "getstatus" "empty statusResponse" w)
      as (Hobs & Hw & Hr & He & Hs).
    unfold GetStatus. through_queryLines Hobs Hw Hr He Hs.
Qed.

End SingleExchange.

Section SingleExchangeExamples.

(** C10, counterexample.  A datagram, then the deadline: the timeout
    meets a buffer that is not empty, ends the read loop, and neither
    [GetInfo] nor [GetStatus] returns an error. *)
Lemma timeout_after_data_is_not_propagated :
  let evs := [Net.Datagram (sentinel ++ "infoResponse" ++ LF ++ infoLine); deadline] in
  isTimeout Net.errDeadline = true
  /\ readLoop evs "" = (inl (sentinel ++ "infoResponse" ++ LF ++ infoLine), [])
  /\ snd (fst (GetInfo client (peer evs))) = None
  /\ snd (fst (GetStatus client (peer evs))) = None.
Proof. vm_compute. repeat split. Qed.

Lemma GetInfo_GetStatus_single_exchange_witness :
  fst (GetInfo client (peer [])) = (None, Some Net.errDeadline)
  /\ fst (GetStatus client (peer [Net.Datagram LF]))
     = (None, Some (ErrorString "empty statusResponse")).
Proof.
  assert (E : RCONClient.Conn client <> None) by discriminate.
  split.
  - erewrite (proj1 (proj2 (proj2 (proj1
                (GetInfo_GetStatus_single_exchange client E (peer [])))))).
    + reflexivity.
    + vm_compute. reflexivity.
    + vm_compute. reflexivity.
  - erewrite (proj1 (proj2 (proj2 (proj2 (proj2
                (GetInfo_GetStatus_single_exchange client E
                   (peer [Net.Datagram LF]))))))).
    + reflexivity.
    + vm_compute. reflexivity.
    + vm_compute. reflexivity.
Defined.

End SingleExchangeExamples.

(* ===================================================================== *)
(** ** The dvar extractor *)
(* ===================================================================== *)

Section DvarExtractor.

Variable rc : RCONClient.t.
Variable dvar : string.
Variables rx1 rx2 : regex.

Lemma candidate_cleaned (line : string) :
  candidate line = true -> isEmpty (cleaned line) = false.
Proof.
  unfold candidate. intros H. apply andb_true_iff in H as [H _].
  apply negb_true_iff in H. exact H.
Qed.

Lemma keep_app (lastClean : string) (l1 l2 : list string) :
  keep (keep lastClean l1) l2 = keep lastClean (l1 ++ l2)%list.
Proof.
  unfold keep. destruct (isEmpty lastClean) eqn:Hl; [|rewrite Hl; reflexivity].
  induction l1 as [|x l1 IH]; [reflexivity|].
  cbn. destruct (candidate x) eqn:Hc; [|exact IH].
  rewrite (candidate_cleaned x Hc). reflexivity.
Qed.

(** When no pattern matches a line, the scan of a response only
    updates the fallback. *)
Lemma scanLines_unmatched (res : list string) :
  forallb (unmatched rx1 rx2) res = true ->
  forall lastClean,
    scanLines rx1 rx2 res lastClean = inr (keep lastClean res).
Proof.
  induction res as [|line res IH]; intros H lastClean.
  - cbn. unfold keep. destruct (isEmpty lastClean) eqn:E; [|reflexivity].
    apply isEmpty_true in E. subst. reflexivity.
  - cbn [forallb] in H. apply andb_true_iff in H as [Hu H].
    cbn [scanLines]. fold (cleaned line). unfold unmatched in Hu.
    unfold keep. cbn [firstCandidate]. unfold candidate.
    destruct (isEmpty (cleaned line)) eqn:Hc.
    + cbn [negb andb]. rewrite (IH H). reflexivity.
    + cbn [orb negb andb] in Hu |- *.
      destruct (FindStringSubmatch rx1 (cleaned line)); [discriminate|].
      destruct (FindStringSubmatch rx2 (cleaned line)); [discriminate|].
      destruct (negb (Strings.Contains (Strings.ToLower (cleaned line)) pollution)).
      * rewrite (IH H). unfold keep.
        destruct (isEmpty lastClean) eqn:E; [rewrite Hc|rewrite E]; reflexivity.
      * rewrite (IH H). reflexivity.
Qed.

Lemma dvarQueries_length (n : nat) :
  forall attempt w rs w',
    dvarQueries rc dvar n attempt w = Some (rs, w') -> List.length rs = n.
Proof.
  induction n as [|n IH]; intros attempt w rs w' H.
  - injection H as <- _. reflexivity.
  - cbn [dvarQueries] in H.
    destruct (SendCommand rc dvar None [requireResponse] w) as [[res [e|]] w1];
      [discriminate|].
    destruct n as [|n].
    + injection H as <- _. reflexivity.
    + destruct (dvarQueries rc dvar (S n) (attempt + 1) (Net.sleep (backoff attempt) w1))
        as [[rs' w2]|] eqn:Hq; [|discriminate].
      injection H as <- _. cbn. f_equal. eapply IH. exact Hq.
Qed.

Lemma dvarLoop_S (n : nat) (attempt : Z) (lastClean : string) (w : Net.net) :
  dvarLoop rc dvar rx1 rx2 (S n) attempt lastClean w =
  (let '((res, err), w1) := SendCommand rc dvar None [requireResponse] w in
   match err with
   | Some e => ((EmptyString, Some e), w1)
   | None =>
       match scanLines rx1 rx2 res lastClean with
       | inl val => ((val, None), w1)
       | inr lastClean' =>
           if negb (needRetry res) then (dvarResult dvar lastClean', w1)
           else dvarLoop rc dvar rx1 rx2 n (attempt + 1)%Z lastClean'
                         (Net.sleep (backoff attempt) w1)
       end
   end).
Proof. reflexivity. Qed.

(** The loop of [GetDvar] over [n] answered queries of which no line
    matches and all but the last carry the pollution token: it stops
    after the last one, either because that one is clean or because
    the turns are used up ([m = 0]). *)
Lemma dvarLoop_unmatched (n : nat) :
  forall m attempt lastClean w rs w',
    dvarQueries rc dvar (S n) attempt w = Some (rs, w') ->
    forallb (unmatched rx1 rx2) (List.concat rs) = true ->
    forallb needRetry (removelast rs) = true ->
    (m = O \/ needRetry (List.last rs []) = false) ->
    dvarLoop rc dvar rx1 rx2 (S n + m) attempt lastClean w
    = (dvarResult dvar (keep lastClean (List.concat rs)),
       if needRetry (List.last rs [])
       then Net.sleep (backoff (attempt + Z.of_nat n)) w' else w').
Proof.
  induction n as [|n IH]; intros m attempt lastClean w rs w' Hq Hun Hpol Hlast.
  - cbn [dvarQueries] in Hq. change (1 + m)%nat with (S m). rewrite dvarLoop_S.
    destruct (SendCommand rc dvar None [requireResponse] w) as [[res [e|]] w1];
      [discriminate|].
    injection Hq as <- <-. cbn [List.concat] in Hun. rewrite List.app_nil_r in Hun.
    cbn [List.concat List.last]. rewrite List.app_nil_r.
    rewrite (scanLines_unmatched res Hun).
    destruct (needRetry res) eqn:Hr; cbn [negb]; [|reflexivity].
    destruct Hlast as [->|Hl]; [|cbn [List.last] in Hl; congruence].
    cbn [dvarLoop]. rewrite Z.add_0_r. reflexivity.
  - change (dvarQueries rc dvar (S (S n)) attempt w) with
      (match SendCommand rc dvar None [requireResponse] w with
       | ((res, None), w1) =>
           match dvarQueries rc dvar (S n) (attempt + 1)%Z
                             (Net.sleep (backoff attempt) w1) with
           | Some (rs, w2) => Some (res :: rs, w2)
           | None => None
           end
       | ((_, Some _), _) => None
       end) in Hq.
    change (S (S n) + m)%nat with (S (S n + m)). rewrite dvarLoop_S.
    destruct (SendCommand rc dvar None [requireResponse] w) as [[res [e|]] w1];
      [discriminate|].
    destruct (dvarQueries rc dvar (S n) (attempt + 1) (Net.sleep (backoff attempt) w1))
      as [[rs' w2]|] eqn:Hq'; [|discriminate].
    injection Hq as <- <-.
    pose proof (dvarQueries_length _ _ _ _ _ Hq') as Hlen.
    destruct rs' as [|r rs']; [discriminate|].
    cbn [List.concat] in Hun. rewrite forallb_app in Hun.
    apply andb_true_iff in Hun as [Hun1 Hun2].
    cbn [removelast forallb] in Hpol. apply andb_true_iff in Hpol as [Hp1 Hp2].
    rewrite (scanLines_unmatched res Hun1). rewrite Hp1. cbn [negb].
    change (List.last (res :: r :: rs') []) with (List.last (r :: rs') []).
    change (List.last (res :: r :: rs') []) with (List.last (r :: rs') []) in Hlast.
    rewrite (IH m (attempt + 1)%Z (keep lastClean res) _ (r :: rs') _ Hq' Hun2 Hp2 Hlast).
    rewrite keep_app. cbn [List.concat].
    replace (attempt + 1 + Z.of_nat n)%Z with (attempt + Z.of_nat (S n))%Z by lia.
    reflexivity.
Qed.

End DvarExtractor.

Section DvarClaims.

Lemma needRetry_polluted (res : list string) : needRetry res = polluted res.
Proof. reflexivity. Qed.

(** C7.  The queries of [GetDvar] for a non-empty name of ASCII bytes
    are answered [k] times (1 to 3), no pattern matches any line, every
    answer but the last has a line that carries the pollution token,
    and the last one has none or is the third.  Then [GetDvar] makes
    exactly these [k] queries, with a pause of 150 ms times the number
    of the query after each answer that carries the token; it returns
    the first line of all answers that is not empty once cleaned and
    does not carry the token, and when there is no such line it fails
    with the error empty dvar response. *)
Theorem GetDvar_unmatched_falls_back
        (rc : RCONClient.t) (dvar : string) (w wk : Net.net) (k : nat)
        (rs : list (list string)) :
  dvar <> "" ->
  allBytes isASCII (Strings.TrimSpace dvar) = true ->
  (1 <= k <= 3)%nat ->
  dvarQueries rc dvar k 0 w = Some (rs, wk) ->
  forallb (unmatched (dvarRx1 (Strings.TrimSpace dvar))
                     (dvarRx2 (Strings.TrimSpace dvar))) (List.concat rs) = true ->
  forallb polluted (removelast rs) = true ->
  (k = 3%nat \/ polluted (List.last rs []) = false) ->
  GetDvar rc dvar w
  = (if isEmpty (firstCandidate (List.concat rs))
     then ("", Some (ErrorQuoted "empty dvar response for" dvar))
     else (firstCandidate (List.concat rs), None),
     if polluted (List.last rs [])
     then Net.sleep (Z.of_nat k * 150 * Millisecond) wk else wk).
Proof.
  intros Hd _ Hk Hq Hun Hpol Hlast. unfold GetDvar.
  apply isEmpty_false in Hd. rewrite Hd.
  destruct k as [|n]; [lia|].
  change (Z.to_nat maxAttempts) with 3%nat.
  replace 3%nat with (S n + (2 - n))%nat by lia.
  assert (Hpol' : forallb needRetry (removelast rs) = true).
  { rewrite <- Hpol. clear. induction (removelast rs) as [|res l IH]; [reflexivity|].
    cbn [forallb]. rewrite IH, needRetry_polluted. reflexivity. }
  rewrite <- needRetry_polluted in Hlast |- *.
  rewrite (dvarLoop_unmatched rc dvar _ _ n (2 - n) 0%Z "" w rs wk Hq Hun Hpol').
  - unfold dvarResult, keep, backoff. cbn [isEmpty].
    replace ((0 + Z.of_nat n + 1) * 150 * Millisecond)%Z
      with (Z.of_nat (S n) * 150 * Millisecond)%Z by lia.
    destruct (isEmpty (firstCandidate (List.concat rs))); reflexivity.
  - destruct Hlast as [H|H]; [left; lia|right; exact H].
Qed.

(** The three answers of the specification: each carries a polluted
    line and an unrelated one, and the clean answer never comes.  The
    three queries and the three pauses are in the trace. *)
Lemma GetDvar_unmatched_falls_back_witness :
  GetDvar client "sv_maxclients"
          (peer [reply ["sv_iw4madmin_in something"; "unrelated"]; deadline;
                 reply ["sv_iw4madmin_in something"; "unrelated"]; deadline;
                 reply ["sv_iw4madmin_in something"; "unrelated"]])
  = (("unrelated", None),
     Net.mkNet false [] []
               [Net.Wrote (rconPacket client "sv_maxclients" None);
                Net.Slept (150 * Millisecond);
                Net.Wrote (rconPacket client "sv_maxclients" None);
                Net.Slept (300 * Millisecond);
                Net.Wrote (rconPacket client "sv_maxclients" None);
                Net.Slept (450 * Millisecond)]
               (900 * Millisecond)).
Proof.
  set (w := peer _).
  rewrite (GetDvar_unmatched_falls_back client "sv_maxclients" w
             (snd (default ([], w) (dvarQueries client "sv_maxclients" 3 0 w))) 3
             [["sv_iw4madmin_in something"; "unrelated"];
              ["sv_iw4madmin_in something"; "unrelated"];
              ["sv_iw4madmin_in something"; "unrelated"]]).
  - vm_compute. reflexivity.
  - discriminate.
  - reflexivity.
  - lia.
  - vm_compute. reflexivity.
  - vm_compute. reflexivity.
  - vm_compute. reflexivity.
  - left. reflexivity.
Defined.

End DvarClaims.

(* ===================================================================== *)
(** ** Further properties of the command executor *)
(* ===================================================================== *)

Section ExecutorShape.

Variable rc : RCONClient.t.
Variable s : commandSettings.
Variables cmd packet : string.

Lemma sendLoop_S (n : nat) (i : Z) (lerr : option error) (w : Net.net) :
  sendLoop rc s cmd packet (S n) i lerr w =
  match Net.connWrite packet w with
  | (Some err, w1) =>
      sendLoop rc s cmd packet n (i + 1)%Z (Some err) (backoffUnlessLast i s w1)
  | (None, w1) =>
      let '((res, err), w2) :=
        readResponse rc (readTimeout s) (readExtension s) w1 in
      if (0 <? List.length res)%nat then ((res, None), w2)
      else
        match err with
        | None =>
            if negb (requireSuccess s) then ((res, None), w2)
            else sendLoop rc s cmd packet n (i + 1)%Z lerr
                          (backoffUnlessLast i s w2)
        | Some e =>
            if isTimeout e then
              if negb (requireSuccess s) then (([], None), w2)
              else sendLoop rc s cmd packet n (i + 1)%Z (Some e)
                            (backoffUnlessLast i s w2)
            else (([], Some e), w2)
        end
  end.
Proof. reflexivity. Qed.

(** The loop never returns lines together with an error, and when
    success is required it never returns without either. *)
Lemma sendLoop_shape (n : nat) :
  forall i lerr w,
    let r := fst (sendLoop rc s cmd packet n i lerr w) in
    (snd r <> None -> fst r = [])
    /\ (requireSuccess s = true -> snd r = None -> fst r <> []).
Proof.
  induction n as [|n IH]; intros i lerr w; cbv zeta.
  - cbn [sendLoop]. unfold exhausted.
    destruct (requireSuccess s); [destruct lerr|]; cbn; split; congruence.
  - rewrite sendLoop_S.
    destruct (Net.connWrite packet w) as [[e|] w1]; [apply IH|].
    destruct (readResponse rc (readTimeout s) (readExtension s) w1)
      as [[res err] w2].
    destruct (0 <? List.length res)%nat eqn:Hl.
    { cbn. split; [congruence|]. intros _ _ ->. discriminate. }
    destruct err as [e|].
    + destruct (isTimeout e); [|cbn; split; congruence].
      destruct (requireSuccess s) eqn:Hreq; cbn [negb]; [apply IH|].
      cbn. split; congruence.
    + destruct (requireSuccess s) eqn:Hreq; cbn [negb]; [apply IH|].
      cbn. split; [congruence|discriminate].
Qed.

(** Whatever the loop returns is the empty result or the lines of one
    accumulation. *)
Lemma sendLoop_lines (P : list string -> Prop) (n : nat) :
  P [] ->
  (forall a b w, P (fst (fst (readResponse rc a b w)))) ->
  forall i lerr w, P (fst (fst (sendLoop rc s cmd packet n i lerr w))).
Proof.
  intros Hnil Hread. induction n as [|n IH]; intros i lerr w.
  - cbn [sendLoop]. unfold exhausted.
    destruct (requireSuccess s); [destruct lerr|]; exact Hnil.
  - rewrite sendLoop_S.
    destruct (Net.connWrite packet w) as [[e|] w1]; [apply IH|].
    pose proof (Hread (readTimeout s) (readExtension s) w1) as Hr.
    destruct (readResponse rc (readTimeout s) (readExtension s) w1)
      as [[res err] w2]. cbn [fst] in Hr.
    destruct (0 <? List.length res)%nat; [exact Hr|].
    destruct err as [e|].
    + destruct (isTimeout e); [|exact Hnil].
      destruct (requireSuccess s); cbn [negb]; [apply IH|exact Hnil].
    + destruct (requireSuccess s); cbn [negb]; [apply IH|exact Hr].
Qed.

End ExecutorShape.

Section ExecutorShapeClaims.

(** X1.  [SendCommand] never returns lines together with an error.
    When the options require success, it returns either at least one
    line and no error, or no line and an error: never an empty
    success. *)
Theorem SendCommand_lines_or_error
        (rc : RCONClient.t) (cmd : string) (args : option string)
        (opts : list commandOption) (w : Net.net) :
  let r := fst (SendCommand rc cmd args opts w) in
  (snd r <> None -> fst r = [])
  /\ (requireSuccess (applyOptions opts (defaultSettings rc)) = true ->
      (snd r = None <-> fst r <> [])).
Proof.
  cbv zeta. unfold SendCommand. destruct (RCONClient.Conn rc).
  - match goal with
    | |- context [fst (sendLoop ?a ?b ?c ?d ?e ?f ?g ?h)] =>
        pose proof (sendLoop_shape a b c d e f g h) as H; cbv zeta in H;
        destruct (fst (sendLoop a b c d e f g h)) as [lines err]
    end.
    cbn [fst snd] in *. destruct H as [H1 H2].
    split; [exact H1|]. intros Hreq. split; [apply H2, Hreq|].
    intros Hne. destruct err as [e|]; [|reflexivity].
    exfalso. apply Hne, H1. discriminate.
  - cbn. split; [reflexivity|]. intros _. split; [discriminate|congruence].
Qed.

Lemma SendCommand_lines_or_error_witness :
  snd (fst (SendCommand client "status" None [requireResponse]
                        (peer [reply ["map: mp_nuketown"]]))) = None
  <-> fst (fst (SendCommand client "status" None [requireResponse]
                            (peer [reply ["map: mp_nuketown"]]))) <> [].
Proof.
  apply (proj2 (SendCommand_lines_or_error client "status" None [requireResponse]
                  (peer [reply ["map: mp_nuketown"]]))).
  reflexivity.
Defined.

End ExecutorShapeClaims.

Section ExecutorTrace.

Lemma observed_connWrite (packet : string) (w : Net.net) :
  Net.writeCalls (snd (Net.connWrite packet w)) = (Net.writeCalls w ++ [packet])%list
  /\ Net.sleeps (snd (Net.connWrite packet w)) = Net.sleeps w.
Proof.
  unfold Net.writeCalls, Net.sleeps. rewrite connWrite_trace, !omap_app. cbn.
  rewrite List.app_nil_r. auto.
Qed.

Lemma observed_readResponse (rc : RCONClient.t) (a b : Z) (w : Net.net) :
  Net.writeCalls (snd (readResponse rc a b w)) = Net.writeCalls w
  /\ Net.sleeps (snd (readResponse rc a b w)) = Net.sleeps w.
Proof. unfold Net.writeCalls, Net.sleeps. rewrite readResponse_trace. auto. Qed.

Lemma observed_sleep (d : Z) (w : Net.net) :
  Net.writeCalls (Net.sleep d w) = Net.writeCalls w
  /\ Net.sleeps (Net.sleep d w) = (Net.sleeps w ++ [d])%list.
Proof.
  unfold Net.writeCalls, Net.sleeps, Net.sleep. cbn. rewrite !omap_app. cbn.
  rewrite List.app_nil_r. auto.
Qed.

Lemma map_seq_shift (f : Z -> Z) (i : Z) (m : nat) :
  List.map (fun j => f (i + Z.of_nat j)%Z) (List.seq 0 (S m))
  = f i :: List.map (fun j => f (i + 1 + Z.of_nat j)%Z) (List.seq 0 m).
Proof.
  cbn [List.seq List.map]. rewrite Z.add_0_r. f_equal.
  rewrite <- List.seq_shift, List.map_map. apply List.map_ext.
  intros j. f_equal. lia.
Qed.

Variable rc : RCONClient.t.
Variable s : commandSettings.
Variables cmd packet : string.

(** The loop writes the same packet once per turn, and pauses between
    two turns only, for the back-off of the turn it leaves. *)
Lemma sendLoop_trace (n : nat) :
  forall i lerr w,
    (Z.of_nat (S n) + i = retries s + 1)%Z ->
    exists k,
      (1 <= k <= S n)%nat
      /\ Net.writeCalls (snd (sendLoop rc s cmd packet (S n) i lerr w))
         = (Net.writeCalls w ++ List.repeat packet k)%list
      /\ Net.sleeps (snd (sendLoop rc s cmd packet (S n) i lerr w))
         = (Net.sleeps w
            ++ List.map (fun j => backoff (i + Z.of_nat j)) (List.seq 0 (k - 1)))%list.
Proof.
  induction n as [|n IH]; intros i lerr w Hi.
  - (* the last turn: no pause, and the loop ends *)
    assert (Hlast : forall w1, backoffUnlessLast i s w1 = w1).
    { intros w1. unfold backoffUnlessLast.
      destruct (Z.ltb_spec i (retries s)); [lia|reflexivity]. }
    assert (Hend : forall lerr' w1,
               snd (sendLoop rc s cmd packet 0 (i + 1) lerr' w1) = w1).
    { intros lerr' w1. cbn [sendLoop]. unfold exhausted.
      destruct (requireSuccess s); [destruct lerr'|]; reflexivity. }
    exists 1%nat. rewrite sendLoop_S.
    destruct (observed_connWrite packet w) as [Hw Hs].
    destruct (Net.connWrite packet w) as [[e|] w1]; cbn [snd] in Hw, Hs.
    { rewrite Hlast, Hend. cbn. rewrite List.app_nil_r. auto with lia. }
    destruct (observed_readResponse rc (readTimeout s) (readExtension s) w1)
      as [Hw2 Hs2].
    destruct (readResponse rc (readTimeout s) (readExtension s) w1)
      as [[res err] w2]; cbn [snd] in Hw2, Hs2.
    assert (Hobs : (1 <= 1 <= 1)%nat
                   /\ Net.writeCalls w2 = (Net.writeCalls w ++ List.repeat packet 1)%list
                   /\ Net.sleeps w2 = (Net.sleeps w ++ [])%list).
    { rewrite Hw2, Hs2, Hw, Hs, List.app_nil_r. auto with lia. }
    destruct (0 <? List.length res)%nat; [exact Hobs|].
    destruct err as [e|].
    + destruct (isTimeout e); [|exact Hobs].
      destruct (requireSuccess s); cbn [negb]; [|exact Hobs].
      rewrite Hlast, Hend. exact Hobs.
    + destruct (requireSuccess s); cbn [negb]; [|exact Hobs].
      rewrite Hlast, Hend. exact Hobs.
  - (* a turn followed by others: a pause, then the rest of the loop *)
    assert (Hcont : forall lerr' w1,
               Net.writeCalls w1 = (Net.writeCalls w ++ [packet])%list ->
               Net.sleeps w1 = Net.sleeps w ->
               exists k,
                 (1 <= k <= S (S n))%nat
                 /\ Net.writeCalls
                      (snd (sendLoop rc s cmd packet (S n) (i + 1) lerr'
                                     (backoffUnlessLast i s w1)))
                    = (Net.writeCalls w ++ List.repeat packet k)%list
                 /\ Net.sleeps
                      (snd (sendLoop rc s cmd packet (S n) (i + 1) lerr'
                                     (backoffUnlessLast i s w1)))
                    = (Net.sleeps w
                       ++ List.map (fun j => backoff (i + Z.of_nat j))
                                   (List.seq 0 (k - 1)))%list).
    { intros lerr' w1 Hw Hs.
      destruct (IH (i + 1)%Z lerr' (backoffUnlessLast i s w1)) as (k & Hk & Hkw & Hks);
        [lia|].
      exists (S k). split; [lia|]. rewrite Hkw, Hks.
      unfold backoffUnlessLast. destruct (Z.ltb_spec i (retries s)); [|lia].
      destruct (observed_sleep (backoff i) w1) as [Hw' Hs'].
      rewrite Hw', Hs', Hw, Hs. split.
      - rewrite <- List.app_assoc. reflexivity.
      - replace (S k - 1)%nat with (S (k - 1)) by lia.
        rewrite map_seq_shift, <- List.app_assoc. reflexivity. }
    rewrite sendLoop_S.
    destruct (observed_connWrite packet w) as [Hw Hs].
    destruct (Net.connWrite packet w) as [[e|] w1]; cbn [snd] in Hw, Hs.
    { apply Hcont; assumption. }
    destruct (observed_readResponse rc (readTimeout s) (readExtension s) w1)
      as [Hw2 Hs2].
    destruct (readResponse rc (readTimeout s) (readExtension s) w1)
      as [[res err] w2]; cbn [snd] in Hw2, Hs2.
    rewrite Hw in Hw2. rewrite Hs in Hs2.
    assert (Hobs : exists k,
               (1 <= k <= S (S n))%nat
               /\ Net.writeCalls w2 = (Net.writeCalls w ++ List.repeat packet k)%list
               /\ Net.sleeps w2
                  = (Net.sleeps w
                     ++ List.map (fun j => backoff (i + Z.of_nat j))
                                 (List.seq 0 (k - 1)))%list).
    { exists 1%nat. cbn. rewrite List.app_nil_r. auto with lia. }
    destruct (0 <? List.length res)%nat; [exact Hobs|].
    destruct err as [e|].
    + destruct (isTimeout e); [|exact Hobs].
      destruct (requireSuccess s); cbn [negb]; [|exact Hobs].
      apply Hcont; assumption.
    + destruct (requireSuccess s); cbn [negb]; [|exact Hobs].
      apply Hcont; assumption.
Qed.

End ExecutorTrace.

Section ExecutorTraceClaims.

(** X2.  On an established connection a call of [SendCommand] with the
    options of the package writes one and the same packet, between one
    and four times, reads in between, and pauses only between two
    writes: 150 ms after the first, 300 ms after the second, 450 ms
    after the third.  It never pauses after its last write. *)
Theorem SendCommand_writes_and_pauses
        (rc : RCONClient.t) (cmd : string) (args : option string)
        (opts : list commandOption) (w : Net.net) :
  RCONClient.Conn rc <> None ->
  Forall packageOption opts ->
  exists k,
    (1 <= k <= 4)%nat
    /\ Net.writeCalls (snd (SendCommand rc cmd args opts w))
       = (Net.writeCalls w ++ List.repeat (rconPacket rc cmd args) k)%list
    /\ Net.sleeps (snd (SendCommand rc cmd args opts w))
       = (Net.sleeps w ++ pauses k)%list.
Proof.
  intros Hconn Hopts. unfold SendCommand.
  destruct (RCONClient.Conn rc); [|congruence].
  pose proof (retries_packageOptions opts (defaultSettings rc) Hopts eq_refl) as Hr.
  rewrite Hr. change (Z.to_nat (3 + 1)) with 4%nat.
  destruct (sendLoop_trace rc (applyOptions opts (defaultSettings rc)) cmd
                           (rconPacket rc cmd args) 3 0%Z None w)
    as (k & Hk & Hw & Hs); [rewrite Hr; reflexivity|].
  exists k. split; [exact Hk|]. split; [exact Hw|]. rewrite Hs. f_equal.
  destruct k as [|[|[|[|[|k]]]]]; try lia; reflexivity.
Qed.

Lemma SendCommand_writes_and_pauses_witness :
  exists k,
    (1 <= k <= 4)%nat
    /\ Net.writeCalls (snd (SendCommand client "status" None [requireResponse] (peer [])))
       = ([] ++ List.repeat (rconPacket client "status" None) k)%list
    /\ Net.sleeps (snd (SendCommand client "status" None [requireResponse] (peer [])))
       = ([] ++ pauses k)%list.
Proof.
  apply (SendCommand_writes_and_pauses client "status" None [requireResponse] (peer [])).
  - discriminate.
  - apply packageOptions_require.
Defined.

End ExecutorTraceClaims.

Section ExecutorOutcomes.

Variable rc : RCONClient.t.
Variable s : commandSettings.
Variables cmd packet : string.

(** One turn of the loop, read off the way the turn ends. *)
Lemma sendLoop_by_outcome (n : nat) (i : Z) (lerr : option error)
      (w w1 : Net.net) (o : outcome) :
  attempt rc s packet w = (o, w1) ->
  sendLoop rc s cmd packet (S n) i lerr w =
  match o with
  | WriteFailed e =>
      sendLoop rc s cmd packet n (i + 1)%Z (Some e) (backoffUnlessLast i s w1)
  | Lines res => ((res, None), w1)
  | Broken e => (([], Some e), w1)
  | TimedOut e =>
      if requireSuccess s
      then sendLoop rc s cmd packet n (i + 1)%Z (Some e) (backoffUnlessLast i s w1)
      else (([], None), w1)
  | NoLines =>
      if requireSuccess s
      then sendLoop rc s cmd packet n (i + 1)%Z lerr (backoffUnlessLast i s w1)
      else (([], None), w1)
  end.
Proof.
  unfold attempt. rewrite sendLoop_S.
  destruct (Net.connWrite packet w) as [[e|] w0].
  - intros [= <- <-]. reflexivity.
  - destruct (readResponse rc (readTimeout s) (readExtension s) w0)
      as [[res err] w2].
    destruct (0 <? List.length res)%nat eqn:Hl.
    + intros [= <- <-]. reflexivity.
    + assert (res = []) as ->.
      { destruct res; [reflexivity|discriminate]. }
      destruct err as [e|].
      * destruct (isTimeout e); intros [= <- <-];
          [destruct (requireSuccess s)|]; reflexivity.
      * intros [= <- <-]. destruct (requireSuccess s); reflexivity.
Qed.

Lemma attempts_app_last (pre : list outcome) :
  forall i w o w',
    attempts rc s packet (S (List.length pre)) i w = ((pre ++ [o])%list, w') ->
    match pre with
    | [] => exists w1, attempt rc s packet w = (o, w1)
    | p :: pre' =>
        exists w1,
          attempt rc s packet w = (p, w1)
          /\ attempts rc s packet (S (List.length pre')) (i + 1)
                      (backoffUnlessLast i s w1)
             = ((pre' ++ [o])%list, w')
    end.
Proof.
  intros i w o w' H. rewrite attempts_S in H.
  destruct (attempt rc s packet w) as [o1 w1].
  destruct pre as [|p pre'].
  - cbn [List.length attempts] in H. exists w1.
    rewrite List.app_nil_l in H. inversion H. reflexivity.
  - cbn [List.length] in H.
    destruct (attempts rc s packet (S (List.length pre')) (i + 1)
                       (backoffUnlessLast i s w1)) as [os w2] eqn:E.
    rewrite <- List.app_comm_cons in H. inversion H. subst.
    exists w1. split; [reflexivity|exact E].
Qed.

(** Without the requirement of success, the first accumulation ends
    the call, whatever it yields. *)
Lemma sendLoop_first_accumulation (es : list error) :
  requireSuccess s = false ->
  forall m i lerr w o w',
    attempts rc s packet (S (List.length es)) i w
    = ((List.map WriteFailed es ++ [o])%list, w') ->
    isWriteFailed o = false ->
    fst (sendLoop rc s cmd packet (S (List.length es) + m) i lerr w) = verdict o.
Proof.
  intros Hreq. induction es as [|e0 es IH]; intros m i lerr w o w' Hat Ho.
  - apply (attempts_app_last []) in Hat as [w1 Hat].
    cbn [List.length Nat.add]. rewrite (sendLoop_by_outcome _ _ _ _ _ _ Hat).
    rewrite Hreq. destruct o; try reflexivity. discriminate.
  - cbn [List.map List.length] in Hat.
    replace (S (List.length es)) with (List.length (WriteFailed e0 :: List.map WriteFailed es))
      in Hat by (cbn; rewrite List.length_map; reflexivity).
    apply (attempts_app_last (WriteFailed e0 :: List.map WriteFailed es)) in Hat
      as (w1 & Hat & Hrest).
    rewrite List.length_map in Hrest.
    cbn [List.length Nat.add]. rewrite (sendLoop_by_outcome _ _ _ _ _ _ Hat).
    apply (IH m _ _ _ _ _ Hrest Ho).
Qed.

(** With the requirement of success, fruitless turns are followed by
    another turn, and the first turn that yields lines, or breaks,
    ends the call. *)
Lemma sendLoop_retries_until (pre : list outcome) :
  requireSuccess s = true ->
  forall m i lerr w o w',
    attempts rc s packet (S (List.length pre)) i w = ((pre ++ [o])%list, w') ->
    forallb fruitless pre = true ->
    fruitless o = false ->
    fst (sendLoop rc s cmd packet (S (List.length pre) + m) i lerr w) = verdict o.
Proof.
  intros Hreq. induction pre as [|p pre IH]; intros m i lerr w o w' Hat Hpre Ho.
  - apply (attempts_app_last []) in Hat as [w1 Hat].
    cbn [List.length Nat.add]. rewrite (sendLoop_by_outcome _ _ _ _ _ _ Hat).
    destruct o; try discriminate; reflexivity.
  - apply (attempts_app_last (p :: pre)) in Hat as (w1 & Hat & Hrest).
    cbn [forallb] in Hpre. apply andb_true_iff in Hpre as [Hp Hpre].
    cbn [List.length Nat.add]. rewrite (sendLoop_by_outcome _ _ _ _ _ _ Hat).
    rewrite Hreq.
    destruct p; try discriminate; apply (IH m _ _ _ _ _ Hrest Hpre Ho).
Qed.

Lemma exhausted_fst (lerr : option error) (w1 w2 : Net.net) :
  fst (exhausted s cmd lerr w1) = fst (exhausted s cmd lerr w2).
Proof. unfold exhausted. destruct (requireSuccess s); [destruct lerr|]; reflexivity. Qed.

Lemma backoffUnlessLast_frame (i : Z) (w : Net.net) :
  Net.reads (backoffUnlessLast i s w) = Net.reads w
  /\ Net.writes (backoffUnlessLast i s w) = Net.writes w
  /\ Net.closed (backoffUnlessLast i s w) = Net.closed w.
Proof. unfold backoffUnlessLast. destruct (i <? retries s)%Z; auto. Qed.

(** On an open socket whose coming writes all fail, every turn fails
    at its write: nothing is read, and the loop ends by itself. *)
Lemma sendLoop_writes_fail (es : list error) :
  forall i lerr w rest,
    Net.closed w = false ->
    Net.writes w = (List.map Some es ++ rest)%list ->
    let r := sendLoop rc s cmd packet (List.length es) i lerr w in
    fst r = fst (exhausted s cmd (remembered lerr (List.map WriteFailed es)) w)
    /\ Net.reads (snd r) = Net.reads w
    /\ Net.writes (snd r) = rest
    /\ Net.closed (snd r) = false
    /\ Net.writeCalls (snd r)
       = (Net.writeCalls w ++ List.repeat packet (List.length es))%list
    /\ Net.sleeps (snd r) = (Net.sleeps w ++ pausedTurns s (List.length es) i)%list.
Proof.
  induction es as [|e es IH]; intros i lerr w rest Hopen Hw; cbv zeta.
  - cbn [List.length sendLoop List.map remembered List.repeat pausedTurns].
    cbn in Hw. subst rest. rewrite !List.app_nil_r.
    unfold exhausted. destruct (requireSuccess s); [destruct lerr|]; auto 10.
  - cbn [List.length]. rewrite sendLoop_S.
    destruct (observed_connWrite packet w) as [Ow Os]. revert Ow Os.
    unfold Net.connWrite. cbn [Net.log Net.closed Net.writes]. rewrite Hopen, Hw.
    cbn [List.map List.app remembered snd].
    set (w1 := Net.mkNet _ _ _ _ _). intros Ow Os.
    destruct (backoffUnlessLast_frame i w1) as (F1 & F2 & F3).
    destruct (IH (i + 1)%Z (Some e) (backoffUnlessLast i s w1) rest)
      as (H1 & H2 & H3 & H4 & H5 & H6);
      [rewrite F3; reflexivity|rewrite F2; reflexivity|].
    rewrite H1, H2, H3, H4, H5, H6, F1.
    split; [apply exhausted_fst|]. do 3 (split; [reflexivity|]).
    cbn [List.repeat pausedTurns]. unfold backoffUnlessLast.
    destruct (i <? retries s)%Z.
    + destruct (observed_sleep (backoff i) w1) as [Sw Ss].
      rewrite Sw, Ss, Ow, Os, <- !List.app_assoc. auto.
    + rewrite Ow, Os, <- !List.app_assoc. auto.
Qed.

End ExecutorOutcomes.

Section ExecutorOutcomeClaims.

Variable rc : RCONClient.t.
Hypothesis established : RCONClient.Conn rc <> None.

(** X3.  On an established connection and an open socket, when the
    four writes of a call of [SendCommand] all fail, the call returns
    the error of the last write, whether or not success is required.
    It reads nothing, and it has paused 150, 300 and 450 ms between the
    writes. *)
Theorem SendCommand_every_write_fails
        (cmd : string) (args : option string) (opts : list commandOption)
        (w : Net.net) (e1 e2 e3 e4 : error) (rest : list (option error)) :
  Forall packageOption opts ->
  Net.closed w = false ->
  Net.writes w = Some e1 :: Some e2 :: Some e3 :: Some e4 :: rest ->
  fst (SendCommand rc cmd args opts w) = ([], Some e4)
  /\ Net.reads (snd (SendCommand rc cmd args opts w)) = Net.reads w
  /\ Net.writes (snd (SendCommand rc cmd args opts w)) = rest
  /\ Net.writeCalls (snd (SendCommand rc cmd args opts w))
     = (Net.writeCalls w ++ List.repeat (rconPacket rc cmd args) 4)%list
  /\ Net.sleeps (snd (SendCommand rc cmd args opts w))
     = (Net.sleeps w ++ [150 * Millisecond; 300 * Millisecond; 450 * Millisecond]%Z)%list.
Proof.
  intros Hopts Hopen Hw. unfold SendCommand.
  destruct (RCONClient.Conn rc); [|congruence].
  pose proof (retries_packageOptions opts (defaultSettings rc) Hopts eq_refl) as Hr.
  rewrite Hr. change (Z.to_nat (3 + 1)) with (List.length [e1; e2; e3; e4]).
  destruct (sendLoop_writes_fail rc (applyOptions opts (defaultSettings rc)) cmd
              (rconPacket rc cmd args) [e1; e2; e3; e4] 0%Z None w rest Hopen Hw)
    as (H1 & H2 & H3 & _ & H5 & H6).
  rewrite H1, H2, H3, H5, H6. cbn [pausedTurns List.length]. rewrite Hr.
  split; [|auto].
  unfold exhausted. cbn. destruct (requireSuccess _); reflexivity.
Qed.

(** X4.  A call of [SendCommand] that does not require success makes
    one accumulation at most.  After failed writes (at most [retries]
    of them) the first write that goes through is followed by the
    accumulation that ends the call: its lines are returned, its error
    is returned unless it is a timeout, and a timeout or an empty
    response give the empty result without error. *)
Theorem SendCommand_first_accumulation_decides
        (cmd : string) (args : option string) (opts : list commandOption)
        (w w' : Net.net) (es : list error) (o : outcome) :
  requireSuccess (applyOptions opts (defaultSettings rc)) = false ->
  (Z.of_nat (List.length es) <= retries (applyOptions opts (defaultSettings rc)))%Z ->
  attempts rc (applyOptions opts (defaultSettings rc)) (rconPacket rc cmd args)
           (S (List.length es)) 0 w
  = ((List.map WriteFailed es ++ [o])%list, w') ->
  isWriteFailed o = false ->
  fst (SendCommand rc cmd args opts w) = verdict o.
Proof.
  intros Hreq Hlen Hat Ho. unfold SendCommand.
  destruct (RCONClient.Conn rc); [|congruence].
  set (s := applyOptions opts (defaultSettings rc)) in *.
  replace (Z.to_nat (retries s + 1))
    with (S (List.length es) + (Z.to_nat (retries s) - List.length es))%nat by lia.
  eapply sendLoop_first_accumulation; eassumption.
Qed.

(** X5.  A call of [SendCommand] that requires success goes on after
    every turn that ends in a failed write, a timeout with nothing
    accumulated or an empty response, as long as turns are left; the
    first turn that yields lines ends the call with these lines and no
    error, and the first accumulation that fails with another error
    than a timeout ends it with that error. *)
Theorem SendCommand_retries_until_lines
        (cmd : string) (args : option string) (opts : list commandOption)
        (w w' : Net.net) (pre : list outcome) (o : outcome) :
  requireSuccess (applyOptions opts (defaultSettings rc)) = true ->
  (Z.of_nat (List.length pre) <= retries (applyOptions opts (defaultSettings rc)))%Z ->
  attempts rc (applyOptions opts (defaultSettings rc)) (rconPacket rc cmd args)
           (S (List.length pre)) 0 w
  = ((pre ++ [o])%list, w') ->
  forallb fruitless pre = true ->
  fruitless o = false ->
  fst (SendCommand rc cmd args opts w) = verdict o.
Proof.
  intros Hreq Hlen Hat Hpre Ho. unfold SendCommand.
  destruct (RCONClient.Conn rc); [|congruence].
  set (s := applyOptions opts (defaultSettings rc)) in *.
  replace (Z.to_nat (retries s + 1))
    with (S (List.length pre) + (Z.to_nat (retries s) - List.length pre))%nat by lia.
  eapply sendLoop_retries_until; eassumption.
Qed.

End ExecutorOutcomeClaims.

Section ExecutorOutcomeExamples.

Lemma SendCommand_every_write_fails_witness :
  fst (SendCommand client "say" (Some "hello") []
                   (Net.mkNet false [Some refused; Some refused; Some refused;
                                     Some refused] [] [] 0))
  = ([], Some refused).
Proof.
  assert (E : RCONClient.Conn client <> None) by discriminate.
  apply (proj1 (SendCommand_every_write_fails client E "say" (Some "hello") []
                  (Net.mkNet false [Some refused; Some refused; Some refused;
                                    Some refused] [] [] 0)
                  refused refused refused refused [] (List.Forall_nil _)
                  eq_refl eq_refl)).
Defined.

Lemma SendCommand_first_accumulation_decides_witness :
  fst (SendCommand client "say" (Some "hello") []
                   (Net.mkNet false [Some refused] [reply ["ok"]] [] 0))
  = (["ok"], None).
Proof.
  assert (E : RCONClient.Conn client <> None) by discriminate.
  set (w := Net.mkNet _ _ _ _ _).
  apply (SendCommand_first_accumulation_decides client E "say" (Some "hello") [] w
           (snd (attempts client (defaultSettings client)
                          (rconPacket client "say" (Some "hello")) 2 0 w))
           [refused] (Lines ["ok"])).
  - reflexivity.
  - vm_compute. discriminate.
  - vm_compute. reflexivity.
  - reflexivity.
Defined.

Lemma SendCommand_retries_until_lines_witness :
  fst (SendCommand client "status" None [requireResponse]
                   (peer [deadline; Net.Datagram LF; deadline;
                          reply ["map: mp_nuketown"]]))
  = (["map: mp_nuketown"], None).
Proof.
  assert (E : RCONClient.Conn client <> None) by discriminate.
  set (w := peer _).
  apply (SendCommand_retries_until_lines client E "status" None [requireResponse] w
           (snd (attempts client (applyOptions [requireResponse] (defaultSettings client))
                          (rconPacket client "status" None) 3 0 w))
           [TimedOut Net.errDeadline; NoLines] (Lines ["map: mp_nuketown"])).
  - reflexivity.
  - vm_compute. discriminate.
  - vm_compute. reflexivity.
  - reflexivity.
  - reflexivity.
Defined.

End ExecutorOutcomeExamples.

(* ===================================================================== *)
(** ** Further facts on byte strings *)
(* ===================================================================== *)

Section TrimFacts.

Lemma hasByte_app (s t : string) (a : ascii) :
  hasByte (s ++ t) a = hasByte s a || hasByte t a.
Proof.
  induction s as [|b s IH]; [reflexivity|].
  rewrite append_cons. cbn [hasByte]. rewrite IH, orb_assoc. reflexivity.
Qed.

Lemma rev_onto_rev_onto (s acc acc' : string) :
  rev_onto (rev_onto s acc) acc' = rev_onto acc (s ++ acc').
Proof.
  revert acc acc'; induction s as [|a s IH]; intros acc acc'; [reflexivity|].
  cbn [rev_onto]. rewrite IH. reflexivity.
Qed.

Lemma rev_involutive (s : string) : rev (rev s) = s.
Proof. unfold rev. rewrite rev_onto_rev_onto. cbn. apply append_empty_r. Qed.

Lemma hasByte_rev_onto (s acc : string) (a : ascii) :
  hasByte (rev_onto s acc) a = hasByte s a || hasByte acc a.
Proof.
  revert acc; induction s as [|b s IH]; intros acc; [reflexivity|].
  cbn [rev_onto hasByte]. rewrite IH. cbn [hasByte].
  destruct (Ascii.eqb a b), (hasByte s a), (hasByte acc a); reflexivity.
Qed.

Lemma hasByte_rev (s : string) (a : ascii) : hasByte (rev s) a = hasByte s a.
Proof. unfold rev. rewrite hasByte_rev_onto. cbn. apply orb_false_r. Qed.

(** Trimming on the left only drops leading bytes. *)
Lemma trimLeft_drops (P : string -> string -> Prop) :
  (forall s, P s s) ->
  (forall a s r, P s r -> P (String a s) r) ->
  forall s, P s (Strings.trimLeft s) /\ P s (Strings.trimLeftRev s).
Proof.
  intros Hrefl Hdrop.
  assert (H : forall n s, (String.length s <= n)%nat ->
                     P s (Strings.trimLeft s) /\ P s (Strings.trimLeftRev s)).
  { induction n as [|n IH]; intros s Hn.
    - destruct s; [split; apply Hrefl|cbn in Hn; lia].
    - destruct s as [|a [|b [|c s3]]]; try (split; apply Hrefl).
      + cbn. destruct (Strings.asciiSpace a); split; auto.
      + assert (H1 : P (String b "") (Strings.trimLeft (String b ""))
                     /\ P (String b "") (Strings.trimLeftRev (String b "")))
          by (apply IH; cbn in *; lia).
        cbn [Strings.trimLeft Strings.trimLeftRev].
        split.
        * destruct (Strings.asciiSpace a); [apply Hdrop, H1|].
          destruct (Strings.space2 a b); [|apply Hrefl]. auto.
        * destruct (Strings.asciiSpace a); [apply Hdrop, H1|].
          destruct (Strings.space2 b a); [|apply Hrefl]. auto.
      + assert (H1 : forall t, (String.length t <= n)%nat ->
                         P t (Strings.trimLeft t) /\ P t (Strings.trimLeftRev t))
          by exact IH.
        cbn in Hn.
        cbn [Strings.trimLeft Strings.trimLeftRev].
        split.
        * destruct (Strings.asciiSpace a);
            [apply Hdrop, (H1 (String b (String c s3))); cbn; lia|].
          destruct (Strings.space2 a b);
            [apply Hdrop, Hdrop, (H1 (String c s3)); cbn; lia|].
          destruct (Strings.space3 a b c); [|apply Hrefl].
          apply Hdrop, Hdrop, Hdrop, (H1 s3). lia.
        * destruct (Strings.asciiSpace a);
            [apply Hdrop, (H1 (String b (String c s3))); cbn; lia|].
          destruct (Strings.space2 b a);
            [apply Hdrop, Hdrop, (H1 (String c s3)); cbn; lia|].
          destruct (Strings.space3 c b a); [|apply Hrefl].
          apply Hdrop, Hdrop, Hdrop, (H1 s3). lia. }
  intros s. apply (H (String.length s)). lia.
Qed.

(** [TrimSpace] brings no byte in. *)
Lemma TrimSpace_hasByte (s : string) (a : ascii) :
  hasByte s a = false -> hasByte (Strings.TrimSpace s) a = false.
Proof.
  assert (L : forall t, (hasByte t a = false -> hasByte (Strings.trimLeft t) a = false)
                   /\ (hasByte t a = false -> hasByte (Strings.trimLeftRev t) a = false)).
  { apply (trimLeft_drops (fun t r => hasByte t a = false -> hasByte r a = false)).
    - auto.
    - intros b t r IH H. cbn [hasByte] in H. apply orb_false_iff in H as [_ H]. auto. }
  intros H. unfold Strings.TrimSpace, Strings.trimRight.
  rewrite hasByte_rev. apply L. rewrite hasByte_rev. apply L, H.
Qed.

Lemma Split_no_sep (s : string) (sep : ascii) :
  Forall (fun p => hasByte p sep = false) (Strings.Split s sep).
Proof.
  induction s as [|a s IH]; [repeat constructor|].
  cbn [Strings.Split]. destruct (Ascii.eqb_spec a sep) as [->|Hne].
  - constructor; [reflexivity|exact IH].
  - destruct (Strings.Split s sep) as [|x xs]; [repeat constructor|].
    + cbn. apply orb_false_iff. split; [|reflexivity].
      apply Ascii.eqb_neq. congruence.
    + inversion IH; subst. constructor; [|assumption].
      cbn. apply orb_false_iff. split; [|assumption].
      apply Ascii.eqb_neq. congruence.
Qed.

Lemma Split_without_sep (s : string) (sep : ascii) :
  hasByte s sep = false -> Strings.Split s sep = [s].
Proof.
  induction s as [|a s IH]; [reflexivity|].
  cbn [hasByte Strings.Split]. intros H. apply orb_false_iff in H as [Ha Hs].
  rewrite Ascii.eqb_sym in Ha. rewrite Ha, (IH Hs). reflexivity.
Qed.

Lemma nonEmptyTrimmed_lines (parts : list string) (a : ascii) :
  Forall (fun p => hasByte p a = false) parts ->
  Forall (fun l => l <> "" /\ hasByte l a = false) (nonEmptyTrimmed parts).
Proof.
  induction 1 as [|p parts Hp _ IH]; [constructor|].
  cbn [nonEmptyTrimmed].
  destruct (isEmpty (Strings.TrimSpace p)) eqn:E; [exact IH|].
  constructor; [|exact IH].
  split; [apply isEmpty_false, E|apply TrimSpace_hasByte, Hp].
Qed.

End TrimFacts.

Section TrimStable.

Lemma rev_onto_append (s acc : string) : rev_onto s acc = rev s ++ acc.
Proof.
  unfold rev. revert acc; induction s as [|a s IH]; intros acc; [reflexivity|].
  cbn [rev_onto]. rewrite (IH (String a acc)), (IH (String a "")).
  rewrite append_assoc. reflexivity.
Qed.

Lemma rev_app (s t : string) : rev (s ++ t) = rev t ++ rev s.
Proof.
  induction s as [|a s IH].
  - cbn. symmetry. apply append_empty_r.
  - rewrite append_cons. unfold rev at 1 3. cbn [rev_onto].
    rewrite !rev_onto_append, IH, append_assoc. reflexivity.
Qed.

Lemma append_length (s t : string) :
  String.length (s ++ t) = (String.length s + String.length t)%nat.
Proof.
  induction s as [|a s IH]; [reflexivity|].
  rewrite append_cons. cbn [String.length]. rewrite IH. reflexivity.
Qed.

(** What trimming returns it leaves alone. *)
Lemma trimLeft_cases (P : string -> string -> Prop) :
  (forall s, Strings.trimLeft s = s -> P s s) ->
  (forall a s r, P s r -> P (String a s) r) ->
  forall s, P s (Strings.trimLeft s).
Proof.
  intros Hrefl Hdrop.
  assert (H : forall n s, (String.length s <= n)%nat -> P s (Strings.trimLeft s)).
  { induction n as [|n IH]; intros s Hn.
    - destruct s; [apply Hrefl; reflexivity|cbn in Hn; lia].
    - destruct s as [|a [|b [|c s3]]]; cbn in Hn.
      + apply Hrefl. reflexivity.
      + cbn [Strings.trimLeft]. destruct (Strings.asciiSpace a) eqn:Ea.
        * apply Hdrop, Hrefl. reflexivity.
        * apply Hrefl. cbn. rewrite Ea. reflexivity.
      + cbn [Strings.trimLeft]. destruct (Strings.asciiSpace a) eqn:Ea.
        * apply Hdrop, (IH (String b "")). cbn. lia.
        * destruct (Strings.space2 a b) eqn:E2.
          -- apply Hdrop, Hdrop, Hrefl. reflexivity.
          -- apply Hrefl. cbn. rewrite Ea, E2. reflexivity.
      + cbn [Strings.trimLeft]. destruct (Strings.asciiSpace a) eqn:Ea.
        * apply Hdrop, (IH (String b (String c s3))). cbn. lia.
        * destruct (Strings.space2 a b) eqn:E2.
          -- apply Hdrop, Hdrop, (IH (String c s3)). cbn. lia.
          -- destruct (Strings.space3 a b c) eqn:E3.
             ++ apply Hdrop, Hdrop, Hdrop, (IH s3). lia.
             ++ apply Hrefl. cbn. rewrite Ea, E2, E3. reflexivity. }
  intros s. apply (H (String.length s)). lia.
Qed.

Lemma trimLeftRev_cases (P : string -> string -> Prop) :
  (forall s, Strings.trimLeftRev s = s -> P s s) ->
  (forall a s r, P s r -> P (String a s) r) ->
  forall s, P s (Strings.trimLeftRev s).
Proof.
  intros Hrefl Hdrop.
  assert (H : forall n s, (String.length s <= n)%nat -> P s (Strings.trimLeftRev s)).
  { induction n as [|n IH]; intros s Hn.
    - destruct s; [apply Hrefl; reflexivity|cbn in Hn; lia].
    - destruct s as [|a [|b [|c s3]]]; cbn in Hn.
      + apply Hrefl. reflexivity.
      + cbn [Strings.trimLeftRev]. destruct (Strings.asciiSpace a) eqn:Ea.
        * apply Hdrop, Hrefl. reflexivity.
        * apply Hrefl. cbn. rewrite Ea. reflexivity.
      + cbn [Strings.trimLeftRev]. destruct (Strings.asciiSpace a) eqn:Ea.
        * apply Hdrop, (IH (String b "")). cbn. lia.
        * destruct (Strings.space2 b a) eqn:E2.
          -- apply Hdrop, Hdrop, Hrefl. reflexivity.
          -- apply Hrefl. cbn. rewrite Ea, E2. reflexivity.
      + cbn [Strings.trimLeftRev]. destruct (Strings.asciiSpace a) eqn:Ea.
        * apply Hdrop, (IH (String b (String c s3))). cbn. lia.
        * destruct (Strings.space2 b a) eqn:E2.
          -- apply Hdrop, Hdrop, (IH (String c s3)). cbn. lia.
          -- destruct (Strings.space3 c b a) eqn:E3.
             ++ apply Hdrop, Hdrop, Hdrop, (IH s3). lia.
             ++ apply Hrefl. cbn. rewrite Ea, E2, E3. reflexivity. }
  intros s. apply (H (String.length s)). lia.
Qed.

Lemma trimLeft_stable (s : string) :
  Strings.trimLeft (Strings.trimLeft s) = Strings.trimLeft s.
Proof.
  apply (trimLeft_cases (fun _ r => Strings.trimLeft r = r)); auto.
Qed.

Lemma trimLeftRev_stable (s : string) :
  Strings.trimLeftRev (Strings.trimLeftRev s) = Strings.trimLeftRev s.
Proof.
  apply (trimLeftRev_cases (fun _ r => Strings.trimLeftRev r = r)); auto.
Qed.

Lemma trimLeft_length (s : string) :
  (String.length (Strings.trimLeft s) <= String.length s)%nat.
Proof.
  apply (trimLeft_cases (fun t r => (String.length r <= String.length t)%nat)).
  - intros; lia.
  - intros a t r H. cbn [String.length]. lia.
Qed.

Lemma trimLeftRev_suffix (s : string) :
  exists pre, s = pre ++ Strings.trimLeftRev s.
Proof.
  apply (trimLeftRev_cases (fun t r => exists pre, t = pre ++ r)).
  - intros t _. exists "". reflexivity.
  - intros a t r [pre ->]. exists (String a pre). reflexivity.
Qed.

Lemma trimRight_prefix (s : string) :
  exists post, s = Strings.trimRight s ++ post.
Proof.
  unfold Strings.trimRight.
  destruct (trimLeftRev_suffix (rev s)) as [pre H].
  exists (rev pre).
  rewrite <- (rev_involutive s) at 1. rewrite H at 1. apply rev_app.
Qed.

Lemma trimRight_stable (s : string) :
  Strings.trimRight (Strings.trimRight s) = Strings.trimRight s.
Proof.
  unfold Strings.trimRight. rewrite rev_involutive, trimLeftRev_stable.
  reflexivity.
Qed.

Lemma trimLeft_space (a : ascii) (s : string) :
  Strings.asciiSpace a = true ->
  Strings.trimLeft (String a s) = Strings.trimLeft s.
Proof. intros H. cbn. rewrite H. reflexivity. Qed.

Lemma trimLeft_space2 (a b : ascii) (s : string) :
  Strings.asciiSpace a = false -> Strings.space2 a b = true ->
  Strings.trimLeft (String a (String b s)) = Strings.trimLeft s.
Proof. intros H1 H2. cbn. rewrite H1, H2. reflexivity. Qed.

Lemma trimLeft_space3 (a b c : ascii) (s : string) :
  Strings.asciiSpace a = false -> Strings.space2 a b = false ->
  Strings.space3 a b c = true ->
  Strings.trimLeft (String a (String b (String c s))) = Strings.trimLeft s.
Proof. intros H1 H2 H3. cbn. rewrite H1, H2, H3. reflexivity. Qed.

(** A prefix of a string without leading white space has none. *)
Lemma trimLeft_prefix (y z : string) :
  Strings.trimLeft (y ++ z) = y ++ z -> Strings.trimLeft y = y.
Proof.
  assert (L : forall t u, (String.length t < String.length u)%nat ->
                     Strings.trimLeft t <> u).
  { intros t u Hlt E. pose proof (trimLeft_length t). rewrite E in *. lia. }
  destruct y as [|a y1]; [reflexivity|].
  rewrite append_cons.
  destruct (Strings.asciiSpace a) eqn:Ea.
  { rewrite trimLeft_space by assumption.
    intros H. apply L in H; [easy|]. cbn. lia. }
  destruct y1 as [|b y2]; [intros _; cbn; rewrite Ea; reflexivity|].
  rewrite append_cons.
  destruct (Strings.space2 a b) eqn:E2.
  { rewrite trimLeft_space2 by assumption.
    intros H. apply L in H; [easy|]. cbn. lia. }
  destruct y2 as [|c y3]; [intros _; cbn; rewrite Ea, E2; reflexivity|].
  rewrite append_cons.
  destruct (Strings.space3 a b c) eqn:E3.
  { rewrite trimLeft_space3 by assumption.
    intros H. apply L in H; [easy|]. cbn. lia. }
  intros _; cbn; rewrite Ea, E2, E3; reflexivity.
Qed.

Lemma TrimSpace_stable (s : string) :
  Strings.TrimSpace (Strings.TrimSpace s) = Strings.TrimSpace s.
Proof.
  unfold Strings.TrimSpace.
  assert (H : Strings.trimLeft (Strings.trimRight (Strings.trimLeft s))
              = Strings.trimRight (Strings.trimLeft s)).
  { destruct (trimRight_prefix (Strings.trimLeft s)) as [post Hp].
    apply (trimLeft_prefix _ post). rewrite <- Hp. apply trimLeft_stable. }
  rewrite H. apply trimRight_stable.
Qed.

Lemma TrimSpace_empty : Strings.TrimSpace "" = "".
Proof. reflexivity. Qed.

End TrimStable.

(* ===================================================================== *)
(** ** Further properties of the read path *)
(* ===================================================================== *)

Section ReadPath.

Lemma readLoop_datagrams (ps : list string) (tail : list Net.readEvent) :
  forall buf,
    readLoop (map Net.Datagram ps ++ tail)%list buf
    = readLoop tail (buf ++ received ps).
Proof.
  induction ps as [|p ps IH]; intros buf.
  - cbn [map received]. rewrite List.app_nil_l, append_empty_r. reflexivity.
  - cbn [map received]. rewrite <- List.app_comm_cons. cbn [readLoop].
    fold (kept p). rewrite <- append_assoc.
    destruct (kept p) eqn:Ek.
    + cbn [String.length Nat.ltb Nat.leb]. rewrite append_empty_r. apply IH.
    + cbn [String.length Nat.ltb Nat.leb]. apply IH.
Qed.

Lemma split_Split_app (l rest : string) (sep : ascii) :
  hasByte l sep = false ->
  Strings.Split (l ++ String sep rest) sep = l :: Strings.Split rest sep.
Proof.
  induction l as [|a l IH]; intros H.
  - change ("" ++ String sep rest) with (String sep rest).
    cbn [Strings.Split]. rewrite Ascii.eqb_refl. reflexivity.
  - cbn [hasByte] in H. apply orb_false_iff in H as [Ha Hl].
    rewrite append_cons. cbn [Strings.Split].
    rewrite Ascii.eqb_sym in Ha. rewrite Ha, (IH Hl). reflexivity.
Qed.

Lemma nonEmptyTrimmed_clean (parts : list string) :
  Forall (fun p => hasByte p nl = false) parts ->
  Forall cleanLine (nonEmptyTrimmed parts).
Proof.
  induction 1 as [|p parts Hp _ IH]; [constructor|].
  cbn [nonEmptyTrimmed].
  destruct (isEmpty (Strings.TrimSpace p)) eqn:E; [exact IH|].
  constructor; [|exact IH].
  repeat split.
  - apply isEmpty_false, E.
  - apply TrimSpace_hasByte, Hp.
  - apply TrimSpace_stable.
Qed.

Lemma nonEmptyTrimmed_joinLines (ls : list string) :
  Forall cleanLine ls ->
  nonEmptyTrimmed (Strings.Split (joinLines ls) nl) = ls.
Proof.
  induction 1 as [|l ls [Hne [Hnl Htrim]] _ IH]; [reflexivity|].
  cbn [joinLines]. unfold LF. rewrite append_cons.
  change ("" ++ joinLines ls) with (joinLines ls).
  rewrite (split_Split_app _ _ _ Hnl). cbn [nonEmptyTrimmed].
  rewrite Htrim. apply isEmpty_false in Hne. rewrite Hne, IH. reflexivity.
Qed.

Lemma splitNonEmptyLines_Forall (s : string) :
  Forall cleanLine (splitNonEmptyLines s).
Proof.
  unfold splitNonEmptyLines. destruct (isEmpty s); [constructor|].
  apply nonEmptyTrimmed_clean, Split_no_sep.
Qed.

Lemma readResponse_Forall (rc : RCONClient.t) (a b : Z) (w : Net.net) :
  Forall cleanLine (fst (fst (readResponse rc a b w))).
Proof.
  unfold readResponse. destruct (Net.closed w); [constructor|].
  destruct (readLoop (Net.reads w) "") as [[buf|e] evs]; [|constructor].
  destruct (isEmpty (normalizeRCON buf)); [constructor|].
  apply splitNonEmptyLines_Forall.
Qed.

Lemma SendCommand_Forall (rc : RCONClient.t) (cmd : string) (args : option string)
      (opts : list commandOption) (w : Net.net) :
  Forall cleanLine (fst (fst (SendCommand rc cmd args opts w))).
Proof.
  unfold SendCommand. destruct (RCONClient.Conn rc); [|constructor].
  apply sendLoop_lines; [constructor|]. apply readResponse_Forall.
Qed.

End ReadPath.

Section ReadPathClaims.

(** X6.  On an open socket, [readResponse] that meets the datagrams
    [ps] and then a failing read returns the error of that read and no
    line, whatever was received, unless the error is a timeout and
    something was received: then it returns, with no error, the lines
    of the normalized concatenation of the datagrams, each cut to the
    4096 bytes of the buffer.  The events after the failing read stay
    for the next call. *)
Theorem readResponse_collects
        (rc : RCONClient.t) (readTimeout readExtension : Z) (w : Net.net)
        (ps : list string) (e : error) (rest : list Net.readEvent) :
  Net.closed w = false ->
  Net.reads w = (map Net.Datagram ps ++ Net.ReadFails e :: rest)%list ->
  readResponse rc readTimeout readExtension w
  = (if isTimeout e && negb (isEmpty (received ps))
     then (splitNonEmptyLines (normalizeRCON (received ps)), None)
     else ([], Some e),
     Net.setReads rest w).
Proof.
  intros Hopen Hreads. unfold readResponse.
  rewrite Hopen, Hreads, readLoop_datagrams. cbn [readLoop].
  change ("" ++ received ps) with (received ps).
  destruct (isTimeout e); [|reflexivity].
  destruct (isEmpty (received ps)) eqn:Hb; cbn [andb negb]; [reflexivity|].
  destruct (isEmpty (normalizeRCON (received ps))) eqn:Hn; [|reflexivity].
  apply isEmpty_true in Hn. rewrite Hn. reflexivity.
Qed.

Lemma readResponse_collects_witness :
  readResponse client Second 0
               (peer [Net.Datagram (sentinel ++ printLF ++ "map: mp_nuketown" ++ LF);
                      Net.Datagram ("num score ping" ++ LF);
                      deadline; Net.Datagram "late"])
  = ((["map: mp_nuketown"; "num score ping"], None),
     Net.setReads [Net.Datagram "late"] (peer [])).
Proof.
  exact (readResponse_collects client Second 0
           (peer [Net.Datagram (sentinel ++ printLF ++ "map: mp_nuketown" ++ LF);
                  Net.Datagram ("num score ping" ++ LF);
                  deadline; Net.Datagram "late"])
           [sentinel ++ printLF ++ "map: mp_nuketown" ++ LF; "num score ping" ++ LF]
           Net.errDeadline [Net.Datagram "late"] eq_refl eq_refl).
Defined.

(** X7.  Every line [splitNonEmptyLines] returns is not empty, holds no
    line feed and has no white space around it. *)
Theorem splitNonEmptyLines_clean (s : string) (l : string) :
  In l (splitNonEmptyLines s) -> cleanLine l.
Proof.
  intros H. pose proof (splitNonEmptyLines_Forall s) as F.
  rewrite List.Forall_forall in F. apply F, H.
Qed.

Lemma splitNonEmptyLines_clean_witness :
  cleanLine "num score ping".
Proof.
  apply (splitNonEmptyLines_clean
           ("map: mp_nuketown" ++ LF ++ LF ++ "  num score ping " ++ LF)).
  vm_compute. right. left. reflexivity.
Defined.

(** X8.  [splitNonEmptyLines] undoes the joining of lines by line
    feeds: lines that are not empty, hold no line feed and have no
    white space around them come back as they were, in order. *)
Theorem splitNonEmptyLines_joinLines (ls : list string) :
  Forall cleanLine ls -> splitNonEmptyLines (joinLines ls) = ls.
Proof.
  intros H. pose proof (nonEmptyTrimmed_joinLines ls H) as G.
  unfold splitNonEmptyLines. destruct (isEmpty (joinLines ls)) eqn:E; [|exact G].
  apply isEmpty_true in E. rewrite E in G. cbn in G. congruence.
Qed.

Lemma splitNonEmptyLines_joinLines_witness :
  splitNonEmptyLines (joinLines ["map: mp_nuketown"; "num score ping"])
  = ["map: mp_nuketown"; "num score ping"].
Proof.
  apply (splitNonEmptyLines_joinLines ["map: mp_nuketown"; "num score ping"]).
  repeat constructor; vm_compute; congruence.
Defined.

(** X9.  Every line [SendCommand] returns, whatever the peer sends and
    whatever the options, is not empty, holds no line feed and has no
    white space around it. *)
Theorem SendCommand_lines_clean
        (rc : RCONClient.t) (cmd : string) (args : option string)
        (opts : list commandOption) (w : Net.net) :
  Forall cleanLine (fst (fst (SendCommand rc cmd args opts w))).
Proof.
  unfold SendCommand. destruct (RCONClient.Conn rc); [|constructor].
  apply sendLoop_lines; [constructor|].
  intros a b w0. unfold readResponse. destruct (Net.closed w0); [constructor|].
  destruct (readLoop (Net.reads w0) "") as [[buf|e] evs]; [|constructor].
  destruct (isEmpty (normalizeRCON buf)); [constructor|].
  apply splitNonEmptyLines_Forall.
Qed.

End ReadPathClaims.

(* ===================================================================== *)
(** ** Further properties of the decoders *)
(* ===================================================================== *)

Section ColourCodes.

(** What the scan returns is its input with some bytes left out. *)
Lemma stripColorCodes_drops (P : string -> string -> Prop) :
  P "" "" ->
  (forall a s r, P s r -> P (String a s) (String a r)) ->
  (forall a s r, P s r -> P (String a s) r) ->
  forall s, P s (stripColorCodes s).
Proof.
  intros Hnil Hkeep Hdrop.
  assert (H : forall n s, (String.length s <= n)%nat -> P s (stripColorCodes s)).
  { induction n as [|n IH]; intros s Hn.
    - destruct s; [exact Hnil|cbn in Hn; lia].
    - destruct s as [|a [|b s2]]; cbn in Hn.
      + exact Hnil.
      + apply Hkeep, Hnil.
      + change (stripColorCodes (String a (String b s2)))
          with (if Ascii.eqb a caret && isAlnum b then stripColorCodes s2
                else String a (stripColorCodes (String b s2))).
        destruct (Ascii.eqb a caret && isAlnum b).
        * apply Hdrop, Hdrop, IH. lia.
        * apply Hkeep, IH. cbn. lia. }
  intros s. apply (H (String.length s)). lia.
Qed.

Lemma stripColorCodes_hasByte (s : string) (a : ascii) :
  hasByte s a = false -> hasByte (stripColorCodes s) a = false.
Proof.
  apply (stripColorCodes_drops
           (fun t r => hasByte t a = false -> hasByte r a = false)).
  - auto.
  - intros b t r IH H. cbn [hasByte] in *.
    apply orb_false_iff in H as [Hb Ht]. rewrite Hb, (IH Ht). reflexivity.
  - intros b t r IH H. cbn [hasByte] in H.
    apply orb_false_iff in H as [_ Ht]. auto.
Qed.

Lemma stripColorCodes_plain (s : string) :
  hasByte s caret = false -> stripColorCodes s = s.
Proof.
  intros H. rewrite <- (append_empty_r s) at 1.
  rewrite (stripColorCodes_plain_app _ _ H). apply append_empty_r.
Qed.

End ColourCodes.

Section ColourCodesClaims.

(** X10.  [stripColorCodes] removes the colour codes of a text and
    nothing else: for a text without caret followed by segments made
    of a caret, a letter or digit and a text without caret, it returns
    the texts one after the other. *)
Theorem stripColorCodes_coloured (t0 : string) (segs : list (ascii * string)) :
  hasByte t0 caret = false ->
  Forall colourSegment segs ->
  stripColorCodes (t0 ++ coloured segs) = t0 ++ texts segs.
Proof.
  intros H0 Hsegs. rewrite (stripColorCodes_plain_app _ _ H0). f_equal.
  induction Hsegs as [|[c t] segs [Hc Ht] _ IH]; [reflexivity|].
  cbn [coloured texts fst snd] in *.
  rewrite (stripColorCodes_code _ _ Hc), (stripColorCodes_plain_app _ _ Ht), IH.
  reflexivity.
Qed.

Lemma stripColorCodes_coloured_witness :
  stripColorCodes ("[" ++ coloured [("1"%char, "Red"); ("7"%char, "Player]")])
  = "[" ++ texts [("1"%char, "Red"); ("7"%char, "Player]")].
Proof.
  apply (stripColorCodes_coloured "[" [("1"%char, "Red"); ("7"%char, "Player]")]).
  - reflexivity.
  - repeat constructor.
Defined.

(** X11.  [stripColorCodes] never lengthens a text and brings no byte
    in: a byte that is not in the text is not in the result. *)
Theorem stripColorCodes_shrinks (s : string) :
  (String.length (stripColorCodes s) <= String.length s)%nat
  /\ forall a, hasByte s a = false -> hasByte (stripColorCodes s) a = false.
Proof.
  split.
  - apply (stripColorCodes_drops
             (fun t r => (String.length r <= String.length t)%nat));
      [lia| |]; intros a t r H; cbn [String.length]; lia.
  - intros a. apply stripColorCodes_hasByte.
Qed.

Lemma stripColorCodes_shrinks_witness :
  hasByte (stripColorCodes "^1My^^2 Server") backslash = false.
Proof.
  apply (proj2 (stripColorCodes_shrinks "^1My^^2 Server") backslash).
  reflexivity.
Defined.

End ColourCodesClaims.

Section KeyValueBlock.

Lemma fold_storePair_bindings (P : string -> string -> Prop)
      (l : list (string * string)) :
  (forall k0 v0,
      In (k0, v0) l -> Strings.TrimSpace k0 <> "" ->
      P (Strings.TrimSpace k0) (stripColorCodes (Strings.TrimSpace v0))) ->
  forall kv,
    (forall k v, kv !! k = Some v -> P k v) ->
    forall k v, fold_left storePair l kv !! k = Some v -> P k v.
Proof.
  induction l as [|[k0 v0] l IH]; intros Hl kv Hkv; [exact Hkv|].
  cbn [fold_left]. apply IH.
  - intros k1 v1 Hin. apply Hl. right. exact Hin.
  - intros k v. unfold storePair. cbn [fst snd].
    destruct (isEmpty (Strings.TrimSpace k0)) eqn:E; [apply Hkv|].
    intros H. apply lookup_insert_Some in H as [[<- <-]|[_ H]]; [|apply Hkv, H].
    apply Hl; [left; reflexivity|apply isEmpty_false, E].
Qed.

Lemma pairUp_In (l : list string) (k v : string) :
  In (k, v) (pairUp l) -> In k l /\ In v l.
Proof.
  assert (H : forall n l, (List.length l <= n)%nat ->
                     In (k, v) (pairUp l) -> In k l /\ In v l).
  { induction n as [|n IH]; intros l0 Hn.
    - destruct l0; [intros []|cbn in Hn; lia].
    - destruct l0 as [|x [|y r]]; [intros []|intros []|].
      cbn [pairUp]. intros [E|Hin].
      + inversion E; subst. split; [left|right; left]; reflexivity.
      + apply IH in Hin; [|cbn in Hn; lia].
        destruct Hin. split; right; right; assumption. }
  apply (H (List.length l)). lia.
Qed.

Lemma dropEmptyHead_In (l : list string) (x : string) :
  In x (dropEmptyHead l) -> In x l.
Proof.
  destruct l as [|[|a s] r]; cbn [dropEmptyHead]; auto. intros H. right. exact H.
Qed.

Lemma parseKV_fold (dataLine : string) :
  parseKV dataLine
  = fold_left storePair
              (pairUp (dropEmptyHead (Strings.Split dataLine backslash))) ∅.
Proof. unfold parseKV. rewrite kvLoop_pairs by lia. reflexivity. Qed.

Lemma Split_pairs (pairs : list (string * string)) :
  Forall cleanPair pairs ->
  forall k v,
    hasByte k backslash = false -> hasByte v backslash = false ->
    pairUp (Strings.Split (k ++ String backslash (v ++ encodeKV pairs)) backslash)
    = (k, v) :: pairs.
Proof.
  induction 1 as [|[k1 v1] pairs Hp _ IH]; intros k v Hk Hv.
  - cbn [encodeKV]. rewrite append_empty_r, (split_Split_app _ _ _ Hk).
    rewrite (Split_without_sep _ _ Hv). reflexivity.
  - cbn [encodeKV].
    rewrite (split_Split_app _ _ _ Hk), (split_Split_app _ _ _ Hv).
    cbn [pairUp]. destruct Hp as (_ & Hk1 & _ & Hv1 & _). cbn [fst snd] in *.
    rewrite (IH _ _ Hk1 Hv1). reflexivity.
Qed.

Lemma fold_storePair_clean (pairs : list (string * string)) :
  Forall cleanPair pairs ->
  forall kv,
    fold_left storePair pairs kv
    = fold_left (fun kv p => <[fst p := snd p]> kv) pairs kv.
Proof.
  induction 1 as [|[k v] pairs Hp _ IH]; intros kv; [reflexivity|].
  cbn [fold_left]. rewrite <- IH. f_equal.
  destruct Hp as (Hne & _ & Hk & _ & Hv & Hc). cbn [fst snd] in *.
  unfold storePair. cbn [fst snd]. rewrite Hk, Hv.
  apply isEmpty_false in Hne. rewrite Hne.
  rewrite (stripColorCodes_plain _ Hc). reflexivity.
Qed.

End KeyValueBlock.

Section KeyValueBlockClaims.

(** X12.  Whatever the data line, every key the decoder of [GetInfo]
    and [GetStatus] binds is not empty, has no white space around it
    and holds no backslash, and no value holds a backslash. *)
Theorem parseKV_bindings (dataLine k v : string) :
  parseKV dataLine !! k = Some v ->
  k <> "" /\ Strings.TrimSpace k = k
  /\ hasByte k backslash = false /\ hasByte v backslash = false.
Proof.
  rewrite parseKV_fold.
  apply (fold_storePair_bindings
           (fun k v => k <> "" /\ Strings.TrimSpace k = k
                       /\ hasByte k backslash = false
                       /\ hasByte v backslash = false)).
  - intros k0 v0 Hin Hne. apply pairUp_In in Hin as [Hk Hv].
    apply dropEmptyHead_In in Hk, Hv.
    pose proof (Split_no_sep dataLine backslash) as F.
    rewrite List.Forall_forall in F.
    repeat split.
    + exact Hne.
    + apply TrimSpace_stable.
    + apply TrimSpace_hasByte, F, Hk.
    + apply stripColorCodes_hasByte, TrimSpace_hasByte, F, Hv.
  - intros k1 v1 H. rewrite lookup_empty in H. discriminate.
Qed.

Lemma parseKV_bindings_witness :
  "hostname" <> "" /\ Strings.TrimSpace "hostname" = "hostname"
  /\ hasByte "hostname" backslash = false
  /\ hasByte "My Server" backslash = false.
Proof.
  apply (parseKV_bindings infoLine "hostname" "My Server").
  vm_compute. reflexivity.
Defined.

(** X13.  The decoder undoes the key/value block: for pairs whose keys
    and values hold no backslash and have no white space around them,
    with keys that are not empty and values without caret, decoding
    the block gives the map that binds every key to its value, the
    last one when a key comes twice. *)
Theorem parseKV_encodeKV (pairs : list (string * string)) :
  Forall cleanPair pairs -> parseKV (encodeKV pairs) = stored pairs.
Proof.
  intros H. rewrite parseKV_fold. unfold stored.
  destruct H as [|[k v] pairs Hp Hrest]; [reflexivity|].
  cbn [encodeKV Strings.Split]. rewrite Ascii.eqb_refl. cbn [dropEmptyHead].
  pose proof Hp as (_ & Hk & _ & Hv & _). cbn [fst snd] in *.
  rewrite (Split_pairs _ Hrest _ _ Hk Hv).
  apply fold_storePair_clean. constructor; assumption.
Qed.

Lemma parseKV_encodeKV_witness :
  parseKV (encodeKV [("hostname", "My Server"); ("mapname", "mp_nuketown");
                     ("hostname", "Other")])
  = stored [("hostname", "My Server"); ("mapname", "mp_nuketown");
            ("hostname", "Other")].
Proof.
  apply (parseKV_encodeKV [("hostname", "My Server"); ("mapname", "mp_nuketown");
                           ("hostname", "Other")]).
  repeat constructor; vm_compute; congruence.
Defined.

End KeyValueBlockClaims.

(* ===================================================================== *)
(** ** Further properties of the commands *)
(* ===================================================================== *)

Section HealthySocket.

Variable rc : RCONClient.t.
Hypothesis established : RCONClient.Conn rc <> None.

Lemma readLoop_quiet (evs : list Net.readEvent) :
  forallb quietRead evs = true ->
  forall buf,
    forallb quietRead (snd (readLoop evs buf)) = true
    /\ forall e, fst (readLoop evs buf) = inr e -> isTimeout e = true.
Proof.
  induction evs as [|ev evs IH]; intros H buf.
  - cbn [readLoop]. split; [reflexivity|].
    destruct (isEmpty buf); cbn [fst]; intros e [= <-]; reflexivity.
  - cbn [forallb] in H. apply andb_true_iff in H as [Hev H].
    destruct ev as [p|e0|e0]; cbn [readLoop quietRead] in *.
    + destruct (0 <? String.length (String.substring 0 readBufferSize p))%nat;
        apply IH, H.
    + rewrite Hev. split; [exact H|].
      destruct (isEmpty buf); cbn [fst]; intros e [= <-]; exact Hev.
    + discriminate.
Qed.

Lemma healthy_parts (w : Net.net) :
  healthy w = true <->
  Net.closed w = false
  /\ forallb (fun r : option error => match r with None => true | Some _ => false end)
             (Net.writes w) = true
  /\ forallb quietRead (Net.reads w) = true.
Proof.
  unfold healthy. rewrite !andb_true_iff, negb_true_iff. tauto.
Qed.

Lemma connWrite_healthy (packet : string) (w : Net.net) :
  healthy w = true ->
  exists w1,
    Net.connWrite packet w = (None, w1)
    /\ healthy w1 = true
    /\ Net.trace w1 = (Net.trace w ++ [Net.Wrote packet])%list.
Proof.
  intros H. apply healthy_parts in H as (Hc & Hw & Hr).
  destruct w as [c ws rs tr ck]. cbn [Net.closed Net.writes Net.reads] in *.
  unfold Net.connWrite, Net.log. cbn [Net.closed Net.writes Net.reads Net.trace].
  subst c. destruct ws as [|[e|] rest] eqn:Ew.
  - eexists. split; [reflexivity|]. split; [|reflexivity].
    apply healthy_parts. cbn. auto.
  - discriminate.
  - eexists. split; [reflexivity|]. split; [|reflexivity].
    apply healthy_parts. cbn. auto.
Qed.

Lemma readResponse_healthy (a b : Z) (w : Net.net) :
  healthy w = true ->
  healthy (snd (readResponse rc a b w)) = true
  /\ Net.trace (snd (readResponse rc a b w)) = Net.trace w
  /\ forall e, snd (fst (readResponse rc a b w)) = Some e -> isTimeout e = true.
Proof.
  intros H. pose proof H as (Hc & Hw & Hr)%healthy_parts.
  unfold readResponse. rewrite Hc.
  destruct (readLoop_quiet _ Hr "") as [Hq He].
  destruct (readLoop (Net.reads w) "") as [[buf|e] evs]; cbn [fst snd] in *.
  - assert (G : healthy (Net.setReads evs w) = true)
      by (apply healthy_parts; cbn; auto).
    destruct (isEmpty (normalizeRCON buf)); cbn [fst snd];
      (split; [exact G|split; [reflexivity|discriminate]]).
  - split; [apply healthy_parts; cbn; auto|]. split; [reflexivity|].
    intros e0 [= <-]. apply He. reflexivity.
Qed.

(** Without options, on a socket in working order: one write, one
    accumulation, no pause and no error. *)
Lemma SendCommand_healthy (cmd : string) (args : option string) (w : Net.net) :
  healthy w = true ->
  snd (fst (SendCommand rc cmd args [] w)) = None
  /\ Net.trace (snd (SendCommand rc cmd args [] w))
     = (Net.trace w ++ [Net.Wrote (rconPacket rc cmd args)])%list
  /\ healthy (snd (SendCommand rc cmd args [] w)) = true.
Proof.
  intros H. unfold SendCommand. destruct (RCONClient.Conn rc); [|congruence].
  unfold applyOptions, defaultSettings. cbn [fold_left retries].
  change (Z.to_nat (3 + 1)) with 4%nat. rewrite sendLoop_S.
  destruct (connWrite_healthy (rconPacket rc cmd args) w H) as (w1 & -> & H1 & T1).
  cbn [readTimeout readExtension requireSuccess].
  destruct (readResponse_healthy (timeoutOrDefault rc) defaultReadExtension w1 H1)
    as (H2 & T2 & He).
  destruct (readResponse rc (timeoutOrDefault rc) defaultReadExtension w1)
    as [[res err] w2]. cbn [fst snd] in *.
  rewrite T1 in T2.
  destruct (0 <? List.length res)%nat; [cbn; auto|].
  destruct err as [e|]; [|cbn; auto].
  rewrite (He e eq_refl). cbn. auto.
Qed.

Lemma observed_trace (w w' : Net.net) (packet : string) :
  Net.trace w' = (Net.trace w ++ [Net.Wrote packet])%list ->
  Net.writeCalls w' = (Net.writeCalls w ++ [packet])%list
  /\ Net.sleeps w' = Net.sleeps w.
Proof.
  intros H. unfold Net.writeCalls, Net.sleeps. rewrite H, !omap_app.
  cbn. rewrite List.app_nil_r. auto.
Qed.

(** X14.  On a socket in working order (open, every write goes
    through, no read fails but at its deadline) [Say], [Tell], [Kick]
    and [SetDvar] with arguments that are not empty never fail,
    whatever the server answers or does not answer: each makes one
    write, of its command under the password, and no pause. *)
Theorem commands_ignore_the_answer (w : Net.net) :
  healthy w = true ->
  (forall message,
      message <> "" ->
      fst (Say rc message w) = None
      /\ Net.writeCalls (snd (Say rc message w))
         = (Net.writeCalls w ++ [rconPacket rc "say" (Some message)])%list
      /\ Net.sleeps (snd (Say rc message w)) = Net.sleeps w)
  /\ (forall clientNum message,
         message <> "" ->
         fst (Tell rc clientNum message w) = None
         /\ Net.writeCalls (snd (Tell rc clientNum message w))
            = (Net.writeCalls w
                 ++ [rconPacket rc "tell"
                       (Some (Fmt.formatInt clientNum ++ " [^5Gambling^7] "
                                ++ message)%string)])%list
         /\ Net.sleeps (snd (Tell rc clientNum message w)) = Net.sleeps w)
  /\ (forall player reason,
         player <> "" -> reason <> "" ->
         fst (Kick rc player reason w) = None
         /\ Net.writeCalls (snd (Kick rc player reason w))
            = (Net.writeCalls w
                 ++ [rconPacket rc "clientkick_for_reason"
                       (Some (player ++ " '" ++ reason ++ "'")%string)])%list
         /\ Net.sleeps (snd (Kick rc player reason w)) = Net.sleeps w)
  /\ (forall dvar value,
         dvar <> "" -> value <> "" ->
         fst (SetDvar rc dvar value w) = None
         /\ Net.writeCalls (snd (SetDvar rc dvar value w))
            = (Net.writeCalls w
                 ++ [rconPacket rc "set"
                       (Some (dvar ++ " " ++ dvarValue value)%string)])%list
         /\ Net.sleeps (snd (SetDvar rc dvar value w)) = Net.sleeps w).
Proof.
  intros H.
  assert (G : forall cmd args,
             let r := SendCommand rc cmd args [] w in
             snd (fst r) = None
             /\ Net.writeCalls (snd r)
                = (Net.writeCalls w ++ [rconPacket rc cmd args])%list
             /\ Net.sleeps (snd r) = Net.sleeps w).
  { intros cmd args. cbv zeta.
    destruct (SendCommand_healthy cmd args w H) as (He & Ht & _).
    split; [exact He|]. apply observed_trace, Ht. }
  repeat split.
  all: intros; unfold Say, Tell, Kick, SetDvar;
    repeat match goal with
           | Hne : ?x <> "" |- _ => apply isEmpty_false in Hne; rewrite Hne
           end;
    cbn [orb];
    match goal with
    | |- context [SendCommand ?r ?c ?a [] ?w0] =>
        destruct (G c a) as (G1 & G2 & G3);
        destruct (SendCommand r c a [] w0) as [[res err] w1]
    end;
    cbn [fst snd] in *; assumption.
Qed.

End HealthySocket.

Section HealthySocketExamples.

Lemma commands_ignore_the_answer_witness :
  fst (SetDvar client "sv_hostname" "My Server"
               (peer [reply ["Invalid password."]])) = None
  /\ Net.writeCalls (snd (SetDvar client "sv_hostname" "My Server"
                                  (peer [reply ["Invalid password."]])))
     = ([] ++ [rconPacket client "set"
                 (Some ("sv_hostname" ++ " " ++ dvarValue "My Server")%string)])%list
  /\ Net.sleeps (snd (SetDvar client "sv_hostname" "My Server"
                              (peer [reply ["Invalid password."]]))) = [].
Proof.
  assert (E : RCONClient.Conn client <> None) by discriminate.
  apply (proj2 (proj2 (proj2
           (commands_ignore_the_answer client E
              (peer [reply ["Invalid password."]]) eq_refl)))
           "sv_hostname" "My Server"); discriminate.
Defined.

End HealthySocketExamples.

Section Quoting.

Lemma ContainsAny_triggers (v : string) :
  Strings.ContainsAny v quoteTriggers
  = hasByte v " " || hasByte v "009" || hasByte v dquote.
Proof.
  induction v as [|a v IH]; [reflexivity|].
  cbn [Strings.ContainsAny hasByte quoteTriggers]. rewrite IH.
  rewrite !(Ascii.eqb_sym a).
  destruct (Ascii.eqb " " a), (Ascii.eqb "009" a), (Ascii.eqb dquote a),
    (hasByte v " "), (hasByte v "009"), (hasByte v dquote); reflexivity.
Qed.

Lemma escape_step (a : ascii) (v : string) :
  Strings.ReplaceAll (String a v) quote escapedQuote
  = if Ascii.eqb a dquote
    then String backslash (String dquote (Strings.ReplaceAll v quote escapedQuote))
    else String a (Strings.ReplaceAll v quote escapedQuote).
Proof.
  unfold quote. rewrite (ReplaceAll_step dquote "" escapedQuote a v).
  unfold Strings.HasPrefix. cbn [String.prefix String.length drop].
  destruct (ascii_dec dquote a) as [<-|Hne].
  - rewrite Ascii.eqb_refl. destruct v; reflexivity.
  - destruct (Ascii.eqb_spec a dquote); [congruence|reflexivity].
Qed.

Lemma escape_head (v : string) :
  Strings.HasPrefix (Strings.ReplaceAll v quote escapedQuote) quote = false.
Proof.
  destruct v as [|a v]; [reflexivity|]. rewrite escape_step.
  destruct (Ascii.eqb_spec a dquote) as [->|Hne]; [reflexivity|].
  unfold Strings.HasPrefix, quote. cbn [String.prefix].
  destruct (ascii_dec dquote a); [congruence|reflexivity].
Qed.

Lemma unescape_pair (s : string) :
  Strings.ReplaceAll (String backslash (String dquote s)) escapedQuote quote
  = String dquote (Strings.ReplaceAll s escapedQuote quote).
Proof.
  unfold escapedQuote. rewrite (ReplaceAll_step backslash quote quote). cbv zeta.
  assert (Hp : Strings.HasPrefix (String backslash (String dquote s))
                                 (String backslash quote) = true)
    by (destruct s; reflexivity).
  rewrite Hp. reflexivity.
Qed.

Lemma unescape_other (a : ascii) (s : string) :
  Strings.HasPrefix (String a s) escapedQuote = false ->
  Strings.ReplaceAll (String a s) escapedQuote quote
  = String a (Strings.ReplaceAll s escapedQuote quote).
Proof.
  intros H. unfold escapedQuote in *.
  rewrite (ReplaceAll_step backslash quote quote). cbv zeta.
  unfold quote in *. rewrite H. reflexivity.
Qed.

Lemma unescape_escape (v : string) :
  Strings.ReplaceAll (Strings.ReplaceAll v quote escapedQuote) escapedQuote quote = v.
Proof.
  induction v as [|a v IH]; [reflexivity|]. rewrite escape_step.
  destruct (Ascii.eqb_spec a dquote) as [->|Hne].
  - rewrite unescape_pair, IH. reflexivity.
  - rewrite unescape_other, IH; [reflexivity|].
    unfold Strings.HasPrefix, escapedQuote. cbn [String.prefix].
    destruct (ascii_dec backslash a); [|reflexivity].
    apply escape_head.
Qed.

Lemma escape_no_bare_quote (v : string) :
  forall escaped,
    hasBareQuote escaped (Strings.ReplaceAll v quote escapedQuote) = false.
Proof.
  induction v as [|a v IH]; intros escaped; [reflexivity|].
  rewrite escape_step. destruct (Ascii.eqb_spec a dquote) as [->|Hne].
  - cbn [hasBareQuote]. rewrite IH. reflexivity.
  - cbn [hasBareQuote]. rewrite IH.
    destruct (Ascii.eqb_spec a dquote); [congruence|reflexivity].
Qed.

(** X15.  The value [SetDvar] sends.  A value without space, tab and
    double quote goes out as it is.  Any other value goes out between
    double quotes, and the text between them has a backslash right
    before each of its double quotes and gives the value back when
    every backslash-quote pair is replaced by a double quote. *)
Theorem dvarValue_quoting (value : string) :
  (hasByte value " " = false -> hasByte value "009" = false ->
   hasByte value dquote = false -> dvarValue value = value)
  /\ (hasByte value " " || hasByte value "009" || hasByte value dquote = true ->
      exists inner,
        dvarValue value = String dquote (inner ++ quote)
        /\ hasBareQuote false inner = false
        /\ Strings.ReplaceAll inner escapedQuote quote = value).
Proof.
  unfold dvarValue. rewrite ContainsAny_triggers. split.
  - intros -> -> ->. reflexivity.
  - intros ->. exists (Strings.ReplaceAll value quote escapedQuote).
    split; [reflexivity|]. split; [apply escape_no_bare_quote|apply unescape_escape].
Qed.

Lemma dvarValue_quoting_witness :
  exists inner,
    dvarValue ("My " ++ quote ++ "best" ++ quote ++ " Server")
    = String dquote (inner ++ quote)
    /\ hasBareQuote false inner = false
    /\ Strings.ReplaceAll inner escapedQuote quote
       = "My " ++ quote ++ "best" ++ quote ++ " Server".
Proof.
  apply (proj2 (dvarValue_quoting ("My " ++ quote ++ "best" ++ quote ++ " Server"))).
  reflexivity.
Defined.

End Quoting.

Section StatusSnapshot.

Lemma statusStart_le (res : list string) :
  forall i, (statusStart res i <= i + List.length res)%nat.
Proof.
  induction res as [|line res IH]; intros i; cbn [statusStart List.length]; [lia|].
  destruct (MatchString headerRx (Strings.TrimSpace line)); [lia|].
  specialize (IH (S i)). lia.
Qed.

Lemma statusPlayers_length (lines : list string) :
  (List.length (statusPlayers lines) <= List.length lines)%nat.
Proof.
  induction lines as [|line lines IH]; [reflexivity|].
  cbn [statusPlayers List.length].
  destruct (isEmpty (Strings.TrimSpace line)); [lia|].
  destruct (negb (firstByteIsDigit (Strings.TrimSpace line))); [lia|].
  destruct (FindStringSubmatch pattern (Strings.TrimSpace line));
    cbn [List.length]; lia.
Qed.

(** X16.  [Status] returns either a snapshot and no error, or an error
    and no snapshot.  A snapshot keeps at least one raw line, every
    raw line is not empty, holds no line feed and has no white space
    around it, the index after the header lies within the raw lines
    (the slice taken there is in range), and there is at most one
    player for each line after the header. *)
Theorem Status_snapshot (rc : RCONClient.t) (w : Net.net) :
  match fst (Status rc w) with
  | (Some st, None) =>
      ServerStatus.Raw st <> []
      /\ Forall cleanLine (ServerStatus.Raw st)
      /\ (statusStart (ServerStatus.Raw st) 0
          <= List.length (ServerStatus.Raw st))%nat
      /\ (List.length (ServerStatus.Players st)
            + statusStart (ServerStatus.Raw st) 0
          <= List.length (ServerStatus.Raw st))%nat
  | (None, Some _) => True
  | _ => False
  end.
Proof.
  unfold Status.
  pose proof (SendCommand_Forall rc "status" None
                [requireResponse; withReadExtension Second] w) as Hclean.
  assert (Hshape : snd (fst (SendCommand rc "status" None
                                [requireResponse; withReadExtension Second] w)) = None ->
                   fst (fst (SendCommand rc "status" None
                                [requireResponse; withReadExtension Second] w)) <> []).
  { unfold SendCommand. destruct (RCONClient.Conn rc); [|discriminate].
    match goal with
    | |- context [sendLoop ?a ?b ?c ?d ?e ?f ?g ?h] =>
        pose proof (sendLoop_shape a b c d e f g h) as H; cbv zeta in H;
        destruct H as [_ H]; apply H
    end.
    reflexivity. }
  destruct (SendCommand rc "status" None
              [requireResponse; withReadExtension Second] w) as [[res err] w1].
  cbn [fst snd] in *. destruct err as [e|]; cbn [fst]; [exact I|].
  cbn [ServerStatus.Raw ServerStatus.Players].
  split; [apply Hshape; reflexivity|]. split; [exact Hclean|].
  pose proof (statusStart_le res 0) as Hs. split; [lia|].
  pose proof (statusPlayers_length (skipn (statusStart res 0) res)) as Hp.
  rewrite List.length_skipn in Hp. lia.
Qed.

End StatusSnapshot.

Section Settings.

Lemma timeoutOrDefault_positive (rc : RCONClient.t) : (0 < timeoutOrDefault rc)%Z.
Proof.
  unfold timeoutOrDefault, defaultReadTimeout, Second.
  destruct (Z.leb_spec (RCONClient.Timeout rc) 0); lia.
Qed.

(** X17.  The settings a call of [SendCommand] runs with, for the
    options the package defines: the retry count is 3 (the branch of
    [requireResponse] for a count of 0 never runs), the read timeout
    is that of the client or the default and is positive, the read
    extension is not negative, and success is required exactly when
    [requireResponse] is among the options. *)
Theorem settings_of_package_options
        (rc : RCONClient.t) (opts : list commandOption) :
  Forall packageOption opts ->
  let s := applyOptions opts (defaultSettings rc) in
  retries s = 3%Z
  /\ readTimeout s = timeoutOrDefault rc
  /\ (0 < readTimeout s)%Z
  /\ (0 <= readExtension s)%Z
  /\ (requireSuccess s = true <-> In requireResponse opts).
Proof.
  intros H. cbv zeta.
  assert (G : forall s0,
             retries s0 = 3%Z -> (0 <= readExtension s0)%Z ->
             let s := applyOptions opts s0 in
             retries s = 3%Z /\ readTimeout s = readTimeout s0
             /\ (0 <= readExtension s)%Z
             /\ (requireSuccess s = true <->
                 requireSuccess s0 = true \/ In requireResponse opts)).
  { induction H as [|opt opts Hopt _ IH]; intros s0 Hr He; cbv zeta.
    - cbn. repeat split; auto; tauto.
    - cbn [applyOptions fold_left].
      destruct Hopt as [->|[d ->]].
      + destruct (IH (requireResponse s0)) as (I1 & I2 & I3 & I4).
        { cbn. rewrite Hr. reflexivity. }
        { exact He. }
        unfold applyOptions in *. rewrite I1, I2. repeat split; auto.
        * intros _. right. left. reflexivity.
        * intros _. apply I4. left. reflexivity.
      + destruct (IH (withReadExtension d s0)) as (I1 & I2 & I3 & I4).
        { exact Hr. }
        { cbn. destruct (Z.ltb_spec d 0); lia. }
        unfold applyOptions in *. rewrite I1, I2. repeat split; auto.
        * intros Hs. apply I4 in Hs as [Hs|Hs]; [left; exact Hs|right; right; exact Hs].
        * intros [Hs|[Hs|Hs]].
          -- apply I4. left. exact Hs.
          -- exfalso.
             assert (E : requireSuccess (withReadExtension d (defaultSettings rc))
                         = requireSuccess (requireResponse (defaultSettings rc)))
               by (rewrite Hs; reflexivity).
             discriminate E.
          -- apply I4. right. exact Hs. }
  destruct (G (defaultSettings rc)) as (G1 & G2 & G3 & G4).
  { reflexivity. }
  { unfold defaultSettings, defaultReadExtension, Millisecond. cbn. lia. }
  cbv zeta in *. rewrite G2. cbn [defaultSettings readTimeout].
  repeat split; auto.
  - apply timeoutOrDefault_positive.
  - intros Hs. apply G4 in Hs as [Hs|Hs]; [discriminate|exact Hs].
  - intros Hs. apply G4. right. exact Hs.
Qed.

Lemma settings_of_package_options_witness :
  let s := applyOptions [requireResponse; withReadExtension Second]
                        (defaultSettings client) in
  retries s = 3%Z
  /\ readTimeout s = timeoutOrDefault client
  /\ (0 < readTimeout s)%Z
  /\ (0 <= readExtension s)%Z
  /\ (requireSuccess s = true
      <-> In requireResponse [requireResponse; withReadExtension Second]).
Proof.
  apply (settings_of_package_options client
           [requireResponse; withReadExtension Second]).
  constructor; [left; reflexivity|].
  constructor; [right; eexists; reflexivity|constructor].
Defined.

End Settings.

(* ===================================================================== *)
(** ** Further properties of the dvar extractor *)
(* ===================================================================== *)

Section RegexFacts.

Lemma run_litFold (a : ascii) (s : string) (n : nat) (cs : captures) (k : cont) :
  isASCII a = true ->
  run (litFold a) n (String a s) cs k = k (S n) s cs.
Proof.
  intros Ha.
  assert (H197 : Ascii.eqb (ascii_of_N 197) a = false).
  { destruct (Ascii.eqb_spec (ascii_of_N 197) a) as [<-|]; [discriminate Ha|reflexivity]. }
  assert (H226 : Ascii.eqb (ascii_of_N 226) a = false).
  { destruct (Ascii.eqb_spec (ascii_of_N 226) a) as [<-|]; [discriminate Ha|reflexivity]. }
  unfold litFold.
  destruct (Ascii.eqb (lower a) "s"); [|destruct (Ascii.eqb (lower a) "k")];
    cbn [run lit]; rewrite Ascii.eqb_refl, ?H197, ?H226;
    destruct (k (S n) s cs); reflexivity.
Qed.

Lemma run_literal_fold (name : string) :
  forall n rest cs k,
    allBytes isASCII name = true ->
    run (literal true name) n (name ++ rest) cs k
    = k (n + String.length name)%nat rest cs.
Proof.
  induction name as [|a name IH]; intros n rest cs k H.
  - cbn. rewrite Nat.add_0_r. reflexivity.
  - cbn [allBytes] in H. apply andb_true_iff in H as [Ha H].
    rewrite append_cons. cbn [literal run String.length].
    rewrite (run_litFold _ _ _ _ _ Ha), (IH _ _ _ _ H), Nat.add_succ_r.
    reflexivity.
Qed.

Lemma repGreedy_stop (p : ascii -> bool) (n : nat) (s : string)
      (cs : captures) (k : cont) :
  match s with String b _ => p b = false | EmptyString => True end ->
  repGreedy p n s cs k = k n s cs.
Proof. destruct s as [|b s]; [reflexivity|]. cbn. intros ->. reflexivity. Qed.

(** The lazy repetition stops at the first cut where what follows
    matches. *)
Lemma repLazy_stops (p : ascii -> bool) (v : string) :
  forall n tail cs k m,
    allBytes p v = true ->
    (forall pre a post,
        v = pre ++ String a post ->
        k (n + String.length pre)%nat (String a post ++ tail) cs = None) ->
    k (n + String.length v)%nat tail cs = Some m ->
    repLazy p n (v ++ tail) cs k = Some m.
Proof.
  induction v as [|a v IH]; intros n tail cs k m Hp Hfail Hok.
  - cbn [String.length] in Hok. rewrite Nat.add_0_r in Hok.
    change ("" ++ tail) with tail. destruct tail; cbn [repLazy]; rewrite Hok; reflexivity.
  - cbn [allBytes] in Hp. apply andb_true_iff in Hp as [Ha Hp].
    rewrite append_cons. cbn [repLazy].
    pose proof (Hfail "" a v eq_refl) as H0. cbn [String.length] in H0.
    rewrite Nat.add_0_r in H0. rewrite append_cons in H0. rewrite H0, Ha.
    apply IH; [exact Hp| |].
    + intros pre b post E.
      specialize (Hfail (String a pre) b post).
      cbn [String.length] in Hfail. rewrite Nat.add_succ_r in Hfail.
      apply Hfail. rewrite E. reflexivity.
    + cbn [String.length] in Hok. rewrite Nat.add_succ_r in Hok. exact Hok.
Qed.

Lemma substring_app (v tail : string) :
  String.substring 0 (String.length v) (v ++ tail) = v.
Proof.
  induction v as [|a v IH].
  - change ("" ++ tail) with tail. destruct tail; reflexivity.
  - rewrite append_cons. cbn [String.length String.substring]. rewrite IH.
    reflexivity.
Qed.

End RegexFacts.

Section DvarValue.

Lemma valueByte_dot (v : string) :
  allBytes valueByte v = true -> allBytes dot v = true.
Proof.
  induction v as [|a v IH]; [reflexivity|]. cbn [allBytes].
  intros H. apply andb_true_iff in H as [Ha H]. rewrite (IH H), andb_true_r.
  unfold valueByte in Ha. apply andb_true_iff in Ha as [Ha _].
  unfold dot. destruct (Ascii.eqb_spec a nl) as [->|]; [discriminate Ha|reflexivity].
Qed.

(** What follows the value group of both patterns, at a byte of a
    value: no match. *)
Lemma after_value_fails (a : ascii) (s : string) (n : nat) (cs : captures)
      (k : cont) :
  valueByte a = true ->
  run (Seq (Opt (lit dquote)) (Alt (Byte space) Eol)) n (String a s) cs k = None.
Proof.
  unfold valueByte. intros H. apply andb_true_iff in H as [Hs Hq].
  apply negb_true_iff in Hs, Hq. rewrite Ascii.eqb_sym in Hq.
  cbn [run lit isEmpty]. rewrite Hq, Hs. reflexivity.
Qed.

Lemma after_value_matches (tail : string) (n : nat) (cs : captures) :
  valueEnd tail = true ->
  run (Seq (Opt (lit dquote)) (Alt (Byte space) Eol)) n tail cs
      (fun _ _ cs' => Some cs') = Some cs.
Proof.
  destruct tail as [|a t]; [reflexivity|]. cbn [valueEnd run lit isEmpty].
  intros H. rewrite (Ascii.eqb_sym dquote a).
  destruct (Ascii.eqb a dquote) eqn:Hq.
  - destruct t as [|b t]; [reflexivity|].
    destruct (space b) eqn:Hb; [reflexivity|].
    cbn [andb orb] in H. rewrite orb_false_r in H. rewrite H. reflexivity.
  - cbn [andb] in H. rewrite orb_false_r in H. rewrite H. reflexivity.
Qed.

Lemma run_Seq (r1 r2 : regex) (n : nat) (s : string) (cs : captures) (k : cont) :
  run (Seq r1 r2) n s cs k = run r1 n s cs (fun n' s' cs' => run r2 n' s' cs' k).
Proof. reflexivity. Qed.

Lemma run_plus_one (p : ascii -> bool) (a : ascii) (s : string) (n : nat)
      (cs : captures) (k : cont) :
  p a = true ->
  match s with String b _ => p b = false | EmptyString => True end ->
  run (plus p) n (String a s) cs k = k (S n) s cs.
Proof.
  intros Ha Hs. unfold plus. cbn [run]. rewrite Ha. apply repGreedy_stop, Hs.
Qed.

Lemma run_Opt_taken (a : ascii) (s : string) (n : nat) (cs : captures)
      (k : cont) (m : captures) :
  k (S n) s cs = Some m ->
  run (Opt (lit a)) n (String a s) cs k = Some m.
Proof. intros H. cbn [run lit]. rewrite Ascii.eqb_refl, H. reflexivity. Qed.

Lemma run_Group_lazy (name : string) (p : ascii -> bool) (n : nat) (s : string)
      (cs : captures) (k : cont) :
  run (Group name (starLazy p)) n s cs k
  = repLazy p n s cs
            (fun n' s' cs' => k n' s' ((name, String.substring 0 (n' - n) s) :: cs')).
Proof. reflexivity. Qed.

(** The first pattern on a line made of the name, is:, and the value
    between double quotes: the group is the value. *)
Lemma dvarRx1_value (name v tail : string) :
  allBytes isASCII name = true ->
  allBytes valueByte v = true ->
  valueEnd tail = true ->
  FindStringSubmatch (dvarRx1 name)
                     (name ++ " is: " ++ String dquote (v ++ tail))
  = Some [("val", v)].
Proof.
  intros Hname Hv Htail.
  assert (G : run (dvarRx1 name) 0
                  (name ++ " is: " ++ String dquote (v ++ tail)) []
                  (fun _ _ cs => Some cs) = Some [("val", v)]).
  { unfold dvarRx1. cbn [seq].
    set (R7 := Seq (Opt (lit dquote)) (Alt (Byte space) Eol)).
    rewrite run_Seq.
    change (run Bol 0 ?s ?cs ?k) with (k 0%nat s cs). cbv beta.
    rewrite run_Seq, (run_literal_fold name _ _ _ _ Hname).
    change (" is: " ++ String dquote (v ++ tail))
      with (String " " ("is:" ++ String " " (String dquote (v ++ tail)))).
    rewrite run_Seq, run_plus_one; [|reflexivity|reflexivity].
    rewrite run_Seq, (run_literal_fold "is:"); [|reflexivity].
    rewrite run_Seq, run_plus_one; [|reflexivity|reflexivity].
    rewrite run_Seq. apply run_Opt_taken.
    rewrite run_Seq, run_Group_lazy.
    apply repLazy_stops.
    - apply valueByte_dot, Hv.
    - intros pre a post E. apply after_value_fails.
      assert (H : allBytes valueByte (pre ++ String a post) = true)
        by (rewrite <- E; exact Hv).
      clear -H. induction pre as [|b pre IH].
      + cbn [allBytes] in H. apply andb_true_iff in H as [H _]. exact H.
      + rewrite append_cons in H. cbn [allBytes] in H.
        apply andb_true_iff in H as [_ H]. apply IH, H.
    - subst R7. rewrite after_value_matches by exact Htail.
      match goal with
      | |- context [String.substring 0 ?n (v ++ tail)] =>
          replace n with (String.length v) by lia
      end.
      rewrite substring_app. reflexivity. }
  unfold FindStringSubmatch.
  destruct (name ++ " is: " ++ String dquote (v ++ tail));
    cbn [searchFrom]; rewrite G; reflexivity.
Qed.

End DvarValue.

Section DvarRetries.

Variable rc : RCONClient.t.
Variable dvar : string.
Variables rx1 rx2 : regex.

Lemma scanLines_unmatched_prefix (pre rest : list string) :
  forallb (unmatched rx1 rx2) pre = true ->
  forall lastClean,
    scanLines rx1 rx2 (pre ++ rest)%list lastClean
    = scanLines rx1 rx2 rest (keep lastClean pre).
Proof.
  induction pre as [|line pre IH]; intros H lastClean.
  - rewrite List.app_nil_l. unfold keep. cbn [firstCandidate].
    destruct (isEmpty lastClean) eqn:E; [|reflexivity].
    apply isEmpty_true in E. subst. reflexivity.
  - cbn [forallb] in H. apply andb_true_iff in H as [Hu H].
    rewrite <- List.app_comm_cons. cbn [scanLines]. fold (cleaned line).
    unfold unmatched in Hu. unfold keep. cbn [firstCandidate]. unfold candidate.
    destruct (isEmpty (cleaned line)) eqn:Hc.
    + cbn [negb andb]. rewrite (IH H). reflexivity.
    + cbn [orb negb andb] in Hu |- *.
      destruct (FindStringSubmatch rx1 (cleaned line)); [discriminate|].
      destruct (FindStringSubmatch rx2 (cleaned line)); [discriminate|].
      destruct (negb (Strings.Contains (Strings.ToLower (cleaned line)) pollution)).
      * rewrite (IH H). unfold keep.
        destruct (isEmpty lastClean) eqn:E; [rewrite Hc|rewrite E]; reflexivity.
      * rewrite (IH H). reflexivity.
Qed.

(** The loop of [GetDvar] over [n] answered queries of which no line
    matches and every one carries the pollution token: it pauses after
    each and goes on with the turns that are left. *)
Lemma dvarLoop_polluted (n : nat) :
  forall m attempt lastClean w rs w',
    dvarQueries rc dvar (S n) attempt w = Some (rs, w') ->
    forallb (unmatched rx1 rx2) (List.concat rs) = true ->
    forallb needRetry rs = true ->
    dvarLoop rc dvar rx1 rx2 (S n + m) attempt lastClean w
    = dvarLoop rc dvar rx1 rx2 m (attempt + Z.of_nat (S n))%Z
               (keep lastClean (List.concat rs))
               (Net.sleep (backoff (attempt + Z.of_nat n)) w').
Proof.
  induction n as [|n IH]; intros m attempt lastClean w rs w' Hq Hun Hpol.
  - cbn [dvarQueries] in Hq. change (1 + m)%nat with (S m). rewrite dvarLoop_S.
    destruct (SendCommand rc dvar None [requireResponse] w) as [[res [e|]] w1];
      [discriminate|].
    injection Hq as <- <-. cbn [List.concat] in Hun |- *.
    rewrite List.app_nil_r in Hun |- *.
    rewrite (scanLines_unmatched rx1 rx2 res Hun).
    cbn [forallb] in Hpol. apply andb_true_iff in Hpol as [Hr _].
    rewrite Hr. cbn [negb]. rewrite Z.add_0_r. reflexivity.
  - change (dvarQueries rc dvar (S (S n)) attempt w) with
      (match SendCommand rc dvar None [requireResponse] w with
       | ((res, None), w1) =>
           match dvarQueries rc dvar (S n) (attempt + 1)%Z
                             (Net.sleep (backoff attempt) w1) with
           | Some (rs, w2) => Some (res :: rs, w2)
           | None => None
           end
       | ((_, Some _), _) => None
       end) in Hq.
    change (S (S n) + m)%nat with (S (S n + m)). rewrite dvarLoop_S.
    destruct (SendCommand rc dvar None [requireResponse] w) as [[res [e|]] w1];
      [discriminate|].
    destruct (dvarQueries rc dvar (S n) (attempt + 1) (Net.sleep (backoff attempt) w1))
      as [[rs' w2]|] eqn:Hq'; [|discriminate].
    injection Hq as <- <-.
    cbn [List.concat] in Hun. rewrite forallb_app in Hun.
    apply andb_true_iff in Hun as [Hun1 Hun2].
    cbn [forallb] in Hpol. apply andb_true_iff in Hpol as [Hp1 Hp2].
    rewrite (scanLines_unmatched rx1 rx2 res Hun1). rewrite Hp1. cbn [negb].
    rewrite (IH m (attempt + 1)%Z (keep lastClean res) _ rs' _ Hq' Hun2 Hp2).
    rewrite keep_app. cbn [List.concat].
    replace (attempt + 1 + Z.of_nat (S n))%Z with (attempt + Z.of_nat (S (S n)))%Z
      by lia.
    replace (attempt + 1 + Z.of_nat n)%Z with (attempt + Z.of_nat (S n))%Z by lia.
    reflexivity.
Qed.

(** After [n] such answers (none when [n] is 0) the loop stands at
    the next query. *)
Lemma dvarLoop_after_polluted (n m : nat) (w wn : Net.net)
      (rs : list (list string)) :
  dvarQueries rc dvar n 0 w = Some (rs, wn) ->
  forallb (unmatched rx1 rx2) (List.concat rs) = true ->
  forallb needRetry rs = true ->
  dvarLoop rc dvar rx1 rx2 (n + m) 0 "" w
  = dvarLoop rc dvar rx1 rx2 m (Z.of_nat n) (keep "" (List.concat rs))
             (beforeQuery n w wn).
Proof.
  intros Hq Hun Hpol. destruct n as [|n].
  - cbn [dvarQueries] in Hq. injection Hq as <- <-. reflexivity.
  - rewrite (dvarLoop_polluted n m 0 "" w rs wn Hq Hun Hpol).
    unfold beforeQuery, backoff. rewrite !Z.add_0_l.
    replace ((Z.of_nat n + 1) * 150 * Millisecond)%Z
      with (Z.of_nat (S n) * 150 * Millisecond)%Z by lia.
    reflexivity.
Qed.

End DvarRetries.

Section DvarValueClaims.

Variable rc : RCONClient.t.

(** X18.  [GetDvar] reads the value.  After [n] answers (0 to 2) that
    match no pattern and carry the pollution token, the next query is
    answered with lines of which the first that matches is, once
    cleaned, the name, is:, and a double quote followed by a value
    without white space and double quote; after the value come
    nothing, white space, or a double quote followed by nothing or by
    white space.  Then [GetDvar] returns the value, stripped of its
    colour codes, and no error, without a further query or pause.  A
    value is cut at its first white space. *)
Theorem GetDvar_value
        (dvar : string) (w wn w' : Net.net) (n : nat) (rs : list (list string))
        (pre post : list string) (line v tail : string) :
  dvar <> "" ->
  allBytes isASCII (Strings.TrimSpace dvar) = true ->
  (n <= 2)%nat ->
  dvarQueries rc dvar n 0 w = Some (rs, wn) ->
  forallb (unmatched (dvarRx1 (Strings.TrimSpace dvar))
                     (dvarRx2 (Strings.TrimSpace dvar))) (List.concat rs) = true ->
  forallb needRetry rs = true ->
  SendCommand rc dvar None [requireResponse] (beforeQuery n w wn)
  = ((pre ++ line :: post)%list, None, w') ->
  forallb (unmatched (dvarRx1 (Strings.TrimSpace dvar))
                     (dvarRx2 (Strings.TrimSpace dvar))) pre = true ->
  cleaned line = Strings.TrimSpace dvar ++ " is: " ++ String dquote (v ++ tail) ->
  allBytes valueByte v = true ->
  valueEnd tail = true ->
  GetDvar rc dvar w = ((stripColorCodes v, None), w').
Proof.
  intros Hd Hname Hn Hq Hun Hpol Hsend Hpre Hline Hv Htail. unfold GetDvar.
  apply isEmpty_false in Hd. rewrite Hd.
  change (Z.to_nat maxAttempts) with 3%nat.
  replace 3%nat with (n + S (2 - n))%nat by lia.
  rewrite (dvarLoop_after_polluted rc dvar _ _ n (S (2 - n)) w wn rs Hq Hun Hpol).
  rewrite dvarLoop_S, Hsend.
  rewrite (scanLines_unmatched_prefix _ _ pre (line :: post) Hpre).
  cbn [scanLines]. fold (cleaned line). rewrite Hline.
  rewrite (dvarRx1_value _ v tail Hname Hv Htail).
  assert (E : isEmpty (Strings.TrimSpace dvar ++ " is: " ++ String dquote (v ++ tail))
              = false).
  { destruct (Strings.TrimSpace dvar); reflexivity. }
  rewrite E. reflexivity.
Qed.

(** X19.  A query of [GetDvar], for a name of ASCII bytes, that
    fails ends the call with its error and the empty string: what the
    [n] answers before it (0 to 2, matching no pattern and carrying
    the pollution token) would have given as fallback is dropped. *)
Theorem GetDvar_query_error
        (dvar : string) (w wn w' : Net.net) (n : nat) (rs : list (list string))
        (res : list string) (e : error) :
  dvar <> "" ->
  allBytes isASCII (Strings.TrimSpace dvar) = true ->
  (n <= 2)%nat ->
  dvarQueries rc dvar n 0 w = Some (rs, wn) ->
  forallb (unmatched (dvarRx1 (Strings.TrimSpace dvar))
                     (dvarRx2 (Strings.TrimSpace dvar))) (List.concat rs) = true ->
  forallb needRetry rs = true ->
  SendCommand rc dvar None [requireResponse] (beforeQuery n w wn)
  = (res, Some e, w') ->
  GetDvar rc dvar w = (("", Some e), w').
Proof.
  intros Hd _ Hn Hq Hun Hpol Hsend. unfold GetDvar.
  apply isEmpty_false in Hd. rewrite Hd.
  change (Z.to_nat maxAttempts) with 3%nat.
  replace 3%nat with (n + S (2 - n))%nat by lia.
  rewrite (dvarLoop_after_polluted rc dvar _ _ n (S (2 - n)) w wn rs Hq Hun Hpol).
  rewrite dvarLoop_S, Hsend. reflexivity.
Qed.

End DvarValueClaims.

Section DvarValueExamples.

Lemma GetDvar_value_witness :
  GetDvar client "sv_hostname"
          (peer [reply ["sv_iw4madmin_in something"]; deadline;
                 reply ["Server info";
                        "sv_hostname is: " ++ String dquote
                           ("^1My Server^7" ++ String dquote " default: none")]])
  = ((stripColorCodes "My", None),
     snd (GetDvar client "sv_hostname"
            (peer [reply ["sv_iw4madmin_in something"]; deadline;
                   reply ["Server info";
                          "sv_hostname is: " ++ String dquote
                             ("^1My Server^7" ++ String dquote " default: none")]]))).
Proof.
  set (w := peer _).
  apply (GetDvar_value client "sv_hostname" w
           (snd (default ([], w) (dvarQueries client "sv_hostname" 1 0 w)))
           (snd (GetDvar client "sv_hostname" w)) 1
           [["sv_iw4madmin_in something"]]
           ["Server info"] []
           ("sv_hostname is: " ++ String dquote
              ("^1My Server^7" ++ String dquote " default: none"))
           "My" (" Server" ++ String dquote " default: none")).
  - discriminate.
  - reflexivity.
  - lia.
  - vm_compute. reflexivity.
  - vm_compute. reflexivity.
  - reflexivity.
  - vm_compute. reflexivity.
  - vm_compute. reflexivity.
  - vm_compute. reflexivity.
  - reflexivity.
  - reflexivity.
Defined.

Lemma GetDvar_query_error_witness :
  GetDvar client "sv_hostname"
          (Net.mkNet false [None; Some refused; Some refused; Some refused;
                            Some refused]
                     [reply ["sv_iw4madmin_in something"; "unrelated"]; deadline]
                     [] 0)
  = (("", Some refused),
     snd (GetDvar client "sv_hostname"
            (Net.mkNet false [None; Some refused; Some refused; Some refused;
                              Some refused]
                       [reply ["sv_iw4madmin_in something"; "unrelated"]; deadline]
                       [] 0))).
Proof.
  set (w := Net.mkNet _ _ _ _ _).
  apply (GetDvar_query_error client "sv_hostname" w
           (snd (default ([], w) (dvarQueries client "sv_hostname" 1 0 w)))
           (snd (GetDvar client "sv_hostname" w)) 1
           [["sv_iw4madmin_in something"; "unrelated"]] []).
  - discriminate.
  - reflexivity.
  - lia.
  - vm_compute. reflexivity.
  - vm_compute. reflexivity.
  - reflexivity.
  - vm_compute. reflexivity.
Defined.

End DvarValueExamples.

(* ===================================================================== *)
(** ** White space around ASCII text *)
(* ===================================================================== *)

Section SpaceBytes.

Lemma space2_ascii_first (a b : ascii) :
  isASCII a = true -> Strings.space2 a b = false.
Proof.
  unfold isASCII, Strings.space2. intros H.
  destruct (N.eqb_spec (code a) 194) as [E|]; [|reflexivity].
  rewrite E in H. discriminate H.
Qed.

Lemma space2_ascii_last (a b : ascii) :
  isASCII b = true -> Strings.space2 a b = false.
Proof.
  unfold isASCII, Strings.space2. intros H.
  destruct (N.eqb_spec (code b) 133) as [E|]; [rewrite E in H; discriminate H|].
  destruct (N.eqb_spec (code b) 160) as [E|]; [rewrite E in H; discriminate H|].
  apply andb_false_r.
Qed.

Lemma space3_ascii_first (a b c : ascii) :
  isASCII a = true -> Strings.space3 a b c = false.
Proof.
  destruct a as [[] [] [] [] [] [] [] []]; intros H;
    solve [discriminate H | reflexivity].
Qed.

Lemma space3_ascii_mid (a b c : ascii) :
  isASCII b = true -> Strings.space3 a b c = false.
Proof.
  intros H.
  destruct a as [[] [] [] [] [] [] [] []]; try reflexivity;
    destruct b as [[] [] [] [] [] [] [] []];
    solve [discriminate H | reflexivity].
Qed.

Lemma space3_ascii_last (a b c : ascii) :
  isASCII c = true -> Strings.space3 a b c = false.
Proof.
  intros H.
  destruct a as [[] [] [] [] [] [] [] []]; try reflexivity;
    destruct b as [[] [] [] [] [] [] [] []]; try reflexivity;
    destruct c as [[] [] [] [] [] [] [] []];
    solve [discriminate H | reflexivity].
Qed.

End SpaceBytes.

Section TrimInContext.

Lemma trimLeft_headPlain (s : string) :
  Strings.trimLeft s = s <-> headPlain s = true.
Proof.
  assert (L : forall t u, (String.length t < String.length u)%nat ->
                     Strings.trimLeft t <> u).
  { intros t u Hlt E. pose proof (trimLeft_length t). rewrite E in *. lia. }
  destruct s as [|a s1]; [split; reflexivity|].
  unfold headPlain.
  destruct (Strings.asciiSpace a) eqn:Ea.
  { rewrite trimLeft_space by assumption. cbn [negb andb]. split; [|discriminate].
    intros H. apply L in H; [easy|]. cbn. lia. }
  destruct s1 as [|b s2]; [cbn; rewrite Ea; split; reflexivity|].
  destruct (Strings.space2 a b) eqn:E2.
  { rewrite trimLeft_space2 by assumption. cbn [negb andb]. split; [|discriminate].
    intros H. apply L in H; [easy|]. cbn. lia. }
  destruct s2 as [|c s3]; [cbn; rewrite Ea, E2; split; reflexivity|].
  destruct (Strings.space3 a b c) eqn:E3.
  { rewrite trimLeft_space3 by assumption. cbn [negb andb]. split; [|discriminate].
    intros H. apply L in H; [easy|]. cbn. lia. }
  cbn. rewrite Ea, E2, E3. split; reflexivity.
Qed.

Lemma trimLeftRev_length (s : string) :
  (String.length (Strings.trimLeftRev s) <= String.length s)%nat.
Proof.
  apply (trimLeftRev_cases (fun t r => (String.length r <= String.length t)%nat)).
  - intros; lia.
  - intros a t r H. cbn [String.length]. lia.
Qed.

Lemma trimLeftRev_headPlainRev (s : string) :
  Strings.trimLeftRev s = s <-> headPlainRev s = true.
Proof.
  assert (L : forall t u, (String.length t < String.length u)%nat ->
                     Strings.trimLeftRev t <> u).
  { intros t u Hlt E. pose proof (trimLeftRev_length t). rewrite E in *. lia. }
  destruct s as [|a s1]; [split; reflexivity|].
  unfold headPlainRev.
  destruct (Strings.asciiSpace a) eqn:Ea.
  { replace (Strings.trimLeftRev (String a s1)) with (Strings.trimLeftRev s1)
      by (cbn; rewrite Ea; reflexivity).
    cbn [negb andb]. split; [|discriminate].
    intros H. apply L in H; [easy|]. cbn. lia. }
  destruct s1 as [|b s2]; [cbn; rewrite Ea; split; reflexivity|].
  destruct (Strings.space2 b a) eqn:E2.
  { replace (Strings.trimLeftRev (String a (String b s2)))
      with (Strings.trimLeftRev s2) by (cbn; rewrite Ea, E2; reflexivity).
    cbn [negb andb]. split; [|discriminate].
    intros H. apply L in H; [easy|]. cbn. lia. }
  destruct s2 as [|c s3]; [cbn; rewrite Ea, E2; split; reflexivity|].
  destruct (Strings.space3 c b a) eqn:E3.
  { replace (Strings.trimLeftRev (String a (String b (String c s3))))
      with (Strings.trimLeftRev s3) by (cbn; rewrite Ea, E2, E3; reflexivity).
    cbn [negb andb]. split; [|discriminate].
    intros H. apply L in H; [easy|]. cbn. lia. }
  cbn. rewrite Ea, E2, E3. split; reflexivity.
Qed.

(** Text that has no white space at its head keeps that when an ASCII
    byte and more follow it. *)
Lemma headPlain_context (x W : string) (c : ascii) :
  headPlain x = true -> isASCII c = true ->
  x <> "" \/ Strings.asciiSpace c = false ->
  headPlain (x ++ String c W) = true.
Proof.
  intros Hx Hc Hne.
  destruct x as [|a [|b [|d x3]]].
  - destruct Hne as [Hne|Hs]; [congruence|].
    change ("" ++ String c W) with (String c W). unfold headPlain. rewrite Hs.
    destruct W as [|b [|d W]]; cbn [negb andb];
      rewrite ?space2_ascii_first, ?space3_ascii_first by assumption; reflexivity.
  - rewrite append_cons. change ("" ++ String c W) with (String c W).
    unfold headPlain in *. apply andb_true_iff in Hx as [-> _].
    rewrite space2_ascii_last by assumption.
    destruct W; rewrite ?space3_ascii_mid by assumption; reflexivity.
  - rewrite !append_cons. change ("" ++ String c W) with (String c W).
    unfold headPlain in *. apply andb_true_iff in Hx as [-> Hx].
    apply andb_true_iff in Hx as [-> _].
    rewrite space3_ascii_last by assumption. reflexivity.
  - rewrite !append_cons. exact Hx.
Qed.

Lemma headPlainRev_context (x W : string) (c : ascii) :
  headPlainRev x = true -> isASCII c = true ->
  x <> "" \/ Strings.asciiSpace c = false ->
  headPlainRev (x ++ String c W) = true.
Proof.
  intros Hx Hc Hne.
  destruct x as [|a [|b [|d x3]]].
  - destruct Hne as [Hne|Hs]; [congruence|].
    change ("" ++ String c W) with (String c W). unfold headPlainRev. rewrite Hs.
    destruct W as [|b [|d W]]; cbn [negb andb];
      rewrite ?space2_ascii_last, ?space3_ascii_last by assumption; reflexivity.
  - rewrite append_cons. change ("" ++ String c W) with (String c W).
    unfold headPlainRev in *. apply andb_true_iff in Hx as [-> _].
    rewrite space2_ascii_first by assumption.
    destruct W; rewrite ?space3_ascii_mid by assumption; reflexivity.
  - rewrite !append_cons. change ("" ++ String c W) with (String c W).
    unfold headPlainRev in *. apply andb_true_iff in Hx as [-> Hx].
    apply andb_true_iff in Hx as [-> _].
    rewrite space3_ascii_first by assumption. reflexivity.
  - rewrite !append_cons. exact Hx.
Qed.

Lemma trimRight_headPlainRev (s : string) :
  Strings.trimRight s = s <-> headPlainRev (rev s) = true.
Proof.
  unfold Strings.trimRight. rewrite <- trimLeftRev_headPlainRev. split.
  - intros H. rewrite <- H at 2. rewrite rev_involutive. reflexivity.
  - intros ->. apply rev_involutive.
Qed.

Lemma TrimSpace_plain (s : string) :
  headPlain s = true -> headPlainRev (rev s) = true -> Strings.TrimSpace s = s.
Proof.
  intros H1 H2. unfold Strings.TrimSpace.
  apply trimLeft_headPlain in H1. rewrite H1.
  apply trimRight_headPlainRev, H2.
Qed.

Lemma trimLeft_suffix (s : string) : exists pre, s = pre ++ Strings.trimLeft s.
Proof.
  apply (trimLeft_cases (fun t r => exists pre, t = pre ++ r)).
  - intros t _. exists "". reflexivity.
  - intros a t r [pre ->]. exists (String a pre). reflexivity.
Qed.

(** A text that [TrimSpace] leaves alone has no white space at either
    end. *)
Lemma TrimSpace_fixed (s : string) :
  Strings.TrimSpace s = s ->
  headPlain s = true /\ headPlainRev (rev s) = true.
Proof.
  unfold Strings.TrimSpace. intros H.
  destruct (trimLeft_suffix s) as [pre Hpre].
  destruct (trimRight_prefix (Strings.trimLeft s)) as [post Hpost].
  rewrite H in Hpost.
  assert (Hlen : String.length s
                 = (String.length pre + (String.length s + String.length post))%nat).
  { rewrite Hpre at 1. rewrite Hpost at 1. rewrite !append_length. reflexivity. }
  assert (pre = "") as -> by (destruct pre; [reflexivity|cbn in Hlen; lia]).
  change ("" ++ Strings.trimLeft s) with (Strings.trimLeft s) in Hpre.
  split.
  - apply trimLeft_headPlain. congruence.
  - apply trimRight_headPlainRev. rewrite <- Hpre in H. exact H.
Qed.

End TrimInContext.

(* ===================================================================== *)
(** ** Framed responses *)
(* ===================================================================== *)

Section Frames.

Lemma prefix_app (m s : string) : String.prefix m (m ++ s) = true.
Proof.
  induction m as [|a m IH]; [destruct s; reflexivity|].
  rewrite append_cons. cbn [String.prefix].
  destruct (ascii_dec a a); [exact IH|congruence].
Qed.

Lemma drop_app (m s : string) : drop (String.length m) (m ++ s) = s.
Proof. induction m as [|a m IH]; [reflexivity|]. rewrite append_cons. exact IH. Qed.

Lemma append_inj_l (m s t : string) : m ++ s = m ++ t -> s = t.
Proof.
  induction m as [|a m IH]; [auto|]. rewrite !append_cons. intros [= H]. auto.
Qed.

Lemma append_empty (s t : string) : s ++ t = "" -> s = "" /\ t = "".
Proof.
  destruct s; [auto|]. rewrite append_cons. discriminate.
Qed.

Lemma Contains_no_first (s : string) (a : ascii) (r : string) :
  hasByte s a = false -> Strings.Contains s (String a r) = false.
Proof.
  induction s as [|b s IH]; intros H; [reflexivity|].
  cbn [hasByte] in H. apply orb_false_iff in H as [Hb Hs].
  cbn [Strings.Contains]. rewrite (IH Hs), orb_false_r.
  unfold Strings.HasPrefix. cbn [String.prefix].
  destruct (ascii_dec a b) as [->|]; [|reflexivity].
  rewrite Ascii.eqb_refl in Hb. discriminate.
Qed.

Lemma ReplaceAll_absent (s : string) (o : ascii) (old' new : string) :
  Strings.Contains s (String o old') = false ->
  Strings.ReplaceAll s (String o old') new = s.
Proof.
  induction s as [|a s IH]; intros H; [reflexivity|].
  cbn [Strings.Contains] in H. apply orb_false_iff in H as [Hp Hs].
  rewrite ReplaceAll_step. cbv zeta. rewrite Hp, (IH Hs). reflexivity.
Qed.

Lemma hasByte_markers (ms : list string) :
  Forall isMarker ms -> hasByte (markers ms) cr = false.
Proof.
  induction 1 as [|m ms Hm _ IH]; [reflexivity|].
  cbn [markers]. rewrite hasByte_app, IH.
  destruct Hm as [->| ->]; reflexivity.
Qed.

(** A text that starts with no marker is what a run of markers before
    it leaves; the run is determined. *)
Lemma markers_unique (ms : list string) :
  forall ms' body r,
    Forall isMarker ms -> Forall isMarker ms' ->
    Strings.HasPrefix body sentinel = false ->
    Strings.HasPrefix body printLF = false ->
    Strings.HasPrefix r sentinel = false ->
    Strings.HasPrefix r printLF = false ->
    markers ms ++ body = markers ms' ++ r ->
    body = r.
Proof.
  assert (Hstart : forall m x y,
             isMarker m ->
             Strings.HasPrefix y sentinel = false ->
             Strings.HasPrefix y printLF = false ->
             y <> m ++ x).
  { intros m x y [->| ->] H1 H2 ->; unfold Strings.HasPrefix in *;
      rewrite prefix_app in *; discriminate. }
  induction ms as [|m ms IH]; intros ms' body r Hms Hms' Hb1 Hb2 Hr1 Hr2 E.
  - destruct ms' as [|m' ms']; [exact E|].
    inversion Hms'; subst. cbn [markers] in E. rewrite append_assoc in E.
    change ("" ++ body) with body in E.
    exfalso.
    match goal with
    | Hm : isMarker m' |- _ => exact (Hstart m' _ body Hm Hb1 Hb2 E)
    end.
  - inversion Hms; subst.
    destruct ms' as [|m' ms'].
    + cbn [markers] in E. rewrite append_assoc in E.
      change ("" ++ r) with r in E. symmetry in E.
      exfalso.
      match goal with
      | Hm : isMarker m |- _ => exact (Hstart m _ r Hm Hr1 Hr2 E)
      end.
    + inversion Hms'; subst. cbn [markers] in E. rewrite !append_assoc in E.
      match goal with
      | Hm : isMarker m, Hm' : isMarker m' |- _ =>
          destruct Hm as [->| ->]; destruct Hm' as [->| ->]
      end.
      * apply append_inj_l in E. eapply IH; eauto.
      * unfold sentinel, printLF in E. rewrite !append_cons in E. discriminate E.
      * unfold sentinel, printLF in E. rewrite !append_cons in E. discriminate E.
      * apply append_inj_l in E. eapply IH; eauto.
Qed.

(** The opening loop of [normalizeRCON] takes a run of markers off a
    text that starts with none. *)
Lemma stripLeading_framed (ms : list string) (body : string) (fuel : nat) :
  Forall isMarker ms ->
  Strings.HasPrefix body sentinel = false ->
  Strings.HasPrefix body printLF = false ->
  (String.length (markers ms ++ body) < fuel)%nat ->
  stripLeading fuel (markers ms ++ body) = body.
Proof.
  intros Hms Hs Hp Hfuel.
  destruct (stripLeading_spec fuel (markers ms ++ body) Hfuel)
    as (ms' & Hms' & Es & H1 & H2).
  symmetry. eapply (markers_unique ms ms'); eauto.
Qed.

Lemma ReplaceAll_CRLF_absent (s : string) :
  hasByte s cr = false -> Strings.ReplaceAll s CRLF LF = s.
Proof.
  intros H. unfold CRLF. apply ReplaceAll_absent, Contains_no_first, H.
Qed.

End Frames.

Section FramesClaims.

(** X20.  Normalization takes the frame off and nothing else: for a
    run of leading markers (sentinels and print lines, in any order
    and number) before a body that holds no carriage return, does not
    start with a marker, and holds no marker right after a line feed,
    [normalizeRCON] returns the body, trimmed. *)
Theorem normalizeRCON_framed (ms : list string) (body : string) :
  Forall isMarker ms ->
  hasByte body cr = false ->
  Strings.HasPrefix body sentinel = false ->
  Strings.HasPrefix body printLF = false ->
  Strings.Contains body (LF ++ sentinel) = false ->
  Strings.Contains body (LF ++ printLF) = false ->
  normalizeRCON (markers ms ++ body) = Strings.TrimSpace body.
Proof.
  intros Hms Hcr Hs Hp Hcs Hcp. unfold normalizeRCON.
  destruct (isEmpty (markers ms ++ body)) eqn:E.
  - apply isEmpty_true in E. rewrite E.
    apply append_empty in E as [_ ->]. reflexivity.
  - rewrite ReplaceAll_CRLF_absent
      by (rewrite hasByte_app, hasByte_markers, Hcr; auto).
    rewrite stripLeading_framed by (auto; lia).
    change (LF ++ sentinel) with (String nl sentinel) in *.
    change (LF ++ printLF) with (String nl printLF) in *.
    rewrite (ReplaceAll_absent _ _ _ _ Hcs), (ReplaceAll_absent _ _ _ _ Hcp).
    reflexivity.
Qed.

Lemma normalizeRCON_framed_witness :
  normalizeRCON (markers [sentinel; sentinel; printLF]
                   ++ "map: mp_nuketown" ++ LF ++ " print" ++ LF)
  = Strings.TrimSpace ("map: mp_nuketown" ++ LF ++ " print" ++ LF).
Proof.
  apply (normalizeRCON_framed [sentinel; sentinel; printLF]
           ("map: mp_nuketown" ++ LF ++ " print" ++ LF)).
  - repeat constructor; (left; reflexivity) || (right; reflexivity).
  - reflexivity.
  - reflexivity.
  - reflexivity.
  - reflexivity.
  - reflexivity.
Defined.

End FramesClaims.

Section FrameScans.

Lemma ReplaceAll_line (l R : string) (p new : string) :
  hasByte l nl = false ->
  Strings.ReplaceAll (l ++ R) (String nl p) new
  = l ++ Strings.ReplaceAll R (String nl p) new.
Proof.
  induction l as [|a l IH]; intros H; [reflexivity|].
  cbn [hasByte] in H. apply orb_false_iff in H as [Ha Hl].
  rewrite !append_cons, ReplaceAll_step. cbv zeta.
  assert (Hp : Strings.HasPrefix (String a (l ++ R)) (String nl p) = false).
  { unfold Strings.HasPrefix. cbn [String.prefix].
    destruct (ascii_dec nl a) as [<-|]; [|reflexivity].
    rewrite Ascii.eqb_refl in Ha. discriminate. }
  rewrite Hp, (IH Hl). reflexivity.
Qed.

Lemma ReplaceAll_at (o : ascii) (old' R new : string) :
  Strings.ReplaceAll (String o old' ++ R) (String o old') new
  = new ++ Strings.ReplaceAll R (String o old') new.
Proof.
  rewrite append_cons, ReplaceAll_step. cbv zeta.
  rewrite <- append_cons. unfold Strings.HasPrefix.
  rewrite prefix_app, drop_app. reflexivity.
Qed.

Lemma ReplaceAll_skip (o : ascii) (old' new : string) (a : ascii) (R : string) :
  Strings.HasPrefix (String a R) (String o old') = false ->
  Strings.ReplaceAll (String a R) (String o old') new
  = String a (Strings.ReplaceAll R (String o old') new).
Proof. intros H. rewrite ReplaceAll_step. cbv zeta. rewrite H. reflexivity. Qed.

Lemma prefix_line_open (m l W : string) :
  hasByte m nl = false ->
  String.prefix m (l ++ String nl W) = String.prefix m l.
Proof.
  revert l; induction m as [|b m IH]; intros l H.
  - destruct l; reflexivity.
  - cbn [hasByte] in H. apply orb_false_iff in H as [Hb Hm].
    destruct l as [|a l].
    + change ("" ++ String nl W) with (String nl W). cbn [String.prefix].
      destruct (ascii_dec b nl) as [->|]; [|reflexivity].
      rewrite Ascii.eqb_refl in Hb. discriminate.
    + rewrite append_cons. cbn [String.prefix].
      destruct (ascii_dec b a); [apply IH, Hm|reflexivity].
Qed.

Lemma prefix_line_closed (m l W : string) :
  hasByte m nl = false -> hasByte l nl = false ->
  String.prefix (m ++ LF) (l ++ String nl W) = String.eqb m l.
Proof.
  revert l; induction m as [|b m IH]; intros l Hm Hl.
  - change ("" ++ LF) with LF. destruct l as [|a l].
    + change ("" ++ String nl W) with (String nl W). destruct W; reflexivity.
    + rewrite append_cons. cbn [hasByte] in Hl.
      apply orb_false_iff in Hl as [Ha _].
      unfold LF. cbn [String.prefix String.eqb].
      destruct (ascii_dec nl a) as [<-|]; [|reflexivity].
      rewrite Ascii.eqb_refl in Ha. discriminate.
  - cbn [hasByte] in Hm. apply orb_false_iff in Hm as [Hb Hm].
    rewrite append_cons. destruct l as [|a l].
    + change ("" ++ String nl W) with (String nl W). cbn [String.prefix String.eqb].
      destruct (ascii_dec b nl) as [->|]; [|reflexivity].
      rewrite Ascii.eqb_refl in Hb. discriminate.
    + rewrite append_cons. cbn [hasByte] in Hl.
      apply orb_false_iff in Hl as [_ Hl].
      cbn [String.prefix String.eqb].
      destruct (ascii_dec b a) as [->|Hne].
      * rewrite Ascii.eqb_refl. apply IH; assumption.
      * destruct (Ascii.eqb_spec b a); [congruence|reflexivity].
Qed.

Lemma joinLines_cons (l : string) (ls : list string) (R : string) :
  joinLines (l :: ls) ++ R = l ++ String nl (joinLines ls ++ R).
Proof. cbn [joinLines]. rewrite !append_assoc. reflexivity. Qed.

(** A scan for a pattern that starts with a line feed passes over
    lines that do not start with the rest of the pattern; what it does
    at the line feed of the last line decides how it goes on. *)
Lemma ReplaceAll_lines (old' : string) (ls : list string) (R T : string) :
  ls <> [] ->
  Forall (fun l => hasByte l nl = false
                   /\ forall W, String.prefix old' (l ++ String nl W) = false) ls ->
  Strings.ReplaceAll (String nl R) (String nl old') LF = String nl T ->
  Strings.ReplaceAll (joinLines ls ++ R) (String nl old') LF = joinLines ls ++ T.
Proof.
  intros Hne Hls HR. induction Hls as [|l ls [Hl _] Hrest IH]; [congruence|].
  rewrite !joinLines_cons, (ReplaceAll_line _ _ _ _ Hl).
  destruct ls as [|l' ls'].
  - cbn [joinLines]. change ("" ++ R) with R. change ("" ++ T) with T.
    rewrite HR. reflexivity.
  - rewrite ReplaceAll_skip.
    + rewrite IH by discriminate. reflexivity.
    + inversion Hrest as [|? ? [_ Hl'] _]; subst.
      unfold Strings.HasPrefix. cbn [String.prefix].
      destruct (ascii_dec nl nl); [|congruence].
      rewrite joinLines_cons. apply Hl'.
Qed.

End FrameScans.

Section FrameReading.

Lemma wireLine_scan_sentinel (l : string) :
  wireLine l ->
  hasByte l nl = false
  /\ forall W, String.prefix sentinel (l ++ String nl W) = false.
Proof.
  intros ((_ & Hnl & _) & _ & Hs & _). split; [exact Hnl|].
  intros W. rewrite prefix_line_open by reflexivity. exact Hs.
Qed.

Lemma wireLine_scan_print (l : string) :
  wireLine l ->
  hasByte l nl = false
  /\ forall W, String.prefix printLF (l ++ String nl W) = false.
Proof.
  intros ((_ & Hnl & _) & _ & _ & Hp). split; [exact Hnl|].
  intros W. change printLF with ("print" ++ LF).
  rewrite prefix_line_closed by (reflexivity || exact Hnl).
  destruct (String.eqb_spec "print" l); [congruence|reflexivity].
Qed.

Lemma Forall_wireLine_head (ls : list string) (R : string) :
  ls <> [] -> Forall wireLine ls ->
  Strings.HasPrefix (joinLines ls ++ R) sentinel = false
  /\ Strings.HasPrefix (joinLines ls ++ R) printLF = false.
Proof.
  intros Hne Hls. destruct Hls as [|l ls Hl _]; [congruence|].
  rewrite joinLines_cons. unfold Strings.HasPrefix. split.
  - apply wireLine_scan_sentinel, Hl.
  - apply wireLine_scan_print, Hl.
Qed.

(** The scan for a sentinel after a line feed, over frames: every
    frame but the first loses its sentinel. *)
Lemma sentinel_scan_frames (rest : list (list string)) :
  Forall goodFrame rest ->
  forall ls,
    ls <> [] -> Forall wireLine ls ->
    Strings.ReplaceAll (joinLines ls ++ tailFrames (sentinel ++ printLF) rest)
                       (LF ++ sentinel) LF
    = joinLines ls ++ tailFrames printLF rest.
Proof.
  change (LF ++ sentinel) with (String nl sentinel).
  induction 1 as [|ls2 rest (Hne2 & Hw2 & _) _ IH]; intros ls Hne Hls.
  - apply ReplaceAll_lines; [exact Hne| |reflexivity].
    eapply List.Forall_impl; [|exact Hls]. apply wireLine_scan_sentinel.
  - apply ReplaceAll_lines; [exact Hne| |].
    { eapply List.Forall_impl; [|exact Hls]. apply wireLine_scan_sentinel. }
    cbn [tailFrames]. rewrite !append_assoc, <- append_cons.
    rewrite ReplaceAll_at. change (LF ++ ?x) with (String nl x). f_equal.
    change printLF with ("print" ++ String nl "") at 1.
    rewrite append_assoc.
    change ("print" ++ String nl "" ++ ?x) with ("print" ++ String nl x).
    rewrite ReplaceAll_line by reflexivity.
    rewrite ReplaceAll_skip.
    + rewrite (IH ls2 Hne2 Hw2). reflexivity.
    + unfold Strings.HasPrefix. cbn [String.prefix].
      destruct (ascii_dec nl nl); [|congruence].
      apply (Forall_wireLine_head ls2 _ Hne2 Hw2).
Qed.

(** The scan for a print line after a line feed, over frames without
    their sentinels: the print lines go. *)
Lemma print_scan_frames (rest : list (list string)) :
  Forall goodFrame rest ->
  forall ls,
    ls <> [] -> Forall wireLine ls ->
    Strings.ReplaceAll (joinLines ls ++ tailFrames printLF rest)
                       (LF ++ printLF) LF
    = joinLines ls ++ tailFrames "" rest.
Proof.
  change (LF ++ printLF) with (String nl printLF).
  induction 1 as [|ls2 rest (Hne2 & Hw2 & _) _ IH]; intros ls Hne Hls.
  - apply ReplaceAll_lines; [exact Hne| |reflexivity].
    eapply List.Forall_impl; [|exact Hls]. apply wireLine_scan_print.
  - apply ReplaceAll_lines; [exact Hne| |].
    { eapply List.Forall_impl; [|exact Hls]. apply wireLine_scan_print. }
    cbn [tailFrames]. rewrite <- append_cons.
    rewrite ReplaceAll_at. change (LF ++ ?x) with (String nl x). f_equal.
    rewrite (IH ls2 Hne2 Hw2). reflexivity.
Qed.

Lemma joinLines_app (l1 l2 : list string) :
  joinLines (l1 ++ l2) = joinLines l1 ++ joinLines l2.
Proof.
  induction l1 as [|l l1 IH]; [reflexivity|].
  rewrite <- List.app_comm_cons. cbn [joinLines]. rewrite IH, !append_assoc.
  reflexivity.
Qed.

Lemma tailFrames_lines (rest : list (list string)) :
  tailFrames "" rest = joinLines (List.concat rest).
Proof.
  induction rest as [|ls rest IH]; [reflexivity|].
  cbn [tailFrames List.concat]. rewrite joinLines_app, IH. reflexivity.
Qed.

Lemma hasByte_joinLines (ls : list string) (a : ascii) :
  Ascii.eqb a nl = false ->
  Forall (fun l => hasByte l a = false) ls -> hasByte (joinLines ls) a = false.
Proof.
  intros Ha. induction 1 as [|l ls Hl _ IH]; [reflexivity|].
  cbn [joinLines]. rewrite !hasByte_app, Hl, IH. cbn. rewrite Ha. reflexivity.
Qed.

Lemma hasByte_tailFrames (fs : list (list string)) :
  Forall goodFrame fs -> hasByte (tailFrames (sentinel ++ printLF) fs) cr = false.
Proof.
  induction 1 as [|ls fs (_ & Hw & _) _ IH]; [reflexivity|].
  cbn [tailFrames]. rewrite !hasByte_app, IH, hasByte_joinLines; [reflexivity..|].
  eapply List.Forall_impl; [|exact Hw]. intros l (_ & H & _). exact H.
Qed.

End FrameReading.

Section FrameLines.

Lemma Split_nonempty (s : string) (sep : ascii) : Strings.Split s sep <> [].
Proof.
  destruct s as [|a s]; [discriminate|]. cbn [Strings.Split].
  destruct (Ascii.eqb a sep); [discriminate|].
  destruct (Strings.Split s sep); discriminate.
Qed.

Lemma Split_app_sep (s t : string) (sep : ascii) :
  Strings.Split (s ++ String sep t) sep
  = (Strings.Split s sep ++ Strings.Split t sep)%list.
Proof.
  induction s as [|a s IH].
  - change ("" ++ String sep t) with (String sep t). cbn [Strings.Split].
    rewrite Ascii.eqb_refl. reflexivity.
  - rewrite append_cons. cbn [Strings.Split]. rewrite IH.
    destruct (Ascii.eqb a sep); [reflexivity|].
    pose proof (Split_nonempty s sep) as Hne.
    destruct (Strings.Split s sep) as [|x xs]; [congruence|]. reflexivity.
Qed.

Lemma nonEmptyTrimmed_app (l1 l2 : list string) :
  nonEmptyTrimmed (l1 ++ l2) = (nonEmptyTrimmed l1 ++ nonEmptyTrimmed l2)%list.
Proof.
  induction l1 as [|p l1 IH]; [reflexivity|].
  rewrite <- List.app_comm_cons. cbn [nonEmptyTrimmed].
  destruct (isEmpty (Strings.TrimSpace p)); rewrite IH; reflexivity.
Qed.

Lemma rev_nonempty (s : string) : s <> "" -> rev s <> "".
Proof.
  intros Hne E. apply Hne. rewrite <- (rev_involutive s), E. reflexivity.
Qed.

(** The last line of joined lines, and what comes before it. *)
Lemma joinLines_last (L : list string) :
  L <> [] -> Forall cleanLine L ->
  exists P ln,
    joinLines L = P ++ ln ++ LF /\ cleanLine ln
    /\ (P = "" \/ exists P', P = P' ++ LF).
Proof.
  intros Hne HL. induction HL as [|l L Hl HL IH]; [congruence|].
  destruct L as [|l' L'].
  - exists "", l. split; [reflexivity|]. split; [exact Hl|left; reflexivity].
  - destruct IH as (P & ln & E & Hln & HP); [discriminate|].
    exists (l ++ LF ++ P), ln. split; [|split; [exact Hln|]].
    + cbn [joinLines] in *. rewrite E, !append_assoc. reflexivity.
    + right. destruct HP as [->|[P' ->]].
      * exists l. rewrite append_empty_r. reflexivity.
      * exists (l ++ LF ++ P'). rewrite !append_assoc. reflexivity.
Qed.

(** Trimming joined lines takes the last line feed off and nothing
    else. *)
Lemma TrimSpace_joinLines (L : list string) :
  L <> [] -> Forall cleanLine L ->
  Strings.TrimSpace (joinLines L) ++ LF = joinLines L.
Proof.
  intros Hne HL.
  assert (Hleft : Strings.trimLeft (joinLines L) = joinLines L).
  { destruct HL as [|l L (Hl & _ & Ht) _]; [congruence|].
    cbn [joinLines]. change (LF ++ joinLines L) with (String nl (joinLines L)).
    apply trimLeft_headPlain, headPlain_context;
      [apply TrimSpace_fixed, Ht|reflexivity|left; exact Hl]. }
  destruct (joinLines_last L Hne HL) as (P & ln & E & (Hln & _ & Ht) & HP).
  unfold Strings.TrimSpace. rewrite Hleft. rewrite E at 2.
  rewrite <- append_assoc. f_equal.
  unfold Strings.trimRight. rewrite E.
  rewrite <- append_assoc, rev_app.
  change (rev LF) with LF. change (LF ++ ?x) with (String nl x).
  change (Strings.trimLeftRev (String nl ?x)) with (Strings.trimLeftRev x).
  rewrite rev_app.
  assert (Hplain : headPlainRev (rev ln ++ rev P) = true).
  { destruct HP as [->|[P' ->]].
    - change (rev "") with "". rewrite append_empty_r. apply TrimSpace_fixed, Ht.
    - rewrite rev_app. change (rev LF) with LF.
      change (LF ++ ?x) with (String nl x).
      apply headPlainRev_context;
        [apply TrimSpace_fixed, Ht|reflexivity|left; apply rev_nonempty, Hln]. }
  apply trimLeftRev_headPlainRev in Hplain. rewrite Hplain.
  rewrite rev_app, !rev_involutive. reflexivity.
Qed.

Lemma lines_of_joinLines (L : list string) :
  L <> [] -> Forall cleanLine L ->
  splitNonEmptyLines (Strings.TrimSpace (joinLines L)) = L.
Proof.
  intros Hne HL.
  pose proof (nonEmptyTrimmed_joinLines L HL) as G.
  rewrite <- (TrimSpace_joinLines L Hne HL) in G.
  unfold LF in G. rewrite Split_app_sep, nonEmptyTrimmed_app in G.
  cbn [Strings.Split nonEmptyTrimmed] in G.
  change (isEmpty (Strings.TrimSpace "")) with true in G. cbv iota in G.
  rewrite List.app_nil_r in G.
  unfold splitNonEmptyLines.
  destruct (isEmpty (Strings.TrimSpace (joinLines L))) eqn:E; [|exact G].
  apply isEmpty_true in E. rewrite E in G. cbn in G. congruence.
Qed.

Lemma substring_whole (s : string) (n : nat) :
  (String.length s <= n)%nat -> String.substring 0 n s = s.
Proof.
  revert n; induction s as [|a s IH]; intros n H.
  - destruct n; reflexivity.
  - destruct n as [|n]; [cbn in H; lia|].
    cbn [String.substring]. rewrite IH; [reflexivity|cbn in H; lia].
Qed.

Lemma received_frames (fs : list (list string)) :
  Forall goodFrame fs ->
  received (map frame fs) = tailFrames (sentinel ++ printLF) fs.
Proof.
  induction 1 as [|ls fs (_ & _ & Hlen) _ IH]; [reflexivity|].
  cbn [map received tailFrames]. unfold kept.
  rewrite (substring_whole _ _ Hlen), IH. unfold frame.
  rewrite !append_assoc. reflexivity.
Qed.

(** Normalization of the frames of one answer: the lines of all
    frames, joined. *)
Lemma normalizeRCON_frames (ls : list string) (rest : list (list string)) :
  Forall goodFrame (ls :: rest) ->
  normalizeRCON (tailFrames (sentinel ++ printLF) (ls :: rest))
  = Strings.TrimSpace (joinLines (List.concat (ls :: rest))).
Proof.
  intros Hfs. pose proof (hasByte_tailFrames _ Hfs) as Hcr.
  inversion Hfs as [|? ? (Hne & Hw & _) Hrest]; subst.
  unfold normalizeRCON.
  change (isEmpty (tailFrames (sentinel ++ printLF) (ls :: rest))) with false.
  cbv iota. rewrite (ReplaceAll_CRLF_absent _ Hcr).
  cbn [tailFrames].
  change ((sentinel ++ printLF)
            ++ joinLines ls ++ tailFrames (sentinel ++ printLF) rest)
    with (markers [sentinel; printLF]
            ++ joinLines ls ++ tailFrames (sentinel ++ printLF) rest).
  destruct (Forall_wireLine_head ls (tailFrames (sentinel ++ printLF) rest) Hne Hw)
    as [H1 H2].
  rewrite stripLeading_framed;
    [|constructor; [left; reflexivity|constructor; [right; reflexivity|constructor]]
     |exact H1|exact H2|lia].
  rewrite (sentinel_scan_frames rest Hrest ls Hne Hw).
  rewrite (print_scan_frames rest Hrest ls Hne Hw).
  rewrite tailFrames_lines, <- joinLines_app. reflexivity.
Qed.

End FrameLines.

Section FrameClaims.

(** X21.  An answer that comes in framed datagrams is read as the
    lines of all its frames, in order.  Each datagram is the sentinel,
    the print line and one or more lines ended by a line feed, and fits
    the read buffer; the lines are not empty, hold no line feed or
    carriage return, have no white space around them, do not start
    with the sentinel and are not the word print.  On an open socket,
    when the read after the datagrams ends at its deadline,
    [readResponse] returns exactly these lines and no error. *)
Theorem readResponse_frames
        (rc : RCONClient.t) (readTimeout readExtension : Z) (w : Net.net)
        (fs : list (list string)) (e : error) (rest : list Net.readEvent) :
  Net.closed w = false ->
  Net.reads w
  = (map Net.Datagram (map frame fs) ++ Net.ReadFails e :: rest)%list ->
  isTimeout e = true ->
  fs <> [] ->
  Forall goodFrame fs ->
  readResponse rc readTimeout readExtension w
  = ((List.concat fs, None), Net.setReads rest w).
Proof.
  intros Hopen Hreads He Hne Hfs. unfold readResponse.
  rewrite Hopen, Hreads, readLoop_datagrams. cbn [readLoop].
  change ("" ++ received (map frame fs)) with (received (map frame fs)).
  rewrite He, (received_frames fs Hfs).
  destruct fs as [|ls fs']; [congruence|].
  change (isEmpty (tailFrames (sentinel ++ printLF) (ls :: fs'))) with false.
  cbv iota. rewrite (normalizeRCON_frames ls fs' Hfs).
  assert (HL : List.concat (ls :: fs') <> []
               /\ Forall cleanLine (List.concat (ls :: fs'))).
  { split.
    - inversion Hfs as [|? ? (Hl & _) _]; subst. cbn [List.concat].
      destruct ls; [congruence|discriminate].
    - apply Forall_concat. eapply List.Forall_impl; [|exact Hfs].
      intros l (_ & Hw & _). eapply List.Forall_impl; [|exact Hw].
      intros x (Hx & _). exact Hx. }
  destruct HL as [HL1 HL2].
  pose proof (lines_of_joinLines _ HL1 HL2) as Hsplit.
  destruct (isEmpty (Strings.TrimSpace (joinLines (List.concat (ls :: fs')))))
    eqn:E.
  - apply isEmpty_true in E. rewrite E in Hsplit.
    change (splitNonEmptyLines "") with (@nil string) in Hsplit. congruence.
  - rewrite Hsplit. reflexivity.
Qed.

Lemma readResponse_frames_witness :
  readResponse client Second 0
               (peer [Net.Datagram (frame ["map: mp_nuketown"; "num score ping"]);
                      Net.Datagram (frame [statusRow]);
                      deadline])
  = ((List.concat [["map: mp_nuketown"; "num score ping"]; [statusRow]], None),
     Net.setReads [] (peer [])).
Proof.
  apply (readResponse_frames client Second 0
           (peer [Net.Datagram (frame ["map: mp_nuketown"; "num score ping"]);
                  Net.Datagram (frame [statusRow]); deadline])
           [["map: mp_nuketown"; "num score ping"]; [statusRow]]
           Net.errDeadline []).
  - reflexivity.
  - reflexivity.
  - reflexivity.
  - discriminate.
  - repeat (constructor;
            [split; [discriminate|split;
               [repeat constructor; vm_compute; congruence
               |apply Nat.leb_le; vm_compute; reflexivity]]|]).
    constructor.
Defined.

End FrameClaims.

(* ===================================================================== *)
(** ** The answers to getinfo and getstatus *)
(* ===================================================================== *)

Section BlockFacts.

Lemma hasByte_encodeKV (pairs : list (string * string)) (a : ascii) :
  Ascii.eqb a backslash = false ->
  Forall (fun p => hasByte (fst p) a = false /\ hasByte (snd p) a = false) pairs ->
  hasByte (encodeKV pairs) a = false.
Proof.
  intros Ha. induction 1 as [|[k v] pairs [Hk Hv] _ IH]; [reflexivity|].
  cbn [encodeKV hasByte fst snd] in *.
  rewrite Ha, hasByte_app. cbn [hasByte]. rewrite Hk, Ha, hasByte_app, Hv, IH.
  reflexivity.
Qed.

Lemma encodeKV_head (pairs : list (string * string)) :
  pairs <> [] -> exists X, encodeKV pairs = String backslash X.
Proof. destruct pairs as [|[k v] pairs]; [congruence|]. eexists. reflexivity. Qed.

(** The block ends with its last value, which has a backslash before
    it. *)
Lemma rev_encodeKV (pairs : list (string * string)) :
  pairs <> [] -> Forall cleanPair pairs ->
  exists v W,
    rev (encodeKV pairs) = rev v ++ String backslash W
    /\ Strings.TrimSpace v = v.
Proof.
  intros Hne H. induction H as [|[k v] pairs Hp Hrest IH]; [congruence|].
  cbn [encodeKV]. destruct pairs as [|p pairs].
  - exists v, (rev k ++ String backslash "").
    split; [|apply Hp].
    cbn [encodeKV]. rewrite append_empty_r.
    change (String backslash (k ++ String backslash v))
      with (String backslash "" ++ (k ++ String backslash "" ++ v)).
    rewrite !rev_app, !append_assoc. reflexivity.
  - destruct IH as (v' & W & E & Hv'); [discriminate|].
    exists v', (W ++ rev (String backslash (k ++ String backslash v))).
    split; [|exact Hv'].
    change (String backslash (k ++ String backslash (v ++ encodeKV (p :: pairs))))
      with (String backslash "" ++ (k ++ String backslash "" ++ v
                                      ++ encodeKV (p :: pairs))).
    rewrite <- !append_assoc, rev_app, E, !append_assoc.
    rewrite append_cons. reflexivity.
Qed.

Lemma headPlain_ascii (a : ascii) (s : string) :
  isASCII a = true -> Strings.asciiSpace a = false ->
  headPlain (String a s) = true.
Proof.
  intros Ha Hs. apply (headPlain_context "" s a); auto.
Qed.

Lemma TrimSpace_encodeKV (pairs : list (string * string)) :
  pairs <> [] -> Forall cleanPair pairs ->
  Strings.TrimSpace (encodeKV pairs) = encodeKV pairs.
Proof.
  intros Hne H. apply TrimSpace_plain.
  - destruct (encodeKV_head pairs Hne) as [X ->].
    apply headPlain_ascii; reflexivity.
  - destruct (rev_encodeKV pairs Hne H) as (v & W & -> & Hv).
    apply headPlainRev_context;
      [apply TrimSpace_fixed, Hv|reflexivity|right; reflexivity].
Qed.

Lemma Contains_line (l R : string) (p : string) :
  hasByte l nl = false ->
  Strings.Contains (l ++ R) (String nl p) = Strings.Contains R (String nl p).
Proof.
  induction l as [|a l IH]; intros H; [reflexivity|].
  cbn [hasByte] in H. apply orb_false_iff in H as [Ha Hl].
  rewrite append_cons. cbn [Strings.Contains]. rewrite (IH Hl).
  unfold Strings.HasPrefix at 1. cbn [String.prefix].
  destruct (ascii_dec nl a) as [<-|]; [|reflexivity].
  rewrite Ascii.eqb_refl in Ha. discriminate.
Qed.

Lemma parseKV_block (pairs : list (string * string)) :
  Forall cleanPair pairs -> parseKV (encodeKV pairs) = stored pairs.
Proof.
  intros H. rewrite parseKV_fold. unfold stored.
  destruct H as [|[k v] pairs Hp Hrest]; [reflexivity|].
  cbn [encodeKV Strings.Split]. rewrite Ascii.eqb_refl. cbn [dropEmptyHead].
  pose proof Hp as (_ & Hk & _ & Hv & _). cbn [fst snd] in *.
  rewrite (Split_pairs _ Hrest _ _ Hk Hv).
  apply fold_storePair_clean. constructor; assumption.
Qed.

End BlockFacts.

Section Answers.

Variable rc : RCONClient.t.
Hypothesis established : RCONClient.Conn rc <> None.

(** What makes a line a banner of the answers: ASCII text that starts
    with a letter other than p. *)
Variable banner : string.
Hypothesis banner_cr : hasByte banner cr = false.
Hypothesis banner_nl : hasByte banner nl = false.
Hypothesis banner_trimmed : Strings.TrimSpace banner = banner.
Hypothesis banner_nonempty : banner <> "".
Hypothesis banner_sentinel : forall X, Strings.HasPrefix (banner ++ X) sentinel = false.
Hypothesis banner_print : forall X, Strings.HasPrefix (banner ++ X) printLF = false.

Variable pairs : list (string * string).
Hypothesis pairs_nonempty : pairs <> [].
Hypothesis pairs_wire : Forall wirePair pairs.

Lemma pairs_clean : Forall cleanPair pairs.
Proof. eapply List.Forall_impl; [|exact pairs_wire]. intros p [H _]. exact H. Qed.

Lemma block_nl : hasByte (encodeKV pairs) nl = false.
Proof.
  apply hasByte_encodeKV; [reflexivity|].
  eapply List.Forall_impl; [|exact pairs_wire]. intros p (_ & H1 & H2 & _). auto.
Qed.

Lemma block_cr : hasByte (encodeKV pairs) cr = false.
Proof.
  apply hasByte_encodeKV; [reflexivity|].
  eapply List.Forall_impl; [|exact pairs_wire]. intros p (_ & _ & _ & H1 & H2). auto.
Qed.

Lemma normalizeRCON_answer :
  normalizeRCON (answer banner pairs) = banner ++ LF ++ encodeKV pairs.
Proof.
  unfold answer.
  set (body := banner ++ LF ++ encodeKV pairs).
  assert (Hcr : hasByte body cr = false).
  { unfold body. rewrite !hasByte_app, banner_cr, block_cr. reflexivity. }
  assert (Hno : forall m,
             Strings.HasPrefix (encodeKV pairs) m = false ->
             Strings.Contains body (String nl m) = false).
  { intros m Hm. unfold body. rewrite (Contains_line _ _ _ banner_nl).
    change (LF ++ encodeKV pairs) with (String nl (encodeKV pairs)).
    cbn [Strings.Contains]. rewrite (Contains_no_first _ _ _ block_nl), orb_false_r.
    unfold Strings.HasPrefix in *. cbn [String.prefix].
    destruct (ascii_dec nl nl); [exact Hm|congruence]. }
  destruct (encodeKV_head pairs pairs_nonempty) as [X EX].
  unfold normalizeRCON.
  change (isEmpty (sentinel ++ body)) with false. cbv iota.
  rewrite ReplaceAll_CRLF_absent by (rewrite hasByte_app, Hcr; reflexivity).
  change (sentinel ++ body) with (markers [sentinel] ++ body).
  rewrite stripLeading_framed;
    [|constructor; [left; reflexivity|constructor]
     |apply banner_sentinel|apply banner_print|lia].
  change (LF ++ sentinel) with (String nl sentinel).
  change (LF ++ printLF) with (String nl printLF).
  rewrite (ReplaceAll_absent body nl sentinel LF)
    by (apply Hno; rewrite EX; reflexivity).
  rewrite (ReplaceAll_absent body nl printLF LF)
    by (apply Hno; rewrite EX; reflexivity).
  apply TrimSpace_plain.
  - unfold body. change (LF ++ encodeKV pairs) with (String nl (encodeKV pairs)).
    apply headPlain_context;
      [apply TrimSpace_fixed, banner_trimmed|reflexivity|left; exact banner_nonempty].
  - unfold body. change (LF ++ encodeKV pairs) with (String nl (encodeKV pairs)).
    rewrite rev_app.
    destruct (rev_encodeKV pairs pairs_nonempty pairs_clean) as (v & W & E & Hv).
    change (String nl (encodeKV pairs)) with (LF ++ encodeKV pairs).
    rewrite rev_app, E, !append_assoc, append_cons.
    apply headPlainRev_context;
      [apply TrimSpace_fixed, Hv|reflexivity|right; reflexivity].
Qed.

Lemma lines_of_answer :
  splitNonEmptyLines (banner ++ LF ++ encodeKV pairs) = [banner; encodeKV pairs].
Proof.
  unfold splitNonEmptyLines.
  assert (E : isEmpty (banner ++ LF ++ encodeKV pairs) = false).
  { destruct banner; [congruence|reflexivity]. }
  rewrite E. change (LF ++ encodeKV pairs) with (String nl (encodeKV pairs)).
  rewrite (split_Split_app _ _ _ banner_nl), (Split_without_sep _ _ block_nl).
  cbn [nonEmptyTrimmed].
  rewrite banner_trimmed, (TrimSpace_encodeKV pairs pairs_nonempty pairs_clean).
  apply isEmpty_false in banner_nonempty. rewrite banner_nonempty.
  destruct (encodeKV_head pairs pairs_nonempty) as [X ->]. reflexivity.
Qed.

(** The exchange of [GetInfo] and [GetStatus] on such an answer. *)
Lemma readResponse_answer (a b : Z) (w : Net.net) (e : error)
      (rest : list Net.readEvent) :
  Net.closed w = false ->
  Net.reads w = Net.Datagram (answer banner pairs) :: Net.ReadFails e :: rest ->
  isTimeout e = true ->
  (String.length (answer banner pairs) <= readBufferSize)%nat ->
  readResponse rc a b w
  = (([banner; encodeKV pairs], None), Net.setReads rest w).
Proof.
  intros Hopen Hreads He Hlen. unfold readResponse.
  rewrite Hopen, Hreads. cbn [readLoop].
  rewrite (substring_whole _ _ Hlen).
  change (0 <? String.length (answer banner pairs))%nat with true. cbv iota.
  change ("" ++ answer banner pairs) with (answer banner pairs).
  change (isEmpty (answer banner pairs)) with false. rewrite He. cbv iota.
  rewrite normalizeRCON_answer, lines_of_answer.
  assert (E : isEmpty (banner ++ LF ++ encodeKV pairs) = false).
  { destruct banner; [congruence|reflexivity]. }
  rewrite E. reflexivity.
Qed.

Lemma dataLineOf_answer (folded : string) :
  Strings.EqualFold banner folded = true ->
  (forall X, Strings.EqualFold (String backslash X) folded = false) ->
  dataLineOf folded [banner; encodeKV pairs] = encodeKV pairs.
Proof.
  intros Hb Hd. unfold dataLineOf. cbn [fold_left].
  rewrite banner_trimmed, Hb,
    (TrimSpace_encodeKV pairs pairs_nonempty pairs_clean).
  destruct (encodeKV_head pairs pairs_nonempty) as [X ->].
  rewrite Hd.
  assert (Hp : Strings.HasPrefix (String backslash X) "\" = true)
    by (destruct X; reflexivity).
  rewrite Hp. reflexivity.
Qed.

Lemma queryLines_answer (query emptyMsg : string) (w : Net.net) (e : error)
      (rest : list Net.readEvent) :
  writeGoesThrough w = true ->
  Net.reads w = Net.Datagram (answer banner pairs) :: Net.ReadFails e :: rest ->
  isTimeout e = true ->
  (String.length (answer banner pairs) <= readBufferSize)%nat ->
  exists w',
    queryLines rc query emptyMsg w = (([banner; encodeKV pairs], None), w')
    /\ Net.clock w' = Net.clock w.
Proof.
  intros Hw Hreads He Hlen. unfold queryLines.
  destruct (RCONClient.Conn rc); [|congruence].
  unfold writeGoesThrough in Hw. apply andb_true_iff in Hw as [Hopen Hw].
  apply negb_true_iff in Hopen.
  assert (Hwrite : exists w1,
             Net.connWrite (queryPacket query) w = (None, w1)
             /\ Net.closed w1 = false /\ Net.reads w1 = Net.reads w
             /\ Net.clock w1 = Net.clock w).
  { unfold Net.connWrite, Net.log.
    cbn [Net.closed Net.writes Net.reads Net.trace Net.clock]. rewrite Hopen.
    destruct (Net.writes w) as [|[e0|] ws]; [|discriminate|];
      eexists; repeat split; assumption. }
  destruct Hwrite as (w1 & -> & Hopen1 & Hreads1 & Hclock1).
  rewrite Hreads in Hreads1.
  rewrite (readResponse_answer _ _ w1 e rest Hopen1 Hreads1 He Hlen).
  cbn. eexists. split; [reflexivity|exact Hclock1].
Qed.

End Answers.

Section AnswerClaims.

Variable rc : RCONClient.t.
Hypothesis established : RCONClient.Conn rc <> None.

Lemma EqualFold_backslash (X t : string) :
  Strings.EqualFold (String backslash X) (String "i" t) = false
  /\ Strings.EqualFold (String backslash X) (String "s" t) = false.
Proof.
  unfold Strings.EqualFold.
  destruct X as [|b [|c X]], t as [|b' [|c' t]]; split; reflexivity.
Qed.

(** X22.  [GetInfo] and [GetStatus] decode the answer of the server.
    On an established connection, when the write goes through and the
    peer answers with one datagram that fits the read buffer and is
    made of the sentinel, the banner line (infoResponse, respectively
    statusResponse) and a key/value block, and the next read ends at
    its deadline, the snapshot returned is the one built from the map
    that binds every key of the block to its value (the last one when
    a key comes twice), with no error.  The keys and values of the
    block hold no backslash, line feed or carriage return and have no
    white space around them, the keys are not empty, and the values
    hold no caret. *)
Theorem GetInfo_GetStatus_decode
        (w : Net.net) (pairs : list (string * string)) (e : error)
        (rest : list Net.readEvent) :
  writeGoesThrough w = true ->
  isTimeout e = true ->
  pairs <> [] ->
  Forall wirePair pairs ->
  (Net.reads w
   = Net.Datagram (answer "infoResponse" pairs) :: Net.ReadFails e :: rest ->
   (String.length (answer "infoResponse" pairs) <= readBufferSize)%nat ->
   fst (GetInfo rc w)
   = (Some (serverInfoOf (stored pairs) (Net.clock w)), None))
  /\ (Net.reads w
      = Net.Datagram (answer "statusResponse" pairs) :: Net.ReadFails e :: rest ->
      (String.length (answer "statusResponse" pairs) <= readBufferSize)%nat ->
      fst (GetStatus rc w)
      = (Some (serverStatusInfoOf (stored pairs) (Net.clock w)), None)).
Proof.
  intros Hw He Hne Hpairs.
  assert (Hclean : Forall cleanPair pairs).
  { eapply List.Forall_impl; [|exact Hpairs]. intros p [H _]. exact H. }
  assert (Hinfo : "infoResponse" <> "") by discriminate.
  assert (Hstatus : "statusResponse" <> "") by discriminate.
  split; intros Hreads Hlen.
  - destruct (queryLines_answer rc established "infoResponse"
                eq_refl eq_refl eq_refl Hinfo
                (fun X => eq_refl) (fun X => eq_refl)
                pairs Hne Hpairs "getinfo" "empty infoResponse" w e rest
                Hw Hreads He Hlen) as (w' & Hq & Hclock).
    unfold GetInfo. rewrite Hq.
    rewrite (dataLineOf_answer "infoResponse" eq_refl
               pairs Hne Hpairs "inforesponse" eq_refl
               (fun X => proj1 (EqualFold_backslash X "nforesponse"))).
    rewrite (parseKV_block pairs Hclean), Hclock. reflexivity.
  - destruct (queryLines_answer rc established "statusResponse"
                eq_refl eq_refl eq_refl Hstatus
                (fun X => eq_refl) (fun X => eq_refl)
                pairs Hne Hpairs "getstatus" "empty statusResponse" w e rest
                Hw Hreads He Hlen) as (w' & Hq & Hclock).
    unfold GetStatus. rewrite Hq.
    rewrite (dataLineOf_answer "statusResponse" eq_refl
               pairs Hne Hpairs "statusresponse" eq_refl
               (fun X => proj2 (EqualFold_backslash X "tatusresponse"))).
    rewrite (parseKV_block pairs Hclean), Hclock. reflexivity.
Qed.

End AnswerClaims.

Section AnswerExamples.

Lemma GetInfo_GetStatus_decode_witness :
  fst (GetInfo client
         (peer [Net.Datagram
                  (answer "infoResponse"
                     [("hostname", "My Server"); ("mapname", "mp_nuketown")]);
                deadline]))
  = (Some (serverInfoOf
             (stored [("hostname", "My Server"); ("mapname", "mp_nuketown")]) 0),
     None).
Proof.
  assert (E : RCONClient.Conn client <> None) by discriminate.
  assert (Hne : [("hostname", "My Server"); ("mapname", "mp_nuketown")] <> [])
    by discriminate.
  assert (Hw : Forall wirePair
                 [("hostname", "My Server"); ("mapname", "mp_nuketown")])
    by (repeat constructor; vm_compute; congruence).
  apply (proj1 (GetInfo_GetStatus_decode client E
                  (peer [Net.Datagram
                           (answer "infoResponse"
                              [("hostname", "My Server");
                               ("mapname", "mp_nuketown")]);
                         deadline])
                  [("hostname", "My Server"); ("mapname", "mp_nuketown")]
                  Net.errDeadline [] eq_refl eq_refl Hne Hw)).
  - reflexivity.
  - apply Nat.leb_le. vm_compute. reflexivity.
Defined.

End AnswerExamples.

(* ===================================================================== *)
(** ** The second pattern of the dvar extractor *)
(* ===================================================================== *)

Section SecondPattern.

Lemma space_not_i (a : ascii) :
  space a = true -> Ascii.eqb (lower a) "i" = false.
Proof.
  destruct a as [[] [] [] [] [] [] [] []]; intros H;
    solve [discriminate H | reflexivity].
Qed.

Lemma separator_not_i (a : ascii) :
  isSeparator a = true -> Ascii.eqb (lower a) "i" = false /\ space a = false.
Proof.
  unfold isSeparator. intros H. apply orb_true_iff in H as [H|H];
    apply Ascii.eqb_eq in H; subst; split; reflexivity.
Qed.

Lemma searchFrom_Bol (r : regex) (s : string) :
  forall n, n <> 0%nat -> searchFrom (Seq Bol r) n s = None.
Proof.
  induction s as [|a s IH]; intros n Hn; cbn [searchFrom run].
  - destruct n; [congruence|reflexivity].
  - destruct n; [congruence|]. cbn [Nat.eqb]. apply IH. discriminate.
Qed.

(** A greedy repetition fails when what follows fails at every cut. *)
Lemma repGreedy_none (p : ascii -> bool) (sp : string) :
  forall n rest cs k,
    allBytes p sp = true ->
    match rest with String b _ => p b = false | EmptyString => True end ->
    (forall pre post,
        sp = pre ++ post ->
        k (n + String.length pre)%nat (post ++ rest) cs = None) ->
    repGreedy p n (sp ++ rest) cs k = None.
Proof.
  induction sp as [|a sp IH]; intros n rest cs k Hp Hrest Hk.
  - change ("" ++ rest) with rest. rewrite (repGreedy_stop _ _ _ _ _ Hrest).
    specialize (Hk "" "" eq_refl). cbn [String.length] in Hk.
    rewrite Nat.add_0_r in Hk. exact Hk.
  - cbn [allBytes] in Hp. apply andb_true_iff in Hp as [Ha Hp].
    rewrite append_cons. cbn [repGreedy]. rewrite Ha.
    rewrite IH; [| exact Hp | exact Hrest |].
    + specialize (Hk "" (String a sp) eq_refl). cbn [String.length] in Hk.
      rewrite Nat.add_0_r in Hk. rewrite append_cons in Hk. exact Hk.
    + intros pre post E. specialize (Hk (String a pre) post).
      cbn [String.length] in Hk. rewrite Nat.add_succ_r in Hk.
      apply Hk. rewrite E. reflexivity.
Qed.

(** A greedy repetition takes all it can when what follows matches
    there. *)
Lemma repGreedy_takes (p : ascii -> bool) (sp : string) :
  forall n rest cs k m,
    allBytes p sp = true ->
    match rest with String b _ => p b = false | EmptyString => True end ->
    k (n + String.length sp)%nat rest cs = Some m ->
    repGreedy p n (sp ++ rest) cs k = Some m.
Proof.
  induction sp as [|a sp IH]; intros n rest cs k m Hp Hrest Hk.
  - change ("" ++ rest) with rest. rewrite (repGreedy_stop _ _ _ _ _ Hrest).
    cbn [String.length] in Hk. rewrite Nat.add_0_r in Hk. exact Hk.
  - cbn [allBytes] in Hp. apply andb_true_iff in Hp as [Ha Hp].
    rewrite append_cons. cbn [repGreedy]. rewrite Ha.
    rewrite (IH (S n) rest cs k m Hp Hrest); [reflexivity|].
    cbn [String.length] in Hk. rewrite Nat.add_succ_r in Hk. exact Hk.
Qed.

Lemma literal_is_fails (s : string) (n : nat) (cs : captures) (k : cont) :
  match s with
  | String b _ => Ascii.eqb (lower b) "i" = false
  | EmptyString => True
  end ->
  run (literal true "is:") n s cs k = None.
Proof.
  destruct s as [|b s]; [reflexivity|]. intros H.
  cbn [literal].
  change (litFold "i") with (Byte (fun b0 : ascii => Ascii.eqb (lower b0) "i")).
  rewrite run_Seq. cbn [run]. rewrite H. reflexivity.
Qed.

End SecondPattern.

Section SecondPatternValue.

Lemma allBytes_app_inv (p : ascii -> bool) (pre post : string) :
  allBytes p (pre ++ post) = true -> allBytes p post = true.
Proof.
  induction pre as [|a pre IH]; [auto|].
  rewrite append_cons. cbn [allBytes]. intros H.
  apply andb_true_iff in H as [_ H]. auto.
Qed.

Lemma run_plus (p : ascii -> bool) (n : nat) (s : string) (cs : captures)
      (k : cont) :
  run (plus p) n s cs k
  = match s with
    | String a s' => if p a then repGreedy p (S n) s' cs k else None
    | EmptyString => None
    end.
Proof. reflexivity. Qed.

Lemma run_star (p : ascii -> bool) (n : nat) (s : string) (cs : captures)
      (k : cont) :
  run (star p) n s cs k = repGreedy p n s cs k.
Proof. reflexivity. Qed.

Lemma run_Byte (p : ascii -> bool) (n : nat) (a : ascii) (s : string)
      (cs : captures) (k : cont) :
  p a = true -> run (Byte p) n (String a s) cs k = k (S n) s cs.
Proof. intros H. cbn [run]. rewrite H. reflexivity. Qed.

(** The first pattern does not match a line on which a colon or an
    equals sign follows the name. *)
Lemma dvarRx1_no_match (name sp1 rest : string) (c : ascii) :
  allBytes isASCII name = true ->
  allBytes space sp1 = true ->
  isSeparator c = true ->
  FindStringSubmatch (dvarRx1 name) (name ++ sp1 ++ String c rest) = None.
Proof.
  intros Hname Hsp Hc.
  destruct (separator_not_i c Hc) as [Hci Hcs].
  assert (G : run (dvarRx1 name) 0 (name ++ sp1 ++ String c rest) []
                  (fun _ _ cs => Some cs) = None).
  { unfold dvarRx1. cbn [seq]. rewrite run_Seq.
    change (run Bol 0 ?s ?cs ?k) with (k 0%nat s cs). cbv beta.
    rewrite run_Seq, (run_literal_fold name _ _ _ _ Hname).
    rewrite run_Seq, run_plus.
    destruct sp1 as [|a sp1].
    - change ("" ++ String c rest) with (String c rest). cbv iota.
      rewrite Hcs. reflexivity.
    - rewrite append_cons. cbn [allBytes] in Hsp.
      apply andb_true_iff in Hsp as [Ha Hsp]. rewrite Ha.
      apply repGreedy_none; [exact Hsp|exact Hcs|].
      intros pre post E. cbv beta. rewrite run_Seq. apply literal_is_fails.
      destruct post as [|b post].
      + change ("" ++ String c rest) with (String c rest). exact Hci.
      + rewrite append_cons. apply space_not_i.
        rewrite E in Hsp. apply allBytes_app_inv in Hsp.
        cbn [allBytes] in Hsp. apply andb_true_iff in Hsp as [Hb _]. exact Hb. }
  unfold FindStringSubmatch.
  destruct (name ++ sp1 ++ String c rest) as [|a s]; cbn [searchFrom];
    rewrite G; [reflexivity|].
  unfold dvarRx1. cbn [seq]. apply searchFrom_Bol. discriminate.
Qed.

(** The second pattern on a line made of the name, a colon or an
    equals sign, and the value between double quotes: the group is the
    whole value. *)
Lemma dvarRx2_value (name sp1 sp2 v : string) (c : ascii) :
  allBytes isASCII name = true ->
  allBytes space sp1 = true ->
  isSeparator c = true ->
  allBytes space sp2 = true ->
  allBytes plainValueByte v = true ->
  FindStringSubmatch
    (dvarRx2 name)
    (name ++ sp1 ++ String c (sp2 ++ String dquote (v ++ String dquote "")))
  = Some [("val", v)].
Proof.
  intros Hname Hsp1 Hc Hsp2 Hv.
  destruct (separator_not_i c Hc) as [_ Hcs].
  assert (Hdot : allBytes dot v = true).
  { clear -Hv. induction v as [|a v IH]; [reflexivity|].
    cbn [allBytes] in *. apply andb_true_iff in Hv as [Ha Hv].
    unfold plainValueByte in Ha. apply andb_true_iff in Ha as [-> _]. auto. }
  assert (G : run (dvarRx2 name) 0
                  (name ++ sp1
                     ++ String c (sp2 ++ String dquote (v ++ String dquote ""))) []
                  (fun _ _ cs => Some cs) = Some [("val", v)]).
  { unfold dvarRx2. cbn [seq]. rewrite run_Seq.
    change (run Bol 0 ?s ?cs ?k) with (k 0%nat s cs). cbv beta.
    rewrite run_Seq, (run_literal_fold name _ _ _ _ Hname).
    rewrite run_Seq, run_star.
    apply repGreedy_takes; [exact Hsp1|exact Hcs|].
    rewrite run_Seq, run_Byte by exact Hc.
    rewrite run_Seq, run_star.
    apply repGreedy_takes; [exact Hsp2|reflexivity|].
    rewrite run_Seq. apply run_Opt_taken.
    rewrite run_Seq, run_Group_lazy.
    apply repLazy_stops; [exact Hdot| |].
    - intros pre a post E.
      assert (Ha : Ascii.eqb dquote a = false).
      { rewrite E in Hv. apply allBytes_app_inv in Hv. cbn [allBytes] in Hv.
        apply andb_true_iff in Hv as [Ha _]. unfold plainValueByte in Ha.
        apply andb_true_iff in Ha as [_ Ha]. apply negb_true_iff in Ha.
        rewrite Ascii.eqb_sym. exact Ha. }
      rewrite append_cons, run_Seq. cbn [run lit isEmpty]. rewrite Ha.
      reflexivity.
    - rewrite run_Seq. cbn [run lit isEmpty]. rewrite Ascii.eqb_refl.
      match goal with
      | |- context [String.substring 0 ?n (v ++ ?t)] =>
          replace n with (String.length v) by lia
      end.
      rewrite substring_app. reflexivity. }
  unfold FindStringSubmatch.
  destruct (name ++ sp1 ++ String c (sp2 ++ String dquote (v ++ String dquote "")));
    cbn [searchFrom]; rewrite G; reflexivity.
Qed.

End SecondPatternValue.

Section SecondPatternClaims.

Variable rc : RCONClient.t.

(** X23.  [GetDvar] reads a value written after a colon or an equals
    sign whole.  After [n] answers (0 to 2) that match no pattern and
    carry the pollution token, the next query is answered with lines
    of which the first that matches is, once cleaned, the name, white
    space or none, a colon or an equals sign, white space or none, and
    the value between double quotes, with no double quote of its own.
    Then [GetDvar] returns the value with its white space, stripped of
    its colour codes, and no error, without a further query or
    pause. *)
Theorem GetDvar_separator_value
        (dvar : string) (w wn w' : Net.net) (n : nat) (rs : list (list string))
        (pre post : list string) (line sp1 sp2 v : string) (c : ascii) :
  dvar <> "" ->
  allBytes isASCII (Strings.TrimSpace dvar) = true ->
  (n <= 2)%nat ->
  dvarQueries rc dvar n 0 w = Some (rs, wn) ->
  forallb (unmatched (dvarRx1 (Strings.TrimSpace dvar))
                     (dvarRx2 (Strings.TrimSpace dvar))) (List.concat rs) = true ->
  forallb needRetry rs = true ->
  SendCommand rc dvar None [requireResponse] (beforeQuery n w wn)
  = ((pre ++ line :: post)%list, None, w') ->
  forallb (unmatched (dvarRx1 (Strings.TrimSpace dvar))
                     (dvarRx2 (Strings.TrimSpace dvar))) pre = true ->
  cleaned line
  = Strings.TrimSpace dvar ++ sp1
      ++ String c (sp2 ++ String dquote (v ++ String dquote "")) ->
  allBytes space sp1 = true ->
  isSeparator c = true ->
  allBytes space sp2 = true ->
  allBytes plainValueByte v = true ->
  GetDvar rc dvar w = ((stripColorCodes v, None), w').
Proof.
  intros Hd Hname Hn Hq Hun Hpol Hsend Hpre Hline Hsp1 Hc Hsp2 Hv. unfold GetDvar.
  apply isEmpty_false in Hd. rewrite Hd.
  change (Z.to_nat maxAttempts) with 3%nat.
  replace 3%nat with (n + S (2 - n))%nat by lia.
  rewrite (dvarLoop_after_polluted rc dvar _ _ n (S (2 - n)) w wn rs Hq Hun Hpol).
  rewrite dvarLoop_S, Hsend.
  rewrite (scanLines_unmatched_prefix _ _ pre (line :: post) Hpre).
  cbn [scanLines]. fold (cleaned line). rewrite Hline.
  rewrite (dvarRx1_no_match _ sp1 _ c Hname Hsp1 Hc).
  rewrite (dvarRx2_value _ sp1 sp2 v c Hname Hsp1 Hc Hsp2 Hv).
  assert (E : isEmpty (Strings.TrimSpace dvar ++ sp1
                         ++ String c (sp2 ++ String dquote (v ++ String dquote "")))
              = false).
  { destruct (Strings.TrimSpace dvar); [destruct sp1|]; reflexivity. }
  rewrite E. reflexivity.
Qed.

End SecondPatternClaims.

Section SecondPatternExamples.

Lemma GetDvar_separator_value_witness :
  GetDvar client "sv_hostname"
          (peer [reply ["sv_hostname = " ++ String dquote
                           ("^1My Server^7" ++ String dquote "")]])
  = ((stripColorCodes "My Server", None),
     snd (GetDvar client "sv_hostname"
            (peer [reply ["sv_hostname = " ++ String dquote
                             ("^1My Server^7" ++ String dquote "")]]))).
Proof.
  set (w := peer _).
  apply (GetDvar_separator_value client "sv_hostname" w w
           (snd (GetDvar client "sv_hostname" w)) 0 []
           [] []
           ("sv_hostname = " ++ String dquote ("^1My Server^7" ++ String dquote ""))
           " " " " "My Server" "="%char).
  - discriminate.
  - reflexivity.
  - lia.
  - reflexivity.
  - reflexivity.
  - reflexivity.
  - vm_compute. reflexivity.
  - reflexivity.
  - vm_compute. reflexivity.
  - reflexivity.
  - reflexivity.
  - reflexivity.
  - reflexivity.
Defined.

End SecondPatternExamples.

(* ===================================================================== *)
(** ** The rows of the status table *)
(* ===================================================================== *)

Section StatusRows.

Lemma statusStart_header (pre : list string) (hdr : string) (post : list string) :
  noHeader pre = true ->
  MatchString headerRx (Strings.TrimSpace hdr) = true ->
  forall i, statusStart (pre ++ hdr :: post) i = S (i + List.length pre).
Proof.
  intros Hpre Hhdr. induction pre as [|l pre IH]; intros i.
  - rewrite List.app_nil_l. cbn [statusStart List.length]. rewrite Hhdr. lia.
  - cbn [noHeader forallb] in Hpre. apply andb_true_iff in Hpre as [Hl Hpre].
    apply negb_true_iff in Hl.
    rewrite <- List.app_comm_cons. cbn [statusStart List.length]. rewrite Hl.
    rewrite (IH Hpre). lia.
Qed.

Lemma statusStart_noHeader (res : list string) :
  noHeader res = true -> forall i, statusStart res i = 0%nat.
Proof.
  induction res as [|l res IH]; intros H i; [reflexivity|].
  cbn [noHeader forallb] in H. apply andb_true_iff in H as [Hl H].
  apply negb_true_iff in Hl. cbn [statusStart]. rewrite Hl. apply IH, H.
Qed.

Lemma skipn_header (pre : list string) (hdr : string) (post : list string) :
  List.skipn (S (List.length pre)) (pre ++ hdr :: post) = post.
Proof. induction pre as [|l pre IH]; [reflexivity|exact IH]. Qed.

(** X24.  The players of [Status] come from the lines after the first
    header line only: lines before it are never read as rows, however
    they look.  When no line is a header, every line is read as a
    possible row. *)
Theorem Status_rows_after_header
        (rc : RCONClient.t) (w w' : Net.net) (res : list string) :
  SendCommand rc "status" None [requireResponse; withReadExtension Second] w
  = ((res, None), w') ->
  (forall pre hdr post,
      res = (pre ++ hdr :: post)%list ->
      noHeader pre = true ->
      MatchString headerRx (Strings.TrimSpace hdr) = true ->
      fst (Status rc w)
      = (Some (ServerStatus.mk (statusMap res) (statusPlayers post) res
                               (Net.clock w')),
         None))
  /\ (noHeader res = true ->
      fst (Status rc w)
      = (Some (ServerStatus.mk (statusMap res) (statusPlayers res) res
                               (Net.clock w')),
         None)).
Proof.
  intros Hsend. unfold Status. rewrite Hsend. split.
  - intros pre hdr post -> Hpre Hhdr. cbn [fst].
    rewrite (statusStart_header pre hdr post Hpre Hhdr 0), Nat.add_0_l.
    rewrite skipn_header. reflexivity.
  - intros Hno. cbn [fst]. rewrite (statusStart_noHeader res Hno 0).
    reflexivity.
Qed.

End StatusRows.

Section StatusRowsExamples.

Lemma Status_rows_after_header_witness :
  fst (Status client
         (peer [reply [statusRow; "map: mp_nuketown";
                       "num score ping guid name lastmsg address qport rate";
                       statusRow]]))
  = (Some (ServerStatus.mk
             (statusMap [statusRow; "map: mp_nuketown";
                         "num score ping guid name lastmsg address qport rate";
                         statusRow])
             (statusPlayers [statusRow])
             [statusRow; "map: mp_nuketown";
              "num score ping guid name lastmsg address qport rate"; statusRow]
             0),
     None).
Proof.
  set (w := peer _).
  apply (proj1 (Status_rows_after_header client w
                  (snd (SendCommand client "status" None
                          [requireResponse; withReadExtension Second] w))
                  [statusRow; "map: mp_nuketown";
                   "num score ping guid name lastmsg address qport rate";
                   statusRow]
                  eq_refl)
               [statusRow; "map: mp_nuketown"]
               "num score ping guid name lastmsg address qport rate"
               [statusRow]).
  - reflexivity.
  - vm_compute. reflexivity.
  - vm_compute. reflexivity.
Defined.

End StatusRowsExamples.

Section StatusMap.

Lemma lower_colon (a : ascii) (x : ascii) :
  lower a = x -> Ascii.eqb x ":" = false -> Ascii.eqb a ":" = false.
Proof.
  intros <- H. destruct (Ascii.eqb_spec a ":") as [->|]; [|reflexivity].
  exact H.
Qed.

Lemma lower_is_colon (a : ascii) : lower a = ":"%char -> a = ":"%char.
Proof.
  destruct a as [[] [] [] [] [] [] [] []]; intros H;
    solve [discriminate H | reflexivity].
Qed.

Lemma ToLower_head (t : string) (x : ascii) (r : string) :
  Strings.HasPrefix (Strings.ToLower t) (String x r) = true ->
  Ascii.eqb x "i" = false -> Ascii.eqb x "k" = false ->
  exists a t', t = String a t' /\ lower a = x
               /\ Strings.HasPrefix (Strings.ToLower t') r = true.
Proof.
  intros H Hi Hk. unfold Strings.HasPrefix in *.
  assert (Hhead : forall y s, String.prefix (String x r) (String y s) = true ->
                         y = x /\ String.prefix r s = true).
  { intros y s Hp. cbn [String.prefix] in Hp.
    destruct (ascii_dec x y); [split; [congruence|exact Hp]|discriminate]. }
  destruct t as [|a [|b [|c t]]].
  - discriminate H.
  - exists a, "". cbn [Strings.ToLower] in H. apply Hhead in H as [H1 H2].
    split; [reflexivity|]. split; [exact H1|exact H2].
  - cbn [Strings.ToLower] in H.
    destruct ((code a =? 196)%N && (code b =? 176)%N).
    + apply Hhead in H as [H1 _]. subst x. discriminate Hi.
    + exists a, (String b ""). apply Hhead in H as [H1 H2].
      split; [reflexivity|]. split; [exact H1|exact H2].
  - change (Strings.ToLower (String a (String b (String c t))))
      with (if (code a =? 196)%N && (code b =? 176)%N
            then String "i" (Strings.ToLower (String c t))
            else if (code a =? 226)%N && (code b =? 132)%N && (code c =? 170)%N
                 then String "k" (Strings.ToLower t)
                 else String (lower a) (Strings.ToLower (String b (String c t))))
      in H.
    destruct ((code a =? 196)%N && (code b =? 176)%N).
    + apply Hhead in H as [H1 _]. subst x. discriminate Hi.
    + destruct ((code a =? 226)%N && (code b =? 132)%N && (code c =? 170)%N).
      * apply Hhead in H as [H1 _]. subst x. discriminate Hk.
      * exists a, (String b (String c t)). apply Hhead in H as [H1 H2].
        split; [reflexivity|]. split; [exact H1|exact H2].
Qed.

(** A line that starts with map: in any case is cut after these four
    bytes. *)
Lemma SplitN2_map (t : string) :
  Strings.HasPrefix (Strings.ToLower t) "map:" = true ->
  exists word, Strings.SplitN2 t ":" = [word; drop 4 t].
Proof.
  intros H.
  apply ToLower_head in H as (a & t1 & -> & Ha & H); [|reflexivity..].
  apply ToLower_head in H as (b & t2 & -> & Hb & H); [|reflexivity..].
  apply ToLower_head in H as (c & t3 & -> & Hc & H); [|reflexivity..].
  apply ToLower_head in H as (d & t4 & -> & Hd & _); [|reflexivity..].
  apply lower_is_colon in Hd. subst d.
  unfold Strings.SplitN2. cbn [Strings.Cut].
  rewrite (lower_colon a _ Ha), (lower_colon b _ Hb), (lower_colon c _ Hc)
    by reflexivity.
  cbn. eexists. reflexivity.
Qed.

Lemma statusMap_first (pre : list string) (line : string) (post : list string) :
  forallb (fun l => negb (Strings.HasPrefix (Strings.ToLower (Strings.TrimSpace l)) "map:"))
          pre = true ->
  Strings.HasPrefix (Strings.ToLower (Strings.TrimSpace line)) "map:" = true ->
  statusMap (pre ++ line :: post)
  = Strings.TrimSpace (drop 4 (Strings.TrimSpace line)).
Proof.
  intros Hpre Hline. induction pre as [|l pre IH].
  - rewrite List.app_nil_l. cbn [statusMap]. rewrite Hline.
    destruct (SplitN2_map _ Hline) as [word ->]. reflexivity.
  - cbn [forallb] in Hpre. apply andb_true_iff in Hpre as [Hl Hpre].
    apply negb_true_iff in Hl. rewrite <- List.app_comm_cons.
    cbn [statusMap]. rewrite Hl. apply IH, Hpre.
Qed.

Lemma statusMap_none (res : list string) :
  forallb (fun l => negb (Strings.HasPrefix (Strings.ToLower (Strings.TrimSpace l)) "map:"))
          res = true ->
  statusMap res = "".
Proof.
  induction res as [|l res IH]; intros H; [reflexivity|].
  cbn [forallb] in H. apply andb_true_iff in H as [Hl H].
  apply negb_true_iff in Hl. cbn [statusMap]. rewrite Hl. apply IH, H.
Qed.

End StatusMap.

Section StatusMapClaims.

(** X25.  The map name of [Status] is what follows the four bytes
    map: (in any case) on the first line that starts with them, with
    the white space around it removed; further such lines are not
    looked at, and colons in the name are kept.  Without such a line
    the map name is empty. *)
Theorem Status_map_name
        (rc : RCONClient.t) (w w' : Net.net) (res : list string) :
  SendCommand rc "status" None [requireResponse; withReadExtension Second] w
  = ((res, None), w') ->
  (forall pre line post,
      res = (pre ++ line :: post)%list ->
      forallb (fun l => negb (isMapLine l)) pre = true ->
      isMapLine line = true ->
      exists st,
        fst (Status rc w) = (Some st, None)
        /\ ServerStatus.Map st = Strings.TrimSpace (drop 4 line))
  /\ (forallb (fun l => negb (isMapLine l)) res = true ->
      exists st,
        fst (Status rc w) = (Some st, None) /\ ServerStatus.Map st = "").
Proof.
  intros Hsend.
  pose proof (SendCommand_Forall rc "status" None
                [requireResponse; withReadExtension Second] w) as Hclean.
  rewrite Hsend in Hclean. cbn [fst] in Hclean.
  assert (Htrim : forall ls,
             Forall cleanLine ls ->
             forallb (fun l => negb (isMapLine l)) ls = true ->
             forallb (fun l => negb (Strings.HasPrefix
                                       (Strings.ToLower (Strings.TrimSpace l)) "map:"))
                     ls = true).
  { induction 1 as [|l ls (_ & _ & Hl) _ IH]; [reflexivity|].
    cbn [forallb]. rewrite Hl. unfold isMapLine at 1.
    intros H. apply andb_true_iff in H as [-> H]. exact (IH H). }
  unfold Status. rewrite Hsend. split.
  - intros pre line post -> Hpre Hline.
    apply Forall_app in Hclean as [Hcpre Hcline].
    inversion Hcline as [|? ? (_ & _ & Hl) _]; subst.
    eexists. split; [reflexivity|]. cbn [ServerStatus.Map].
    rewrite (statusMap_first pre line post (Htrim pre Hcpre Hpre)), Hl;
      [reflexivity|].
    rewrite Hl. exact Hline.
  - intros Hno. eexists. split; [reflexivity|]. cbn [ServerStatus.Map].
    apply statusMap_none, Htrim; assumption.
Qed.

End StatusMapClaims.

Section StatusMapExamples.

Lemma Status_map_name_witness :
  exists st,
    fst (Status client
           (peer [reply ["hostname: x"; "Map:  mp:nuketown"; "map: other"]]))
    = (Some st, None)
    /\ ServerStatus.Map st = Strings.TrimSpace (drop 4 "Map:  mp:nuketown").
Proof.
  set (w := peer _).
  apply (proj1 (Status_map_name client w
                  (snd (SendCommand client "status" None
                          [requireResponse; withReadExtension Second] w))
                  ["hostname: x"; "Map:  mp:nuketown"; "map: other"] eq_refl)
               ["hostname: x"] "Map:  mp:nuketown" ["map: other"]).
  - reflexivity.
  - reflexivity.
  - reflexivity.
Defined.

End StatusMapExamples.

(* ===================================================================== *)
(** ** The row pattern of the status table *)
(* ===================================================================== *)

Section RowPattern.

Lemma field_parts (p : ascii -> bool) (s : string) :
  field p s = true ->
  exists a s', s = String a s' /\ p a = true /\ allBytes p s' = true.
Proof.
  unfold field. destruct s as [|a s']; [discriminate|]. cbn [isEmpty negb andb allBytes].
  intros H. apply andb_true_iff in H as [Ha Hs]. eauto.
Qed.

(** A group over a greedy repetition takes a field whole when what
    follows the field matches. *)
Lemma run_Group_plus (name : string) (p : ascii -> bool) (f rest : string)
      (n : nat) (cs : captures) (k : cont) (m : captures) :
  field p f = true ->
  match rest with String b _ => p b = false | EmptyString => True end ->
  k (n + String.length f)%nat rest ((name, f) :: cs) = Some m ->
  run (Group name (plus p)) n (f ++ rest) cs k = Some m.
Proof.
  intros Hf Hrest Hk. destruct (field_parts p f Hf) as (a & f' & -> & Ha & Hf').
  cbn [run]. rewrite append_cons. unfold plus. cbn [run]. rewrite Ha.
  apply repGreedy_takes; [exact Hf'|exact Hrest|].
  cbn [String.length] in Hk. rewrite Nat.add_succ_r in Hk.
  replace (S n + String.length f' - n)%nat with (String.length (String a f'))
    by (cbn [String.length]; lia).
  rewrite <- append_cons, substring_app. exact Hk.
Qed.

Lemma run_space (s : string) (n : nat) (cs : captures) (k : cont) :
  match s with String b _ => space b = false | EmptyString => True end ->
  run (plus space) n (" " ++ s) cs k = k (S n) s cs.
Proof. intros H. apply run_plus_one; [reflexivity|exact H]. Qed.

Lemma field_head (p q : ascii -> bool) (f rest : string) :
  field p f = true ->
  (forall a, p a = true -> q a = false) ->
  match f ++ rest with String b _ => q b = false | EmptyString => True end.
Proof.
  intros Hf Hpq. destruct (field_parts p f Hf) as (a & f' & -> & Ha & _).
  rewrite append_cons. apply Hpq, Ha.
Qed.

Lemma digit_not_space (a : ascii) : isDigit a = true -> space a = false.
Proof.
  destruct a as [[] [] [] [] [] [] [] []]; intros H;
    solve [discriminate H | reflexivity].
Qed.

Lemma hex_not_space (a : ascii) : hex a = true -> space a = false.
Proof.
  destruct a as [[] [] [] [] [] [] [] []]; intros H;
    solve [discriminate H | reflexivity].
Qed.

Lemma word_not_space (a : ascii) : word a = true -> space a = false.
Proof.
  destruct a as [[] [] [] [] [] [] [] []]; intros H;
    solve [discriminate H | reflexivity].
Qed.

Lemma nonSpace_not_space (a : ascii) : nonSpace a = true -> space a = false.
Proof. unfold nonSpace. intros H. apply negb_true_iff, H. Qed.

Lemma nonSpace_dot (s : string) :
  allBytes nonSpace s = true -> allBytes dot s = true.
Proof.
  induction s as [|a s IH]; [reflexivity|]. cbn [allBytes]. intros H.
  apply andb_true_iff in H as [Ha H]. rewrite (IH H), andb_true_r.
  unfold nonSpace in Ha. unfold dot.
  destruct (Ascii.eqb_spec a nl) as [->|]; [discriminate Ha|reflexivity].
Qed.

End RowPattern.

Section RowTail.

Variables guid name lastmsg ipport qport rate : string.
Hypothesis guid_field : field hex guid = true.
Hypothesis name_field : field nonSpace name = true.
Hypothesis lastmsg_field : field digit lastmsg = true.
Hypothesis ipport_field : field nonSpace ipport = true.
Hypothesis qport_field : field digit qport = true.
Hypothesis rate_field : field digit rate = true.

(** A group over a lazy repetition of the dot takes a field without
    white space whole when white space must follow it. *)
Lemma run_Group_lazy_field (f rest : string) (n : nat) (cs : captures)
      (k : cont) (m : captures) :
  field nonSpace f = true ->
  (forall n' b s' cs', space b = false -> k n' (String b s') cs' = None) ->
  k (n + String.length f)%nat rest (("name", f) :: cs) = Some m ->
  run (Group "name" (plusLazy dot)) n (f ++ rest) cs k = Some m.
Proof.
  intros Hf Hfail Hk. destruct (field_parts _ f Hf) as (a & f' & -> & Ha & Hf').
  cbn [run]. rewrite append_cons. unfold plusLazy. cbn [run].
  assert (Hdot : dot a = true).
  { pose proof (nonSpace_dot (String a "")) as H. cbn [allBytes] in H.
    rewrite Ha in H. specialize (H eq_refl). apply andb_true_iff in H as [H _].
    exact H. }
  rewrite Hdot.
  apply repLazy_stops; [apply nonSpace_dot, Hf'| |].
  - intros pre b post E. rewrite append_cons. apply Hfail.
    rewrite E in Hf'. apply allBytes_app_inv in Hf'. cbn [allBytes] in Hf'.
    apply andb_true_iff in Hf' as [Hb _]. apply nonSpace_not_space, Hb.
  - cbn [String.length] in Hk. rewrite Nat.add_succ_r in Hk.
    replace (S n + String.length f' - n)%nat with (String.length (String a f'))
      by (cbn [String.length]; lia).
    rewrite <- append_cons, substring_app. exact Hk.
Qed.

(** The pattern after the ping, on the fields after the ping. *)
Lemma row_tail (n : nat) (cs : captures) :
  run (seq [plus space; Group "guid" (plus hex); plus space;
            Group "name" (plusLazy dot); plus space;
            Group "lastmsg" (plus digit); plus space;
            Group "ipport" (plus nonSpace); plus space;
            Group "qport" (plus digit); plus space;
            Group "rate" (plus digit)])
      n (rowTail guid name lastmsg ipport qport rate) cs
      (fun _ _ cs' => Some cs')
  = Some (("rate", rate) :: ("qport", qport) :: ("ipport", ipport)
            :: ("lastmsg", lastmsg) :: ("name", name) :: ("guid", guid) :: cs).
Proof.
  unfold rowTail. cbn [seq].
  rewrite run_Seq, run_space
    by (apply (field_head hex space); [exact guid_field|apply hex_not_space]).
  rewrite run_Seq. apply run_Group_plus; [exact guid_field|reflexivity|].
  rewrite run_Seq, run_space
    by (apply (field_head nonSpace space);
        [exact name_field|apply nonSpace_not_space]).
  rewrite run_Seq. apply run_Group_lazy_field; [exact name_field| |].
  { intros n' b s' cs' Hb. rewrite run_Seq, run_plus, Hb. reflexivity. }
  rewrite run_Seq, run_space
    by (apply (field_head digit space); [exact lastmsg_field|apply digit_not_space]).
  rewrite run_Seq. apply run_Group_plus; [exact lastmsg_field|reflexivity|].
  rewrite run_Seq, run_space
    by (apply (field_head nonSpace space);
        [exact ipport_field|apply nonSpace_not_space]).
  rewrite run_Seq. apply run_Group_plus; [exact ipport_field|reflexivity|].
  rewrite run_Seq, run_space
    by (apply (field_head digit space); [exact qport_field|apply digit_not_space]).
  rewrite run_Seq. apply run_Group_plus; [exact qport_field|reflexivity|].
  rewrite run_Seq, run_space.
  2:{ rewrite <- (append_empty_r rate).
      apply (field_head digit space); [exact rate_field|apply digit_not_space]. }
  rewrite <- (append_empty_r rate) at 1.
  apply run_Group_plus; [exact rate_field|exact I|reflexivity].
Qed.

End RowTail.

Section RowHead.

Lemma run_Opt_some (r : regex) (n : nat) (s : string) (cs : captures)
      (k : cont) (m : captures) :
  run r n s cs k = Some m -> run (Opt r) n s cs k = Some m.
Proof. intros H. cbn [run]. rewrite H. reflexivity. Qed.

Lemma run_Group_Alt (g : string) (r1 r2 : regex) (n : nat) (s : string)
      (cs : captures) (k : cont) :
  run (Group g (Alt r1 r2)) n s cs k
  = match run (Group g r1) n s cs k with
    | Some m => Some m
    | None => run (Group g r2) n s cs k
    end.
Proof. reflexivity. Qed.

Lemma run_Group_ping (f rest : string) (n : nat) (cs : captures) (k : cont)
      (m : captures) :
  field digit f = true ->
  match rest with String b _ => digit b = false | EmptyString => True end ->
  k (n + String.length f)%nat rest (("ping", f) :: cs) = Some m ->
  run (Group "ping" (Alt (plus digit) (literal false "LOAD"))) n (f ++ rest) cs k
  = Some m.
Proof.
  intros Hf Hrest Hk.
  rewrite run_Group_Alt, (run_Group_plus "ping" digit f rest n cs k m Hf Hrest Hk).
  reflexivity.
Qed.

Lemma digit_not_minus (a : ascii) : isDigit a = true -> Ascii.eqb "-" a = false.
Proof.
  destruct a as [[] [] [] [] [] [] [] []]; intros H;
    solve [discriminate H | reflexivity].
Qed.

Lemma run_Group_score (f rest : string) (n : nat) (cs : captures) (k : cont)
      (m : captures) :
  field digit f = true ->
  match rest with String b _ => digit b = false | EmptyString => True end ->
  k (n + String.length f)%nat rest (("score", f) :: cs) = Some m ->
  run (Group "score" (Seq (Opt (lit "-")) (plus digit))) n (f ++ rest) cs k
  = Some m.
Proof.
  intros Hf Hrest Hk.
  pose proof (run_Group_plus "score" digit f rest n cs k m Hf Hrest Hk) as H.
  destruct (field_parts _ f Hf) as (a & f' & -> & Ha & _).
  rewrite append_cons in *.
  change (run (Group "score" (Seq (Opt (lit "-")) (plus digit))) n
              (String a (f' ++ rest)) cs k)
    with (match (if Ascii.eqb "-" a
                 then run (plus digit) (S n) (f' ++ rest) cs
                          (fun n' s' cs' =>
                             k n' s' (("score",
                                       String.substring 0 (n' - n)
                                         (String a (f' ++ rest))) :: cs'))
                 else None) with
          | Some m0 => Some m0
          | None => run (Group "score" (plus digit)) n (String a (f' ++ rest)) cs k
          end).
  rewrite (digit_not_minus a Ha). exact H.
Qed.

Lemma hexLetter_facts (g : ascii) :
  hexLetter g = true ->
  hex g = true /\ isDigit g = false /\ space g = false
  /\ Ascii.eqb "L" g = false.
Proof.
  destruct g as [[] [] [] [] [] [] [] []]; intros H;
    solve [discriminate H | repeat split].
Qed.

Lemma digit_word (a : ascii) : isDigit a = true -> word a = true.
Proof.
  destruct a as [[] [] [] [] [] [] [] []]; intros H;
    solve [discriminate H | reflexivity].
Qed.

Lemma digits_word (s : string) :
  allBytes isDigit s = true -> allBytes word s = true.
Proof.
  induction s as [|a s IH]; [reflexivity|]. cbn [allBytes]. intros H.
  apply andb_true_iff in H as [Ha H]. rewrite (digit_word a Ha), (IH H).
  reflexivity.
Qed.

(** A greedy repetition gives one byte back when what follows fails
    after all bytes and matches after all but the last. *)
Lemma repGreedy_gives_back (p : ascii -> bool) (sp : string) :
  forall (d : ascii) (rest : string) n cs k m,
    allBytes p sp = true -> p d = true ->
    match rest with String b _ => p b = false | EmptyString => True end ->
    k (S (n + String.length sp)) rest cs = None ->
    k (n + String.length sp)%nat (String d rest) cs = Some m ->
    repGreedy p n (sp ++ String d rest) cs k = Some m.
Proof.
  induction sp as [|a sp IH]; intros d rest n cs k m Hsp Hd Hrest Hnone Hsome.
  - change ("" ++ String d rest) with (String d rest). cbn [repGreedy].
    rewrite Hd, (repGreedy_stop _ _ _ _ _ Hrest).
    cbn [String.length] in *. rewrite Nat.add_0_r in *.
    rewrite Hnone. exact Hsome.
  - cbn [allBytes] in Hsp. apply andb_true_iff in Hsp as [Ha Hsp].
    rewrite append_cons. cbn [repGreedy]. rewrite Ha.
    cbn [String.length] in *. rewrite Nat.add_succ_r in *.
    rewrite (IH d rest (S n) cs k m Hsp Hd Hrest Hnone Hsome). reflexivity.
Qed.

End RowHead.

Section Rows.

Variables num score guid name lastmsg ipport qport rate : string.
Hypothesis num_field : field digit num = true.
Hypothesis score_field : field digit score = true.
Hypothesis guid_field : field hex guid = true.
Hypothesis name_field : field nonSpace name = true.
Hypothesis lastmsg_field : field digit lastmsg = true.
Hypothesis ipport_field : field nonSpace ipport = true.
Hypothesis qport_field : field digit qport = true.
Hypothesis rate_field : field digit rate = true.

Lemma run_Group_step (g : string) (p : ascii -> bool) (a : ascii) (s : string)
      (n : nat) (cs : captures) (k : cont) :
  run (Group g (plus p)) n (String a s) cs k
  = if p a
    then repGreedy p (S n) s cs
                   (fun n' s' cs' =>
                      k n' s' ((g, String.substring 0 (n' - n) (String a s)) :: cs'))
    else None.
Proof. reflexivity. Qed.

Lemma ping_fails (b : ascii) (X : string) (R : regex) (n : nat) (cs : captures)
      (k : cont) :
  isDigit b = false -> Ascii.eqb "L" b = false ->
  run (Seq (Group "ping" (Alt (plus digit) (literal false "LOAD"))) R)
      n (String b X) cs k = None.
Proof.
  intros Hd HL. rewrite run_Seq, run_Group_Alt, run_Group_step.
  unfold digit. rewrite Hd. cbn [run literal lit]. rewrite HL. reflexivity.
Qed.

Lemma found_at_start (r : regex) (s : string) (m : captures) :
  run r 0 s [] (fun _ _ cs => Some cs) = Some m ->
  FindStringSubmatch r s = Some m.
Proof.
  intros H. unfold FindStringSubmatch.
  destruct s; cbn [searchFrom]; rewrite H; reflexivity.
Qed.

(** The row pattern on a row with a word before the ping. *)
Lemma pattern_with_bot (bot ping : string) :
  field word bot = true ->
  field digit ping = true ->
  FindStringSubmatch
    pattern
    (num ++ " " ++ score ++ " " ++ bot ++ " " ++ ping
         ++ rowTail guid name lastmsg ipport qport rate)
  = Some (rowGroups num score bot ping guid name lastmsg ipport qport rate).
Proof.
  intros Hbot Hping. apply found_at_start. unfold pattern. cbn [seq].
  rewrite run_Seq. apply run_Group_plus; [exact num_field|reflexivity|].
  rewrite run_Seq, run_space
    by (apply (field_head digit space); [exact score_field|apply digit_not_space]).
  rewrite run_Seq. apply run_Group_score; [exact score_field|reflexivity|].
  rewrite run_Seq, run_space
    by (apply (field_head word space); [exact Hbot|apply word_not_space]).
  rewrite run_Seq. apply run_Opt_some.
  apply run_Group_plus; [exact Hbot|reflexivity|].
  rewrite run_Seq, run_star.
  apply (repGreedy_takes space " ");
    [reflexivity
    |apply (field_head digit space); [exact Hping|apply digit_not_space]|].
  rewrite run_Seq. apply run_Group_ping; [exact Hping|reflexivity|].
  apply row_tail; assumption.
Qed.

(** The row pattern on a row without a word before a ping of two
    digits or more: the optional group takes the digits but the
    last. *)
Lemma pattern_without_bot (p : string) (d g : ascii) (guid' : string) :
  guid = String g guid' ->
  hexLetter g = true ->
  field digit p = true ->
  isDigit d = true ->
  FindStringSubmatch
    pattern
    (num ++ " " ++ score ++ " " ++ (p ++ String d "")
         ++ rowTail guid name lastmsg ipport qport rate)
  = Some (rowGroups num score p (String d "") guid name lastmsg ipport qport rate).
Proof.
  intros Eg Hg Hp Hd. destruct (hexLetter_facts g Hg) as (_ & Hgd & Hgs & HgL).
  apply found_at_start. unfold pattern. cbn [seq].
  rewrite run_Seq. apply run_Group_plus; [exact num_field|reflexivity|].
  rewrite run_Seq, run_space
    by (apply (field_head digit space); [exact score_field|apply digit_not_space]).
  rewrite run_Seq. apply run_Group_score; [exact score_field|reflexivity|].
  rewrite append_assoc.
  change (String d "" ++ ?T) with (String d T).
  rewrite run_Seq, run_space
    by (apply (field_head digit space); [exact Hp|apply digit_not_space]).
  rewrite run_Seq. apply run_Opt_some.
  destruct (field_parts _ p Hp) as (a & p' & -> & Ha & Hp').
  rewrite append_cons, run_Group_step, (digit_word a Ha).
  apply repGreedy_gives_back;
    [apply digits_word, Hp'|apply digit_word, Hd|reflexivity| |].
  - cbv beta. unfold rowTail. rewrite Eg.
    change (" " ++ String g guid' ++ ?X) with (String " " (String g (guid' ++ X))).
    rewrite run_Seq, run_star. cbn [repGreedy].
    change (space " ") with true. cbv iota. rewrite Hgs.
    rewrite ping_fails by assumption.
    apply ping_fails; reflexivity.
  - cbv beta.
    match goal with
    | |- context [String.substring 0 ?n (String a (p' ++ ?T))] =>
        replace n with (String.length (String a p')) by (cbn [String.length]; lia);
        change (String a (p' ++ T)) with (String a p' ++ T)
    end.
    rewrite substring_app.
    rewrite run_Seq, run_star, repGreedy_stop by (apply digit_not_space, Hd).
    rewrite run_Seq.
    change (String d (rowTail guid name lastmsg ipport qport rate))
      with (String d "" ++ rowTail guid name lastmsg ipport qport rate).
    apply run_Group_ping;
      [unfold field, digit; cbn [isEmpty negb andb allBytes]; rewrite Hd; reflexivity
      |reflexivity|].
    apply row_tail; assumption.
Qed.

End Rows.

Section RowPlayers.

Lemma digit_plain (a : ascii) :
  isDigit a = true ->
  isASCII a = true /\ Strings.asciiSpace a = false /\ Ascii.eqb a "L" = false.
Proof.
  destruct a as [[] [] [] [] [] [] [] []]; intros H;
    solve [discriminate H | repeat split].
Qed.

Lemma allBytes_rev_onto (p : ascii -> bool) (s acc : string) :
  allBytes p (rev_onto s acc) = allBytes p s && allBytes p acc.
Proof.
  revert acc; induction s as [|a s IH]; intros acc; [reflexivity|].
  cbn [rev_onto allBytes]. rewrite IH. cbn [allBytes].
  destruct (p a), (allBytes p s), (allBytes p acc); reflexivity.
Qed.

Lemma field_rev (p : ascii -> bool) (s : string) :
  field p s = true -> field p (rev s) = true.
Proof.
  unfold field. intros H. apply andb_true_iff in H as [Hne Hs].
  apply andb_true_iff. split.
  - apply negb_true_iff in Hne. apply isEmpty_false in Hne.
    apply negb_true_iff, isEmpty_false, rev_nonempty, Hne.
  - unfold rev. rewrite allBytes_rev_onto, Hs. reflexivity.
Qed.

(** A line that starts and ends with a digit is a row [Status] looks
    at: trimmed, not empty, a digit first. *)
Lemma row_shape (num Y rate : string) :
  field digit num = true -> field digit rate = true ->
  Strings.TrimSpace (num ++ Y ++ rate) = num ++ Y ++ rate
  /\ isEmpty (num ++ Y ++ rate) = false
  /\ firstByteIsDigit (num ++ Y ++ rate) = true.
Proof.
  intros Hnum Hrate.
  destruct (field_parts _ num Hnum) as (a & num' & -> & Ha & _).
  destruct (field_parts _ _ (field_rev _ _ Hrate)) as (z & zs & Ez & Hz & _).
  destruct (digit_plain a Ha) as (Ha1 & Ha2 & _).
  destruct (digit_plain z Hz) as (Hz1 & Hz2 & _).
  rewrite !append_cons. split; [|split; [reflexivity|exact Ha]].
  apply TrimSpace_plain.
  - apply (headPlain_context "" _ a); auto.
  - rewrite <- append_cons, rev_app, rev_app, Ez, !append_cons.
    apply (headPlainRev_context "" _ z); auto.
Qed.

Lemma playerOfMatch_rowGroups
      (num score bot ping guid name lastmsg ipport qport rate : string) :
  field digit ping = true ->
  playerOfMatch (rowGroups num score bot ping guid name lastmsg ipport qport rate)
  = rowPlayer num score ping guid name lastmsg ipport qport rate.
Proof.
  intros Hping. destruct (field_parts _ ping Hping) as (a & ping' & -> & Ha & _).
  destruct (digit_plain a Ha) as (_ & _ & HL).
  unfold playerOfMatch, rowPlayer.
  change (group (rowGroups num score bot (String a ping') guid name lastmsg ipport
                           qport rate) "ipport") with ipport.
  change (group (rowGroups num score bot (String a ping') guid name lastmsg ipport
                           qport rate) "ping") with (String a ping').
  change (group (rowGroups num score bot (String a ping') guid name lastmsg ipport
                           qport rate) "num") with num.
  change (group (rowGroups num score bot (String a ping') guid name lastmsg ipport
                           qport rate) "name") with name.
  change (group (rowGroups num score bot (String a ping') guid name lastmsg ipport
                           qport rate) "score") with score.
  change (group (rowGroups num score bot (String a ping') guid name lastmsg ipport
                           qport rate) "qport") with qport.
  change (group (rowGroups num score bot (String a ping') guid name lastmsg ipport
                           qport rate) "guid") with guid.
  change (group (rowGroups num score bot (String a ping') guid name lastmsg ipport
                           qport rate) "lastmsg") with lastmsg.
  change (group (rowGroups num score bot (String a ping') guid name lastmsg ipport
                           qport rate) "rate") with rate.
  destruct (Strings.Cut ipport ":") as [[ip portStr] found]. cbn [fst snd].
  assert (E : String.eqb (String a ping') "LOAD" = false).
  { cbn [String.eqb]. rewrite HL. reflexivity. }
  rewrite E. reflexivity.
Qed.

Lemma statusPlayers_row (row : string) (m : captures) :
  Strings.TrimSpace row = row -> isEmpty row = false ->
  firstByteIsDigit row = true ->
  FindStringSubmatch pattern row = Some m ->
  statusPlayers [row] = [playerOfMatch m].
Proof.
  intros Ht He Hd Hm. cbn [statusPlayers]. rewrite Ht, He, Hd, Hm. reflexivity.
Qed.

End RowPlayers.

Section RowClaims.

Variables num score guid name lastmsg ipport qport rate : string.
Hypothesis num_field : field digit num = true.
Hypothesis score_field : field digit score = true.
Hypothesis guid_field : field hex guid = true.
Hypothesis name_field : field nonSpace name = true.
Hypothesis lastmsg_field : field digit lastmsg = true.
Hypothesis ipport_field : field nonSpace ipport = true.
Hypothesis qport_field : field digit qport = true.
Hypothesis rate_field : field digit rate = true.

(** X26.  A row of the status table with a word (such as bot) before
    the ping decodes to its fields.  The fields are separated by one
    space each; slot, score, ping, last message, query port and rate
    are decimal digits, the GUID is hexadecimal digits, the name and
    the address hold no white space.  [Status] reads from such a row
    the player with these fields, the address cut at its first
    colon. *)
Theorem Status_row_with_word (bot ping : string) :
  field word bot = true ->
  field digit ping = true ->
  statusPlayers
    [num ++ " " ++ score ++ " " ++ bot ++ " " ++ ping
         ++ rowTail guid name lastmsg ipport qport rate]
  = [rowPlayer num score ping guid name lastmsg ipport qport rate].
Proof.
  intros Hbot Hping.
  rewrite <- (playerOfMatch_rowGroups num score bot ping guid name lastmsg ipport
                qport rate Hping).
  destruct (row_shape num
              (" " ++ score ++ " " ++ bot ++ " " ++ ping ++ " " ++ guid ++ " "
                   ++ name ++ " " ++ lastmsg ++ " " ++ ipport ++ " " ++ qport ++ " ")
              rate num_field rate_field) as (Ht & He & Hd).
  unfold rowTail. rewrite !append_assoc in Ht, He, Hd.
  apply statusPlayers_row; [exact Ht|exact He|exact Hd|].
  apply pattern_with_bot; assumption.
Qed.

(** X27.  A row without a word before the ping, with a ping of two
    digits or more and a GUID that starts with a letter: the optional
    group of the row pattern takes the digits of the ping but the
    last, and [Status] reads the player with the last digit as its
    ping. *)
Theorem Status_row_without_word (p : string) (d g : ascii) (guid' : string) :
  guid = String g guid' ->
  hexLetter g = true ->
  field digit p = true ->
  isDigit d = true ->
  statusPlayers
    [num ++ " " ++ score ++ " " ++ (p ++ String d "")
         ++ rowTail guid name lastmsg ipport qport rate]
  = [rowPlayer num score (String d "") guid name lastmsg ipport qport rate].
Proof.
  intros Eg Hg Hp Hd.
  assert (Hping : field digit (String d "") = true).
  { unfold field, digit. cbn [isEmpty negb andb allBytes]. rewrite Hd. reflexivity. }
  rewrite <- (playerOfMatch_rowGroups num score p (String d "") guid name lastmsg
                ipport qport rate Hping).
  destruct (row_shape num
              (" " ++ score ++ " " ++ (p ++ String d "") ++ " " ++ guid ++ " "
                   ++ name ++ " " ++ lastmsg ++ " " ++ ipport ++ " " ++ qport ++ " ")
              rate num_field rate_field) as (Ht & He & Hdg).
  assert (E : num ++ " " ++ score ++ " " ++ (p ++ String d "")
                  ++ rowTail guid name lastmsg ipport qport rate
              = num ++ (" " ++ score ++ " " ++ (p ++ String d "") ++ " " ++ guid
                            ++ " " ++ name ++ " " ++ lastmsg ++ " " ++ ipport ++ " "
                            ++ qport ++ " ") ++ rate).
  { unfold rowTail. rewrite !append_assoc. reflexivity. }
  apply statusPlayers_row; [rewrite E; exact Ht|rewrite E; exact He
                           |rewrite E; exact Hdg|].
  apply (pattern_without_bot num score guid name lastmsg ipport qport rate
           num_field score_field guid_field name_field lastmsg_field ipport_field
           qport_field rate_field p d g guid' Eg Hg Hp Hd).
Qed.

End RowClaims.

Section RowExamples.

Lemma Status_row_with_word_witness :
  statusPlayers
    ["3" ++ " " ++ "12" ++ " " ++ "bot" ++ " " ++ "50"
         ++ rowTail "abc123" "PlayerOne" "0" "1.2.3.4:1234" "5678" "5000"]
  = [rowPlayer "3" "12" "50" "abc123" "PlayerOne" "0" "1.2.3.4:1234" "5678" "5000"].
Proof.
  apply (Status_row_with_word "3" "12" "abc123" "PlayerOne" "0" "1.2.3.4:1234"
           "5678" "5000"); reflexivity.
Defined.

Lemma Status_row_without_word_witness :
  statusPlayers
    ["3" ++ " " ++ "12" ++ " " ++ ("5" ++ String "0" "")
         ++ rowTail "abc123" "PlayerOne" "0" "1.2.3.4:1234" "5678" "5000"]
  = [rowPlayer "3" "12" (String "0" "") "abc123" "PlayerOne" "0" "1.2.3.4:1234"
               "5678" "5000"].
Proof.
  apply (Status_row_without_word "3" "12" "abc123" "PlayerOne" "0" "1.2.3.4:1234"
           "5678" "5000" eq_refl eq_refl eq_refl eq_refl eq_refl eq_refl eq_refl
           eq_refl "5" "0"%char "a"%char "bc123"); reflexivity.
Defined.

End RowExamples.

(* ===================================================================== *)
(** ** Answers without a key/value block *)
(* ===================================================================== *)

Section PlainAnswers.

Lemma Contains_byte (s : string) (a : ascii) :
  Strings.Contains s (String a "") = hasByte s a.
Proof.
  induction s as [|b s IH]; [reflexivity|].
  cbn [Strings.Contains hasByte]. rewrite IH. f_equal.
  unfold Strings.HasPrefix. cbn [String.prefix].
  destruct (ascii_dec a b) as [->|Hne].
  - rewrite Ascii.eqb_refl. destruct s; reflexivity.
  - destruct (Ascii.eqb_spec a b); [congruence|reflexivity].
Qed.

Lemma dataLine_fold_plain (banner : string) (lines : list string) :
  Forall (fun l => hasByte l backslash = false) lines ->
  fold_left
    (fun dataLine l =>
       let t := Strings.TrimSpace l in
       if Strings.EqualFold t banner then dataLine
       else if Strings.HasPrefix t "\" || Strings.Contains t "\"
            then (if isEmpty dataLine then t else dataLine ++ t)
            else dataLine)
    lines "" = "".
Proof.
  induction 1 as [|l lines Hl _ IH]; [reflexivity|].
  cbn [fold_left]. cbv zeta.
  destruct (Strings.EqualFold (Strings.TrimSpace l) banner); [exact IH|].
  pose proof (TrimSpace_hasByte l backslash Hl) as Ht.
  assert (Hc : Strings.Contains (Strings.TrimSpace l) "\" = false)
    by (rewrite (Contains_byte _ backslash); exact Ht).
  assert (Hp : Strings.HasPrefix (Strings.TrimSpace l) "\" = false).
  { destruct (Strings.TrimSpace l) as [|b t]; [reflexivity|].
    cbn [hasByte] in Ht. apply orb_false_iff in Ht as [Hb _].
    unfold Strings.HasPrefix. cbn [String.prefix].
    destruct (ascii_dec "\" b) as [<-|]; [|reflexivity].
    discriminate Hb. }
  rewrite Hp, Hc. exact IH.
Qed.

(** Without a backslash on any line there is nothing to decode. *)
Lemma parseKV_plain (banner : string) (lines : list string) :
  Forall (fun l => hasByte l backslash = false) lines ->
  parseKV (dataLineOf banner lines) = ∅.
Proof.
  intros H. unfold dataLineOf.
  match goal with
  | |- context [fold_left ?f lines ""] =>
      replace (fold_left f lines "") with ""
        by (symmetry; exact (dataLine_fold_plain banner lines H))
  end.
  cbv zeta. cbn [isEmpty].
  assert (Hlast : hasByte (Strings.TrimSpace (List.last lines "")) backslash = false).
  { apply TrimSpace_hasByte. clear -H.
    induction H as [|l lines Hl Hrest IH]; [reflexivity|].
    destruct lines; [exact Hl|exact IH]. }
  rewrite parseKV_fold, (Split_without_sep _ _ Hlast).
  destruct (Strings.TrimSpace (List.last lines "")); reflexivity.
Qed.

End PlainAnswers.

Section PlainAnswersClaims.

Variable rc : RCONClient.t.
Hypothesis established : RCONClient.Conn rc <> None.

(** X28.  An answer in which no line holds a backslash is not an
    error for [GetInfo] and [GetStatus]: whatever its text, as long as
    the accumulation yields one line at least, they return without
    error the snapshot built from the empty map. *)
Theorem GetInfo_GetStatus_plain_answer
        (w w1 w2 : Net.net) (l : string) (ls : list string) :
  readResponse rc (timeoutOrDefault rc) defaultReadExtension w1
  = ((l :: ls, None), w2) ->
  Forall (fun x => hasByte x backslash = false) (l :: ls) ->
  (Net.connWrite (queryPacket "getinfo") w = (None, w1) ->
   GetInfo rc w = ((Some (serverInfoOf ∅ (Net.clock w2)), None), w2))
  /\ (Net.connWrite (queryPacket "getstatus") w = (None, w1) ->
      GetStatus rc w = ((Some (serverStatusInfoOf ∅ (Net.clock w2)), None), w2)).
Proof.
  intros Hr Hplain. split; intros Hw.
  - unfold GetInfo, queryLines. destruct (RCONClient.Conn rc); [|congruence].
    rewrite Hw, Hr. cbn [List.length Nat.eqb].
    rewrite (parseKV_plain _ _ Hplain). reflexivity.
  - unfold GetStatus, queryLines. destruct (RCONClient.Conn rc); [|congruence].
    rewrite Hw, Hr. cbn [List.length Nat.eqb].
    rewrite (parseKV_plain _ _ Hplain). reflexivity.
Qed.

End PlainAnswersClaims.

Section PlainAnswersExamples.

Lemma GetInfo_GetStatus_plain_answer_witness :
  GetInfo client (peer [Net.Datagram (sentinel ++ "disconnect"); deadline])
  = ((Some (serverInfoOf ∅ 0), None),
     Net.mkNet false [] [] [Net.Wrote (queryPacket "getinfo")] 0).
Proof.
  assert (E : RCONClient.Conn client <> None) by discriminate.
  assert (H : Forall (fun x => hasByte x backslash = false) ["disconnect"])
    by (repeat constructor).
  apply (proj1 (GetInfo_GetStatus_plain_answer client E
                  (peer [Net.Datagram (sentinel ++ "disconnect"); deadline])
                  (Net.mkNet false []
                             [Net.Datagram (sentinel ++ "disconnect"); deadline]
                             [Net.Wrote (queryPacket "getinfo")] 0)
                  (Net.mkNet false [] [] [Net.Wrote (queryPacket "getinfo")] 0)
                  "disconnect" [] eq_refl H)).
  reflexivity.
Defined.

End PlainAnswersExamples.

(* ===================================================================== *)
(** ** The result of the dvar extractor *)
(* ===================================================================== *)

Section DvarResult.

Lemma dvarLoop_value_or_error (rc : RCONClient.t) (dvar : string)
      (rx1 rx2 : regex) (n : nat) :
  forall attempt lastClean w,
    snd (fst (dvarLoop rc dvar rx1 rx2 n attempt lastClean w)) <> None ->
    fst (fst (dvarLoop rc dvar rx1 rx2 n attempt lastClean w)) = "".
Proof.
  induction n as [|n IH]; intros attempt lastClean w.
  - cbn [dvarLoop]. unfold dvarResult.
    destruct (negb (isEmpty lastClean)); cbn; congruence.
  - rewrite dvarLoop_S.
    destruct (SendCommand rc dvar None [requireResponse] w) as [[res [e|]] w1];
      [reflexivity|].
    destruct (scanLines rx1 rx2 res lastClean) as [val|lastClean'];
      [cbn; congruence|].
    destruct (negb (needRetry res)); [|apply IH].
    unfold dvarResult. destruct (negb (isEmpty lastClean')); cbn; congruence.
Qed.

(** X29.  [GetDvar] never returns a value together with an error, and
    when it returns no error for a name that is not empty, a query was
    answered with one line at least. *)
Theorem GetDvar_value_or_error (rc : RCONClient.t) (dvar : string) (w : Net.net) :
  (snd (fst (GetDvar rc dvar w)) <> None -> fst (fst (GetDvar rc dvar w)) = "")
  /\ (snd (fst (GetDvar rc dvar w)) = None ->
      dvar <> ""
      /\ exists res w1,
          SendCommand rc dvar None [requireResponse] w = ((res, None), w1)
          /\ res <> []).
Proof.
  unfold GetDvar. destruct (isEmpty dvar) eqn:Hd.
  - cbn. split; [reflexivity|discriminate].
  - split; [apply dvarLoop_value_or_error|].
    intros Hok. split; [apply isEmpty_false, Hd|].
    change (Z.to_nat maxAttempts) with 3%nat in Hok. rewrite dvarLoop_S in Hok.
    assert (Hshape : snd (fst (SendCommand rc dvar None [requireResponse] w)) = None ->
                     fst (fst (SendCommand rc dvar None [requireResponse] w)) <> []).
    { unfold SendCommand. destruct (RCONClient.Conn rc); [|discriminate].
      match goal with
      | |- context [sendLoop ?a ?b ?c ?d ?e ?f ?g ?h] =>
          pose proof (sendLoop_shape a b c d e f g h) as H; cbv zeta in H;
          destruct H as [_ H]; apply H
      end.
      reflexivity. }
    destruct (SendCommand rc dvar None [requireResponse] w) as [[res [e|]] w1].
    + cbn in Hok. congruence.
    + exists res, w1. split; [reflexivity|]. apply Hshape. reflexivity.
Qed.

Lemma GetDvar_value_or_error_witness :
  fst (fst (GetDvar client "sv_hostname" (peer []))) = "".
Proof.
  apply (proj1 (GetDvar_value_or_error client "sv_hostname" (peer []))).
  vm_compute. discriminate.
Defined.

End DvarResult.
